(** * QuizView: the parser of Brightspace quiz CSV files

    A shallow embedding of [parseQuizCsv] and of its helpers [safeParseInt],
    [getValue], [splitCsvRow] and [splitCsvToRecords], in the version of
    [csvParser.ts] that has the quote-aware record splitter, followed by the
    properties of the parser.  The older version kept in [src/lib/csvParser.ts]
    only contributes its line splitting, as [plainSplit], and its tokenizer,
    as [oldSplitCells].

    Modelling conventions.
    - A JavaScript string is the sequence of its UTF-16 code units.  The model
      covers the code units below 256 and writes them as [ascii], so that a
      JavaScript string is a [string]; white space and [toLowerCase] are those
      of ECMAScript on that range.
    - A JavaScript number that holds an integer is a [Z], which is exact on
      the range of the safe integers; record numbers are [nat].
    - An optional property of an object is an [option], an array is a [list].
      A question under construction is a value: once pushed it is never
      written again, since [currentQuestion] is then bound to a new object.
    - [console.warn], [console.log] and [console.error] append to an explicit
      list of diagnostics.
    - The one kind of statement of the [try] block that can throw, a write
      through the last element of an array, is partial in the model. *)

From Stdlib Require Import String Ascii ZArith NArith List Bool Lia DecimalString.
From stdpp Require Import base numbers list option.
Import ListNotations.

Local Open Scope string_scope.
Local Open Scope bool_scope.

(** ** Characters and strings *)

Module Js.

Definition LF : ascii := "010"%char.
Definition DQUOTE : ascii := "034"%char.
Definition COMMA : ascii := ","%char.

(** White space and line terminators of ECMAScript, below U+0100:
    TAB, LF, VT, FF, CR, SPACE and NBSP.  This is the set removed by
    [String.prototype.trim], matched by [\s] and skipped by [parseInt]. *)
Definition isWhite (c : ascii) : bool :=
  let n := N_of_ascii c in
  ((9 <=? n) && (n <=? 13) || (n =? 32) || (n =? 160))%N.

Fixpoint trimStart (s : string) : string :=
  match s with
  | String c r => if isWhite c then trimStart r else s
  | EmptyString => EmptyString
  end.

Fixpoint trimEnd (s : string) : string :=
  match s with
  | String c r =>
      let r' := trimEnd r in
      if isWhite c && (r' =? "") then "" else String c r'
  | EmptyString => EmptyString
  end.

(** [s.trim()] *)
Definition trim (s : string) : string := trimEnd (trimStart s).

(** [/^\s*$/.test(s)] *)
Fixpoint allWhite (s : string) : bool :=
  match s with
  | String c r => isWhite c && allWhite r
  | EmptyString => true
  end.

(** [toLowerCase] on one code unit below U+0100: A-Z and the Latin-1 capitals
    U+00C0..U+00DE (without the multiplication sign U+00D7) move up by 32. *)
Definition lowerChar (c : ascii) : ascii :=
  let n := N_of_ascii c in
  if ((65 <=? n) && (n <=? 90) || (192 <=? n) && (n <=? 222) && negb (n =? 215))%N
  then ascii_of_N (n + 32) else c.

Fixpoint toLowerCase (s : string) : string :=
  match s with
  | String c r => String (lowerChar c) (toLowerCase r)
  | EmptyString => EmptyString
  end.

Definition startsWith (s : string) (c : ascii) : bool :=
  match s with
  | String c0 _ => Ascii.eqb c0 c
  | EmptyString => false
  end.

Fixpoint endsWith (s : string) (c : ascii) : bool :=
  match s with
  | String c0 EmptyString => Ascii.eqb c0 c
  | String _ r => endsWith r c
  | EmptyString => false
  end.

(** [s.substring(a, b)]: both indices are clamped to the length and swapped
    when [a > b]. *)
Definition substring (s : string) (a b : nat) : string :=
  let a' := Nat.min a (String.length s) in
  let b' := Nat.min b (String.length s) in
  String.substring (Nat.min a' b') (Nat.max a' b' - Nat.min a' b') s.

(** [s.substring(a)] *)
Definition substringFrom (s : string) (a : nat) : string :=
  substring s a (String.length s).

(** [s.replace(/<dq><dq>/g, <dq>)]: every pair of double quotes, scanning
    from the left without overlap, becomes one double quote. *)
Fixpoint replaceQuotePairs (s : string) : string :=
  match s with
  | String c1 r =>
      match r with
      | String c2 r' =>
          if Ascii.eqb c1 DQUOTE && Ascii.eqb c2 DQUOTE
          then String DQUOTE (replaceQuotePairs r')
          else String c1 (replaceQuotePairs r)
      | EmptyString => s
      end
  | EmptyString => EmptyString
  end.

Definition isDigit (c : ascii) : bool :=
  let n := N_of_ascii c in ((48 <=? n) && (n <=? 57))%N.

Definition digitValue (c : ascii) : Z := Z.of_N (N_of_ascii c) - 48.

(** The longest prefix of decimal digits, read as a number; [acc] is [None]
    until a first digit has been seen. *)
Fixpoint readDigits (s : string) (acc : option Z) : option Z :=
  match s with
  | String c r =>
      if isDigit c
      then readDigits r (Some (10 * default 0%Z acc + digitValue c)%Z)
      else acc
  | EmptyString => acc
  end.

(** [parseInt(s, 10)]; [None] stands for [NaN].  Leading white space is
    skipped, one sign is read, then the longest run of decimal digits. *)
Definition parseInt (s : string) : option Z :=
  match trimStart s with
  | String "-"%char r => Z.opp <$> readDigits r None
  | String "+"%char r => readDigits r None
  | t => readDigits t None
  end.

(** The text of a number inside a template literal, for an integer. *)
Definition numberToString (n : Z) : string :=
  NilZero.string_of_int (Z.to_int n).

(** [s.includes(c)] for one character. *)
Fixpoint includesChar (s : string) (c : ascii) : bool :=
  match s with
  | String c0 r => Ascii.eqb c0 c || includesChar r c
  | EmptyString => false
  end.

(** A literal between double quotes, as a CSV producer writes a quoted cell
    that holds no quote of its own. *)
Definition quoted (s : string) : string :=
  String DQUOTE (s ++ String DQUOTE "").

(** Lines joined by line feeds, each line ended by one. *)
Fixpoint lines (l : list string) : string :=
  match l with
  | [] => ""
  | x :: r => x ++ String LF (lines r)
  end.

End Js.

Import Js.

(** ** Helpers of the parser *)

(** [safeParseInt(value, defaultValue)]; the callers pass the result of
    [getValue], which is always a string. *)
Definition safeParseInt (value : string) (defaultValue : Z) : Z :=
  if trim value =? "" then defaultValue
  else match parseInt value with
       | Some parsed => parsed
       | None => defaultValue
       end.

(** [getValue(arr, index, defaultValue)] *)
Definition getValue (arr : list string) (index : nat) (defaultValue : string) : string :=
  match arr !! index with
  | Some v => if v =? "" then defaultValue else v
  | None => defaultValue
  end.

(** ** The row tokenizer, [splitCsvRow] *)

(** The [for] loop of [splitCsvRow] over the characters still to read.  The
    branch for an escaped pair consumes two characters ([i++; continue]). *)
Fixpoint splitCsvRow_loop (row : string) (result : list string)
    (currentCell : string) (inQuotes : bool) : list string :=
  match row with
  | EmptyString => result ++ [trim currentCell]
  | String char rest =>
      if Ascii.eqb char DQUOTE then
        match rest with
        | String next rest' =>
            if inQuotes && Ascii.eqb next DQUOTE
            then splitCsvRow_loop rest' result (currentCell ++ String DQUOTE "") inQuotes
            else splitCsvRow_loop rest result currentCell (negb inQuotes)
        | EmptyString => splitCsvRow_loop rest result currentCell (negb inQuotes)
        end
      else if Ascii.eqb char COMMA && negb inQuotes then
        splitCsvRow_loop rest (result ++ [trim currentCell]) "" inQuotes
      else
        splitCsvRow_loop rest result (currentCell ++ String char "") inQuotes
  end.

(** The callback of the final [result.map]. *)
Definition stripCellQuotes (cell : string) : string :=
  if startsWith cell DQUOTE && endsWith cell DQUOTE
  then replaceQuotePairs (substring cell 1 (String.length cell - 1))
  else cell.

Definition splitCsvRow (row : string) : list string :=
  map stripCellQuotes (splitCsvRow_loop row [] "" false).

(** ** The record splitter, [splitCsvToRecords] *)

(** The [for] loop of [splitCsvToRecords]: [rest] is the input from index [i]
    on, [currentRecordStart] and [inQuotes] are the loop variables, [records]
    the array built so far. *)
Fixpoint splitCsvToRecords_loop (csvString rest : string) (i currentRecordStart : nat)
    (inQuotes : bool) (records : list string) : list string :=
  match rest with
  | EmptyString =>
      if (currentRecordStart <? String.length csvString)%nat
      then records ++ [substringFrom csvString currentRecordStart]
      else records
  | String char rest1 =>
      if Ascii.eqb char DQUOTE then
        match rest1 with
        | String next rest2 =>
            if Ascii.eqb next DQUOTE
            then splitCsvToRecords_loop csvString rest2 (i + 2) currentRecordStart inQuotes records
            else splitCsvToRecords_loop csvString rest1 (i + 1) currentRecordStart (negb inQuotes) records
        | EmptyString =>
            splitCsvToRecords_loop csvString rest1 (i + 1) currentRecordStart (negb inQuotes) records
        end
      else if Ascii.eqb char LF && negb inQuotes then
        splitCsvToRecords_loop csvString rest1 (i + 1) (i + 1) inQuotes
          (records ++ [substring csvString currentRecordStart i])
      else
        splitCsvToRecords_loop csvString rest1 (i + 1) currentRecordStart inQuotes records
  end.

(** The records before trimming and filtering. *)
Definition rawRecords (csvString : string) : list string :=
  splitCsvToRecords_loop csvString csvString 0 0 false [].

(** The callback of the final [filter]. *)
Definition keepRecord (record : string) : bool :=
  (0 <? String.length record)%nat && negb (allWhite record).

Definition splitCsvToRecords (csvString : string) : list string :=
  List.filter keepRecord (map trim (rawRecords csvString)).

(** ** The data model ([src/types/quiz.ts]) *)

Record InputBox := { rows : Z; cols : Z }.

Record MatchingPair := { choiceNo : Z; choiceText : string; matchText : string }.

Record MCOption := {
  mc_percent : Z;
  mc_text : string;
  mc_htmlFlag : bool;
  mc_feedback : option string;
  mc_feedbackHtmlFlag : bool
}.

Record MSOption := {
  ms_weight : Z;
  ms_text : string;
  ms_htmlFlag : bool;
  ms_feedback : option string;
  ms_feedbackHtmlFlag : bool
}.

(** The [options] property holds [MCOption]s in a multiple-choice question and
    [MSOption]s in a multi-select question. *)
Inductive AnyOption :=
  | MC (o : MCOption)
  | MS (o : MSOption).

(** [definedLine] is written by every place that builds a [TFOption]. *)
Record TFOption := {
  isTrue : bool;
  credit : Z;
  tf_feedback : option string;
  tf_htmlFlag : bool;
  definedLine : nat
}.

Record OrderingItem := {
  it_text : string;
  it_htmlFlag : bool;
  it_feedback : option string;
  it_feedbackHtmlFlag : bool
}.

(** [Partial<Question>]: the object under construction, with every property
    of every variant optional.  The source's property [id] is [qid] here. *)
Record PartialQuestion := {
  type : option string;
  qid : option string;
  title : option string;
  questionText : option string;
  points : option Z;
  difficulty : option Z;
  image : option string;
  hint : option string;
  feedback : option string;
  initialText : option string;
  answerKey : option string;
  inputBox : option InputBox;
  bestAnswer : option string;
  evaluation : option string;
  scoring : option string;
  pairs : option (list MatchingPair);
  options : option (list AnyOption);
  trueOption : option TFOption;
  falseOption : option TFOption;
  items : option (list OrderingItem)
}.

Definition set_qid (v : option string) (q : PartialQuestion) : PartialQuestion :=
  {| type := type q; qid := v; title := title q; questionText := questionText q;
     points := points q; difficulty := difficulty q; image := image q; hint := hint q;
     feedback := feedback q; initialText := initialText q; answerKey := answerKey q;
     inputBox := inputBox q; bestAnswer := bestAnswer q; evaluation := evaluation q;
     scoring := scoring q; pairs := pairs q; options := options q;
     trueOption := trueOption q; falseOption := falseOption q; items := items q |}.

Definition set_title (v : option string) (q : PartialQuestion) : PartialQuestion :=
  {| type := type q; qid := qid q; title := v; questionText := questionText q;
     points := points q; difficulty := difficulty q; image := image q; hint := hint q;
     feedback := feedback q; initialText := initialText q; answerKey := answerKey q;
     inputBox := inputBox q; bestAnswer := bestAnswer q; evaluation := evaluation q;
     scoring := scoring q; pairs := pairs q; options := options q;
     trueOption := trueOption q; falseOption := falseOption q; items := items q |}.

Definition set_questionText (v : option string) (q : PartialQuestion) : PartialQuestion :=
  {| type := type q; qid := qid q; title := title q; questionText := v; points := points q;
     difficulty := difficulty q; image := image q; hint := hint q; feedback := feedback q;
     initialText := initialText q; answerKey := answerKey q; inputBox := inputBox q;
     bestAnswer := bestAnswer q; evaluation := evaluation q; scoring := scoring q;
     pairs := pairs q; options := options q; trueOption := trueOption q;
     falseOption := falseOption q; items := items q |}.

Definition set_points (v : option Z) (q : PartialQuestion) : PartialQuestion :=
  {| type := type q; qid := qid q; title := title q; questionText := questionText q;
     points := v; difficulty := difficulty q; image := image q; hint := hint q;
     feedback := feedback q; initialText := initialText q; answerKey := answerKey q;
     inputBox := inputBox q; bestAnswer := bestAnswer q; evaluation := evaluation q;
     scoring := scoring q; pairs := pairs q; options := options q;
     trueOption := trueOption q; falseOption := falseOption q; items := items q |}.

Definition set_difficulty (v : option Z) (q : PartialQuestion) : PartialQuestion :=
  {| type := type q; qid := qid q; title := title q; questionText := questionText q;
     points := points q; difficulty := v; image := image q; hint := hint q;
     feedback := feedback q; initialText := initialText q; answerKey := answerKey q;
     inputBox := inputBox q; bestAnswer := bestAnswer q; evaluation := evaluation q;
     scoring := scoring q; pairs := pairs q; options := options q;
     trueOption := trueOption q; falseOption := falseOption q; items := items q |}.

Definition set_image (v : option string) (q : PartialQuestion) : PartialQuestion :=
  {| type := type q; qid := qid q; title := title q; questionText := questionText q;
     points := points q; difficulty := difficulty q; image := v; hint := hint q;
     feedback := feedback q; initialText := initialText q; answerKey := answerKey q;
     inputBox := inputBox q; bestAnswer := bestAnswer q; evaluation := evaluation q;
     scoring := scoring q; pairs := pairs q; options := options q;
     trueOption := trueOption q; falseOption := falseOption q; items := items q |}.

Definition set_hint (v : option string) (q : PartialQuestion) : PartialQuestion :=
  {| type := type q; qid := qid q; title := title q; questionText := questionText q;
     points := points q; difficulty := difficulty q; image := image q; hint := v;
     feedback := feedback q; initialText := initialText q; answerKey := answerKey q;
     inputBox := inputBox q; bestAnswer := bestAnswer q; evaluation := evaluation q;
     scoring := scoring q; pairs := pairs q; options := options q;
     trueOption := trueOption q; falseOption := falseOption q; items := items q |}.

Definition set_feedback (v : option string) (q : PartialQuestion) : PartialQuestion :=
  {| type := type q; qid := qid q; title := title q; questionText := questionText q;
     points := points q; difficulty := difficulty q; image := image q; hint := hint q;
     feedback := v; initialText := initialText q; answerKey := answerKey q;
     inputBox := inputBox q; bestAnswer := bestAnswer q; evaluation := evaluation q;
     scoring := scoring q; pairs := pairs q; options := options q;
     trueOption := trueOption q; falseOption := falseOption q; items := items q |}.

Definition set_initialText (v : option string) (q : PartialQuestion) : PartialQuestion :=
  {| type := type q; qid := qid q; title := title q; questionText := questionText q;
     points := points q; difficulty := difficulty q; image := image q; hint := hint q;
     feedback := feedback q; initialText := v; answerKey := answerKey q;
     inputBox := inputBox q; bestAnswer := bestAnswer q; evaluation := evaluation q;
     scoring := scoring q; pairs := pairs q; options := options q;
     trueOption := trueOption q; falseOption := falseOption q; items := items q |}.

Definition set_answerKey (v : option string) (q : PartialQuestion) : PartialQuestion :=
  {| type := type q; qid := qid q; title := title q; questionText := questionText q;
     points := points q; difficulty := difficulty q; image := image q; hint := hint q;
     feedback := feedback q; initialText := initialText q; answerKey := v;
     inputBox := inputBox q; bestAnswer := bestAnswer q; evaluation := evaluation q;
     scoring := scoring q; pairs := pairs q; options := options q;
     trueOption := trueOption q; falseOption := falseOption q; items := items q |}.

Definition set_inputBox (v : option InputBox) (q : PartialQuestion) : PartialQuestion :=
  {| type := type q; qid := qid q; title := title q; questionText := questionText q;
     points := points q; difficulty := difficulty q; image := image q; hint := hint q;
     feedback := feedback q; initialText := initialText q; answerKey := answerKey q;
     inputBox := v; bestAnswer := bestAnswer q; evaluation := evaluation q;
     scoring := scoring q; pairs := pairs q; options := options q;
     trueOption := trueOption q; falseOption := falseOption q; items := items q |}.

Definition set_bestAnswer (v : option string) (q : PartialQuestion) : PartialQuestion :=
  {| type := type q; qid := qid q; title := title q; questionText := questionText q;
     points := points q; difficulty := difficulty q; image := image q; hint := hint q;
     feedback := feedback q; initialText := initialText q; answerKey := answerKey q;
     inputBox := inputBox q; bestAnswer := v; evaluation := evaluation q;
     scoring := scoring q; pairs := pairs q; options := options q;
     trueOption := trueOption q; falseOption := falseOption q; items := items q |}.

Definition set_evaluation (v : option string) (q : PartialQuestion) : PartialQuestion :=
  {| type := type q; qid := qid q; title := title q; questionText := questionText q;
     points := points q; difficulty := difficulty q; image := image q; hint := hint q;
     feedback := feedback q; initialText := initialText q; answerKey := answerKey q;
     inputBox := inputBox q; bestAnswer := bestAnswer q; evaluation := v;
     scoring := scoring q; pairs := pairs q; options := options q;
     trueOption := trueOption q; falseOption := falseOption q; items := items q |}.

Definition set_scoring (v : option string) (q : PartialQuestion) : PartialQuestion :=
  {| type := type q; qid := qid q; title := title q; questionText := questionText q;
     points := points q; difficulty := difficulty q; image := image q; hint := hint q;
     feedback := feedback q; initialText := initialText q; answerKey := answerKey q;
     inputBox := inputBox q; bestAnswer := bestAnswer q; evaluation := evaluation q;
     scoring := v; pairs := pairs q; options := options q; trueOption := trueOption q;
     falseOption := falseOption q; items := items q |}.

Definition set_pairs (v : option (list MatchingPair)) (q : PartialQuestion) : PartialQuestion :=
  {| type := type q; qid := qid q; title := title q; questionText := questionText q;
     points := points q; difficulty := difficulty q; image := image q; hint := hint q;
     feedback := feedback q; initialText := initialText q; answerKey := answerKey q;
     inputBox := inputBox q; bestAnswer := bestAnswer q; evaluation := evaluation q;
     scoring := scoring q; pairs := v; options := options q; trueOption := trueOption q;
     falseOption := falseOption q; items := items q |}.

Definition set_options (v : option (list AnyOption)) (q : PartialQuestion) : PartialQuestion :=
  {| type := type q; qid := qid q; title := title q; questionText := questionText q;
     points := points q; difficulty := difficulty q; image := image q; hint := hint q;
     feedback := feedback q; initialText := initialText q; answerKey := answerKey q;
     inputBox := inputBox q; bestAnswer := bestAnswer q; evaluation := evaluation q;
     scoring := scoring q; pairs := pairs q; options := v; trueOption := trueOption q;
     falseOption := falseOption q; items := items q |}.

Definition set_trueOption (v : option TFOption) (q : PartialQuestion) : PartialQuestion :=
  {| type := type q; qid := qid q; title := title q; questionText := questionText q;
     points := points q; difficulty := difficulty q; image := image q; hint := hint q;
     feedback := feedback q; initialText := initialText q; answerKey := answerKey q;
     inputBox := inputBox q; bestAnswer := bestAnswer q; evaluation := evaluation q;
     scoring := scoring q; pairs := pairs q; options := options q; trueOption := v;
     falseOption := falseOption q; items := items q |}.

Definition set_falseOption (v : option TFOption) (q : PartialQuestion) : PartialQuestion :=
  {| type := type q; qid := qid q; title := title q; questionText := questionText q;
     points := points q; difficulty := difficulty q; image := image q; hint := hint q;
     feedback := feedback q; initialText := initialText q; answerKey := answerKey q;
     inputBox := inputBox q; bestAnswer := bestAnswer q; evaluation := evaluation q;
     scoring := scoring q; pairs := pairs q; options := options q;
     trueOption := trueOption q; falseOption := v; items := items q |}.

Definition set_items (v : option (list OrderingItem)) (q : PartialQuestion) : PartialQuestion :=
  {| type := type q; qid := qid q; title := title q; questionText := questionText q;
     points := points q; difficulty := difficulty q; image := image q; hint := hint q;
     feedback := feedback q; initialText := initialText q; answerKey := answerKey q;
     inputBox := inputBox q; bestAnswer := bestAnswer q; evaluation := evaluation q;
     scoring := scoring q; pairs := pairs q; options := options q;
     trueOption := trueOption q; falseOption := falseOption q; items := v |}.
(** The object literal [{ type: questionTypeCode, points: 1 }]. *)
Definition newQuestion (questionTypeCode : string) : PartialQuestion :=
  {| type := Some questionTypeCode; qid := None; title := None; questionText := None;
     points := Some 1%Z; difficulty := None; image := None; hint := None;
     feedback := None; initialText := None; answerKey := None; inputBox := None;
     bestAnswer := None; evaluation := None; scoring := None; pairs := None;
     options := None; trueOption := None; falseOption := None; items := None |}.

Record Quiz := { questions : list PartialQuestion }.

(** Assignments to the [feedback] property of an element. *)
Definition withOptionFeedback (v : string) (o : AnyOption) : AnyOption :=
  match o with
  | MC o => MC {| mc_percent := mc_percent o; mc_text := mc_text o; mc_htmlFlag := mc_htmlFlag o;
                  mc_feedback := Some v; mc_feedbackHtmlFlag := mc_feedbackHtmlFlag o |}
  | MS o => MS {| ms_weight := ms_weight o; ms_text := ms_text o; ms_htmlFlag := ms_htmlFlag o;
                  ms_feedback := Some v; ms_feedbackHtmlFlag := ms_feedbackHtmlFlag o |}
  end.

Definition withItemFeedback (v : string) (o : OrderingItem) : OrderingItem :=
  {| it_text := it_text o; it_htmlFlag := it_htmlFlag o; it_feedback := Some v;
     it_feedbackHtmlFlag := it_feedbackHtmlFlag o |}.

Definition withTFFeedback (v : string) (o : TFOption) : TFOption :=
  {| isTrue := isTrue o; credit := credit o; tf_feedback := Some v;
     tf_htmlFlag := tf_htmlFlag o; definedLine := definedLine o |}.

Definition withChoiceText (v : string) (p : MatchingPair) : MatchingPair :=
  {| choiceNo := choiceNo p; choiceText := v; matchText := matchText p |}.

Definition withMatchText (v : string) (p : MatchingPair) : MatchingPair :=
  {| choiceNo := choiceNo p; choiceText := choiceText p; matchText := v |}.

(** ** Diagnostics *)

Inductive Level := Warn | Log | Error.

(** One constructor per message text of the source; the arguments are the
    values interpolated into the template literal. *)
Inductive Message :=
  | SkippingIncomplete (titleOrNA : string)
  | UnknownQuestionType (questionTypeCode : string)
  | RowForOtherType (key : string) (questionType : option string)
  | InvalidChoiceNumber (value : string) (questionTitle : option string)
  | InvalidMatchNumber (value : string) (questionTitle : option string)
  | MatchWithoutChoice (questionTitle : option string) (number : Z)
  | UnrecognizedKey (typeOrKey : string)
  | ErrorProcessing (rawRecord : string)
  | SkippingLast (titleOrNA : string) (skipReason : string).

(** [recordNo] is the [[Record n]] prefix, absent in the last message. *)
Record Diagnostic := { level : Level; recordNo : option nat; message : Message }.

Definition warn (n : nat) (m : Message) : Diagnostic :=
  {| level := Warn; recordNo := Some n; message := m |}.

(** ** The question assembler, [parseQuizCsv] *)

(** [currentQuestion.type === code] *)
Definition typeIs (q : PartialQuestion) (code : string) : bool :=
  match type q with
  | Some t => t =? code
  | None => false
  end.

(** Truthiness of an optional string property: defined and not empty. *)
Definition truthy (v : option string) : bool :=
  match v with
  | Some s => negb (s =? "")
  | None => false
  end.

(** [v || undefined] *)
Definition orUndefined (v : string) : option string :=
  if v =? "" then None else Some v.

(** [arr?.length > 0] *)
Definition hasElements {A} (arr : option (list A)) : bool :=
  match arr with
  | Some l => (0 <? length l)%nat
  | None => false
  end.

(** [arr[arr.length - 1].feedback = value]: a [TypeError] ([None]) when
    the array is empty, since [arr[-1]] is [undefined]. *)
Definition assignLast {A} (f : A -> A) (arr : list A) : option (list A) :=
  match arr !! (length arr - 1)%nat with
  | Some x => Some (<[(length arr - 1)%nat := f x]> arr)
  | None => None
  end.

(** [value.toLowerCase() === 'html'] *)
Definition isHtml (v : string) : bool := toLowerCase v =? "html".

Definition knownTypes : list string := ["WR"; "SA"; "M"; "MC"; "TF"; "MS"; "O"].

(** [knownTypes.includes(code)] *)
Definition isKnownType (code : string) : bool := existsb (String.eqb code) knownTypes.

(** The first conjunction of both finalization checks:
    [type && title && questionText && points !== undefined]. *)
Definition requiredPresent (q : PartialQuestion) : bool :=
  truthy (type q) && truthy (title q) && truthy (questionText q) && bool_decide (is_Some (points q)).

(** [currentQuestion.title || 'N/A'] *)
Definition titleOrNA (q : PartialQuestion) : string :=
  if truthy (title q) then default "" (title q) else "N/A".

(** What the body of the [try] block does with the question being built:
    it runs to its end, leaving the question [q] and the messages [out], or
    an exception leaves it. *)
Inductive Outcome :=
  | Completed (q : PartialQuestion) (out : list Diagnostic)
  | Threw.

(** The condition under which the [feedback] case writes to [falseOption]. *)
Definition falseOptionTakesFeedback (q : PartialQuestion) : bool :=
  match falseOption q with
  | Some f =>
      match trueOption q with
      | None => true
      | Some t => (0 <? definedLine f)%nat && (0 <? definedLine t)%nat
                  && (definedLine t <? definedLine f)%nat
      end
  | None => false
  end.

(** [case 'feedback'] *)
Definition onFeedback (value : string) (q : PartialQuestion) : Outcome :=
  if typeIs q "MC" && hasElements (options q) then
    match options q with
    | Some os =>
        match assignLast (withOptionFeedback value) os with
        | Some os' => Completed (set_options (Some os') q) []
        | None => Threw
        end
    | None => Completed q []
    end
  else if typeIs q "MS" && hasElements (options q) then
    match options q with
    | Some os =>
        match assignLast (withOptionFeedback value) os with
        | Some os' => Completed (set_options (Some os') q) []
        | None => Threw
        end
    | None => Completed q []
    end
  else if typeIs q "TF" then
    if falseOptionTakesFeedback q then
      Completed (set_falseOption (withTFFeedback value <$> falseOption q) q) []
    else
      match trueOption q with
      | Some t => Completed (set_trueOption (Some (withTFFeedback value t)) q) []
      | None => Completed (set_feedback (Some value) q) []
      end
  else if typeIs q "O" && hasElements (items q) then
    match items q with
    | Some its =>
        match assignLast (withItemFeedback value) its with
        | Some its' => Completed (set_items (Some its') q) []
        | None => Threw
        end
    | None => Completed q []
    end
  else Completed (set_feedback (Some value) q) [].

(** [if (!mq.pairs) mq.pairs = [];] *)
Definition ensurePairs (q : PartialQuestion) : PartialQuestion :=
  match pairs q with
  | Some _ => q
  | None => set_pairs (Some []) q
  end.

(** [mq.pairs.find(p => p.choiceNo === number)], with the index of the pair
    found, through which the pair is then updated in place. *)
Definition findPair (number : Z) (ps : list MatchingPair) : option (nat * MatchingPair) :=
  list_find (fun p => choiceNo p = number) ps.

(** [case 'choice'] *)
Definition onChoice (n : nat) (value value2 : string) (q : PartialQuestion) : Outcome :=
  if typeIs q "M" then
    let mq := ensurePairs q in
    let ps := default [] (pairs mq) in
    let number := safeParseInt value 0 in
    if (number <=? 0)%Z then
      Completed mq [warn n (InvalidChoiceNumber value (title mq))]
    else
      match findPair number ps with
      | Some (i, found) => Completed (set_pairs (Some (<[i := withChoiceText value2 found]> ps)) mq) []
      | None =>
          Completed (set_pairs (Some (ps ++ [{| choiceNo := number; choiceText := value2;
                                                 matchText := "" |}])%list) mq) []
      end
  else Completed q [warn n (RowForOtherType "Choice" (type q))].

(** The template literal [`[Choice ${choiceNo} Placeholder]`]. *)
Definition placeholderChoice (number : Z) : string :=
  "[Choice " ++ numberToString number ++ " Placeholder]".

(** [case 'match'] *)
Definition onMatch (n : nat) (value value2 : string) (q : PartialQuestion) : Outcome :=
  if typeIs q "M" then
    let mq := ensurePairs q in
    let ps := default [] (pairs mq) in
    let number := safeParseInt value 0 in
    if (number <=? 0)%Z then
      Completed mq [warn n (InvalidMatchNumber value (title mq))]
    else
      match findPair number ps with
      | Some (i, found) => Completed (set_pairs (Some (<[i := withMatchText value2 found]> ps)) mq) []
      | None =>
          Completed (set_pairs (Some (ps ++ [{| choiceNo := number;
                                                 choiceText := placeholderChoice number;
                                                 matchText := value2 |}])%list) mq)
                    [warn n (MatchWithoutChoice (title mq) number)]
      end
  else Completed q [warn n (RowForOtherType "Match" (type q))].

(** [case 'option'] *)
Definition onOption (n : nat) (value value2 value3 value4 value5 : string)
    (q : PartialQuestion) : Outcome :=
  if typeIs q "MC" then
    Completed (set_options (Some (default [] (options q) ++
      [MC {| mc_percent := safeParseInt value 0; mc_text := value2; mc_htmlFlag := isHtml value3;
             mc_feedback := orUndefined value4; mc_feedbackHtmlFlag := isHtml value5 |}])%list) q) []
  else if typeIs q "MS" then
    Completed (set_options (Some (default [] (options q) ++
      [MS {| ms_weight := safeParseInt value 0; ms_text := value2; ms_htmlFlag := isHtml value3;
             ms_feedback := orUndefined value4; ms_feedbackHtmlFlag := isHtml value5 |}])%list) q) []
  else Completed q [warn n (RowForOtherType "Option" (type q))].

(** The object literals of [case 'true'] and [case 'false']. *)
Definition tfOption (b : bool) (n : nat) (value value2 value3 : string) : TFOption :=
  {| isTrue := b; credit := safeParseInt value 0; tf_feedback := orUndefined value2;
     tf_htmlFlag := isHtml value3; definedLine := n |}.

(** [case 'item'] *)
Definition onItem (n : nat) (value value2 value3 value5 : string) (q : PartialQuestion) : Outcome :=
  if typeIs q "O" then
    Completed (set_items (Some (default [] (items q) ++
      [{| it_text := value; it_htmlFlag := isHtml value2; it_feedback := orUndefined value3;
          it_feedbackHtmlFlag := isHtml value5 |}])%list) q) []
  else Completed q [warn n (RowForOtherType "Item" (type q))].

(** The [switch (typeOrKey)] inside the [try] block, for the record number
    [n] and the tokenized [row]. *)
Definition processRow (n : nat) (row : list string) (q : PartialQuestion) : Outcome :=
  let typeOrKey := toLowerCase (getValue row 0 "") in
  let value := getValue row 1 "" in
  let value2 := getValue row 2 "" in
  let value3 := getValue row 3 "" in
  let value4 := getValue row 4 "" in
  let value5 := getValue row 5 "" in
  if typeOrKey =? "id" then Completed (set_qid (Some value) q) []
  else if typeOrKey =? "title" then Completed (set_title (Some value) q) []
  else if typeOrKey =? "questiontext" then Completed (set_questionText (Some value) q) []
  else if typeOrKey =? "points" then Completed (set_points (Some (safeParseInt value 1)) q) []
  else if typeOrKey =? "difficulty" then Completed (set_difficulty (Some (safeParseInt value 0)) q) []
  else if typeOrKey =? "image" then Completed (set_image (Some value) q) []
  else if typeOrKey =? "hint" then Completed (set_hint (Some value) q) []
  else if typeOrKey =? "feedback" then onFeedback value q
  else if typeOrKey =? "initialtext" then Completed (set_initialText (Some value) q) []
  else if typeOrKey =? "answerkey" then Completed (set_answerKey (Some value) q) []
  else if typeOrKey =? "inputbox" then
    Completed (set_inputBox (Some {| rows := safeParseInt value 1; cols := safeParseInt value2 40 |}) q) []
  else if typeOrKey =? "answer" then
    if typeIs q "SA" then
      let flag := toLowerCase value3 in
      Completed (set_evaluation
                   (Some (if flag =? "regexp" then "regexp"
                          else if flag =? "sensitive" then "sensitive" else "insensitive"))
                   (set_bestAnswer (Some value2) q)) []
    else Completed q [warn n (RowForOtherType "Answer" (type q))]
  else if typeOrKey =? "scoring" then
    if typeIs q "M" || typeIs q "MS" || typeIs q "O"
    then Completed (set_scoring (Some value) q) []
    else Completed q [warn n (RowForOtherType "Scoring" (type q))]
  else if typeOrKey =? "choice" then onChoice n value value2 q
  else if typeOrKey =? "match" then onMatch n value value2 q
  else if typeOrKey =? "option" then onOption n value value2 value3 value4 value5 q
  else if typeOrKey =? "true" then
    if typeIs q "TF"
    then Completed (set_trueOption (Some (tfOption true n value value2 value3)) q) []
    else Completed q [warn n (RowForOtherType "True" (type q))]
  else if typeOrKey =? "false" then
    if typeIs q "TF"
    then Completed (set_falseOption (Some (tfOption false n value value2 value3)) q) []
    else Completed q [warn n (RowForOtherType "False" (type q))]
  else if typeOrKey =? "item" then onItem n value value2 value3 value5 q
  else if negb (typeOrKey =? "") && negb (trim typeOrKey =? "")
  then Completed q [{| level := Log; recordNo := Some n; message := UnrecognizedKey typeOrKey |}]
  else Completed q [].

(** The variables of [parseQuizCsv] that live across iterations, and the
    console; [collected] is the array [questions] of the source. *)
Record ParserState := {
  collected : list PartialQuestion;
  currentQuestion : option PartialQuestion;
  currentLineNumber : nat;
  console : list Diagnostic
}.

Definition initialState : ParserState :=
  {| collected := []; currentQuestion := None; currentLineNumber := 0; console := [] |}.

(** The block [if (currentQuestion) { ... }] of the [newquestion] branch, at
    record number [n]: the array of questions and the messages it leaves. *)
Definition closeCurrent (n : nat) (st : ParserState) : list PartialQuestion * list Diagnostic :=
  match currentQuestion st with
  | Some q =>
      if requiredPresent q then ((collected st ++ [q])%list, [])
      else (collected st, [warn n (SkippingIncomplete (titleOrNA q))])
  | None => (collected st, [])
  end.

(** One iteration of the [for] loop, after [splitCsvRow]. *)
Definition stepRow (st : ParserState) (rawRecord : string) (row : list string) : ParserState :=
  let n := S (currentLineNumber st) in
  let typeOrKey := toLowerCase (getValue row 0 "") in
  let value := getValue row 1 "" in
  if typeOrKey =? "newquestion" then
    let '(qs, out) := closeCurrent n st in
    if negb (isKnownType value) then
      {| collected := qs; currentQuestion := None; currentLineNumber := n;
         console := (console st ++ out ++ [warn n (UnknownQuestionType value)])%list |}
    else
      {| collected := qs; currentQuestion := Some (newQuestion value); currentLineNumber := n;
         console := (console st ++ out)%list |}
  else
    match currentQuestion st with
    | None =>
        {| collected := collected st; currentQuestion := None; currentLineNumber := n;
           console := console st |}
    | Some q =>
        match processRow n row q with
        | Completed q' out =>
            {| collected := collected st; currentQuestion := Some q'; currentLineNumber := n;
               console := (console st ++ out)%list |}
        | Threw =>
            {| collected := collected st; currentQuestion := Some q; currentLineNumber := n;
               console := (console st ++
                 [{| level := Error; recordNo := Some n; message := ErrorProcessing rawRecord |}])%list |}
        end
    end.

(** One iteration of the [for] loop. *)
Definition step (st : ParserState) (rawRecord : string) : ParserState :=
  stepRow st rawRecord (splitCsvRow rawRecord).

(** The callback [p => !p.choiceText || !p.matchText] of the last check. *)
Definition incompletePair (p : MatchingPair) : bool :=
  (choiceText p =? "") || (matchText p =? "").

(** The chain of checks after the loop; [None] when the question is valid,
    otherwise the [skipReason]. *)
Definition lastQuestionSkipReason (q : PartialQuestion) : option string :=
  if negb (requiredPresent q) then
    Some "Missing required fields (type, title, text, or points)."
  else if typeIs q "M" &&
          match pairs q with
          | Some ps => (length ps =? 0)%nat
                       || existsb incompletePair ps
          | None => true
          end then
    Some "Matching question has no pairs, or some pairs are incomplete."
  else if typeIs q "MC" && negb (hasElements (options q)) then
    Some "MultipleChoice question has no options."
  else if typeIs q "TF" &&
          (negb (bool_decide (is_Some (trueOption q))) || negb (bool_decide (is_Some (falseOption q)))) then
    Some "TrueFalse question lacks true or false options definition."
  else if typeIs q "MS" && negb (hasElements (options q)) then
    Some "MultiSelect question has no options."
  else if typeIs q "O" && negb (hasElements (items q)) then
    Some "Ordering question has no items."
  else if typeIs q "SA" && negb (bool_decide (is_Some (bestAnswer q))) then
    Some "ShortAnswer question lacks a defined best answer."
  else None.

(** The block after the loop. *)
Definition finish (st : ParserState) : ParserState :=
  match currentQuestion st with
  | Some q =>
      match lastQuestionSkipReason q with
      | None =>
          {| collected := (collected st ++ [q])%list; currentQuestion := currentQuestion st;
             currentLineNumber := currentLineNumber st; console := console st |}
      | Some skipReason =>
          {| collected := collected st; currentQuestion := currentQuestion st;
             currentLineNumber := currentLineNumber st;
             console := (console st ++
               [{| level := Warn; recordNo := None;
                   message := SkippingLast (titleOrNA q) skipReason |}])%list |}
      end
  | None => st
  end.

(** The loop over the records. *)
Definition runRecords (records : list string) (st : ParserState) : ParserState :=
  fold_left step records st.

(** The state in which [parseQuizCsv] returns. *)
Definition parseQuizCsv_run (csvContent : string) : ParserState :=
  finish (runRecords (splitCsvToRecords csvContent) initialState).

Definition parseQuizCsv (csvContent : string) : Quiz :=
  {| questions := collected (parseQuizCsv_run csvContent) |}.

(** ** Reference notions for the record splitter *)

(** [csvContent.split('\n')], with the line being read in [current]. *)
Fixpoint splitLines_from (rest current : string) : list string :=
  match rest with
  | EmptyString => [current]
  | String c r =>
      if Ascii.eqb c LF then current :: splitLines_from r ""
      else splitLines_from r (current ++ String c "")
  end.

Definition splitLines (csvContent : string) : list string :=
  splitLines_from csvContent "".

(** The splitting of the superseded parser:
    [csvContent.split('\n').map(row => row.trim()).filter(row => row.length > 0)]. *)
Definition plainSplit (csvContent : string) : list string :=
  List.filter (fun row => (0 <? String.length row)%nat) (map trim (splitLines csvContent)).

(** The quote state of the specification after reading [s] from the state
    [inQuotes]: every double quote toggles it, except that two double quotes
    in a row inside quoted text are an escaped quote and leave it alone. *)
Fixpoint quoteOpenAfter (inQuotes : bool) (s : string) : bool :=
  match s with
  | EmptyString => inQuotes
  | String c r =>
      if Ascii.eqb c DQUOTE then
        if inQuotes then
          match r with
          | String c2 r' =>
              if Ascii.eqb c2 DQUOTE then quoteOpenAfter true r' else quoteOpenAfter false r
          | EmptyString => quoteOpenAfter false r
          end
        else quoteOpenAfter true r
      else quoteOpenAfter inQuotes r
  end.

(** Whether some line feed of [s] lies inside a quoted span, for the same
    reading of the quotes. *)
Fixpoint lineFeedInQuotes (inQuotes : bool) (s : string) : bool :=
  match s with
  | EmptyString => false
  | String c r =>
      if Ascii.eqb c DQUOTE then
        if inQuotes then
          match r with
          | String c2 r' =>
              if Ascii.eqb c2 DQUOTE then lineFeedInQuotes true r' else lineFeedInQuotes false r
          | EmptyString => lineFeedInQuotes false r
          end
        else lineFeedInQuotes true r
      else if Ascii.eqb c LF then inQuotes || lineFeedInQuotes inQuotes r
      else lineFeedInQuotes inQuotes r
  end.



(** The splitter's loop with the text of the open record carried along
    instead of its start index, and every double quote toggling the state. *)
Fixpoint scanRecords (rest current : string) (inQuotes : bool) : list string :=
  match rest with
  | EmptyString => if current =? "" then [] else [current]
  | String c r =>
      if Ascii.eqb c DQUOTE then scanRecords r (current ++ String c "") (negb inQuotes)
      else if Ascii.eqb c LF && negb inQuotes then current :: scanRecords r "" inQuotes
      else scanRecords r (current ++ String c "") inQuotes
  end.

(** ** Reference notions for the assembler *)

(** The first cell of a record, lowercased: the key the loop dispatches on. *)
Definition keyOf (rawRecord : string) : string :=
  toLowerCase (getValue (splitCsvRow rawRecord) 0 "").

(** The second cell of a record: the type code of a [NewQuestion] record. *)
Definition typeCodeOf (rawRecord : string) : string :=
  getValue (splitCsvRow rawRecord) 1 "".

(** The run of the assembler over records already split. *)
Definition parseRecords (records : list string) : ParserState :=
  finish (runRecords records initialState).

(** An element that a [feedback] record can annotate: an option of a
    multiple-choice or multi-select question, an item of an ordering question,
    the true or the false option of a true/false question. *)
Definition eligibleElement (q : PartialQuestion) : Prop :=
  ((type q = Some "MC" \/ type q = Some "MS") /\ exists os, options q = Some os /\ os <> [])
  \/ (type q = Some "O" /\ exists its, items q = Some its /\ its <> [])
  \/ (type q = Some "TF" /\ (is_Some (trueOption q) \/ is_Some (falseOption q))).

(** [o] was defined at a later record than [other], if [other] is defined. *)
Definition definedAfter (o : TFOption) (other : option TFOption) : Prop :=
  match other with
  | Some o' => (definedLine o' < definedLine o)%nat
  | None => True
  end.

(** The names of the properties of a question, and the value read under a
    name: [q[name]]. *)
Inductive PropertyName :=
  | p_type | p_id | p_title | p_questionText | p_points | p_difficulty | p_image | p_hint
  | p_feedback | p_initialText | p_answerKey | p_inputBox | p_bestAnswer | p_evaluation
  | p_scoring | p_pairs | p_options | p_trueOption | p_falseOption | p_items.

Inductive PropertyValue :=
  | TextValue (v : option string)
  | NumberValue (v : option Z)
  | InputBoxValue (v : option InputBox)
  | PairsValue (v : option (list MatchingPair))
  | OptionsValue (v : option (list AnyOption))
  | TrueFalseValue (v : option TFOption)
  | ItemsValue (v : option (list OrderingItem)).

Definition readProperty (name : PropertyName) (q : PartialQuestion) : PropertyValue :=
  match name with
  | p_type => TextValue (type q)
  | p_id => TextValue (qid q)
  | p_title => TextValue (title q)
  | p_questionText => TextValue (questionText q)
  | p_points => NumberValue (points q)
  | p_difficulty => NumberValue (difficulty q)
  | p_image => TextValue (image q)
  | p_hint => TextValue (hint q)
  | p_feedback => TextValue (feedback q)
  | p_initialText => TextValue (initialText q)
  | p_answerKey => TextValue (answerKey q)
  | p_inputBox => InputBoxValue (inputBox q)
  | p_bestAnswer => TextValue (bestAnswer q)
  | p_evaluation => TextValue (evaluation q)
  | p_scoring => TextValue (scoring q)
  | p_pairs => PairsValue (pairs q)
  | p_options => OptionsValue (options q)
  | p_trueOption => TrueFalseValue (trueOption q)
  | p_falseOption => TrueFalseValue (falseOption q)
  | p_items => ItemsValue (items q)
  end.

(** [q'] has the value of [q] under every name outside [names]. *)
Definition sameExcept (names : list PropertyName) (q q' : PartialQuestion) : Prop :=
  forall name, ~ In name names -> readProperty name q' = readProperty name q.

(** The feedback of an option, read. *)
Definition optionFeedback (o : AnyOption) : option string :=
  match o with
  | MC o => mc_feedback o
  | MS o => ms_feedback o
  end.

(** [b] is an element of the kind of [a] with the values of [a] under every
    name but [feedback]. *)
Definition sameOptionButFeedback (a b : AnyOption) : Prop :=
  match a, b with
  | MC a, MC b =>
      mc_percent b = mc_percent a /\ mc_text b = mc_text a /\ mc_htmlFlag b = mc_htmlFlag a
      /\ mc_feedbackHtmlFlag b = mc_feedbackHtmlFlag a
  | MS a, MS b =>
      ms_weight b = ms_weight a /\ ms_text b = ms_text a /\ ms_htmlFlag b = ms_htmlFlag a
      /\ ms_feedbackHtmlFlag b = ms_feedbackHtmlFlag a
  | _, _ => False
  end.

Definition sameItemButFeedback (a b : OrderingItem) : Prop :=
  it_text b = it_text a /\ it_htmlFlag b = it_htmlFlag a
  /\ it_feedbackHtmlFlag b = it_feedbackHtmlFlag a.

Definition sameTFButFeedback (a b : TFOption) : Prop :=
  isTrue b = isTrue a /\ credit b = credit a /\ tf_htmlFlag b = tf_htmlFlag a
  /\ definedLine b = definedLine a.

(** [AttachesToElement v q q']: read property by property, [q'] is [q] with
    the feedback [v] on the last option, on the last item, or on the
    true/false option defined last; that element keeps its other values, the
    elements before it and every other property of the question are those
    of [q]. *)
Inductive AttachesToElement (v : string) (q q' : PartialQuestion) : Prop :=
  | attach_last_option init o o' :
      type q = Some "MC" \/ type q = Some "MS" ->
      options q = Some (init ++ [o])%list ->
      options q' = Some (init ++ [o'])%list ->
      optionFeedback o' = Some v ->
      sameOptionButFeedback o o' ->
      sameExcept [p_options] q q' ->
      AttachesToElement v q q'
  | attach_last_item init o o' :
      type q = Some "O" ->
      items q = Some (init ++ [o])%list ->
      items q' = Some (init ++ [o'])%list ->
      it_feedback o' = Some v ->
      sameItemButFeedback o o' ->
      sameExcept [p_items] q q' ->
      AttachesToElement v q q'
  | attach_true_option t t' :
      type q = Some "TF" ->
      trueOption q = Some t ->
      definedAfter t (falseOption q) ->
      trueOption q' = Some t' ->
      tf_feedback t' = Some v ->
      sameTFButFeedback t t' ->
      sameExcept [p_trueOption] q q' ->
      AttachesToElement v q q'
  | attach_false_option f f' :
      type q = Some "TF" ->
      falseOption q = Some f ->
      definedAfter f (trueOption q) ->
      falseOption q' = Some f' ->
      tf_feedback f' = Some v ->
      sameTFButFeedback f f' ->
      sameExcept [p_falseOption] q q' ->
      AttachesToElement v q q'.

(** [SetsGeneralFeedback v q q']: read property by property, [q'] is [q]
    with the general feedback [v]. *)
Definition SetsGeneralFeedback (v : string) (q q' : PartialQuestion) : Prop :=
  feedback q' = Some v /\ sameExcept [p_feedback] q q'.

(** The record indices kept in the true/false options, moved up by [k]. *)
Definition shiftTF (k : nat) (o : TFOption) : TFOption :=
  {| isTrue := isTrue o; credit := credit o; tf_feedback := tf_feedback o;
     tf_htmlFlag := tf_htmlFlag o; definedLine := (definedLine o + k)%nat |}.

Definition shiftLines (k : nat) (q : PartialQuestion) : PartialQuestion :=
  set_falseOption (shiftTF k <$> falseOption q) (set_trueOption (shiftTF k <$> trueOption q) q).

(** The same shift on the record number of a message and on what the body
    of the [try] block leaves. *)
Definition shiftDiagnostic (k : nat) (d : Diagnostic) : Diagnostic :=
  {| level := level d; recordNo := (fun n => (n + k)%nat) <$> recordNo d; message := message d |}.

Definition shiftOutcome (k : nat) (o : Outcome) : Outcome :=
  match o with
  | Completed q out => Completed (shiftLines k q) (map (shiftDiagnostic k) out)
  | Threw => Threw
  end.

(** The invariant of the question being built at record number [n]: its type
    is a known code, and its true/false options carry the numbers of two
    different records between 1 and [n]. *)
Definition linesWithin (n : nat) (o : option TFOption) : Prop :=
  match o with
  | Some x => (1 <= definedLine x <= n)%nat
  | None => True
  end.

Definition linesDiffer (a b : option TFOption) : Prop :=
  match a, b with
  | Some x, Some y => definedLine x <> definedLine y
  | _, _ => True
  end.

Record building (n : nat) (q : PartialQuestion) : Prop := {
  building_type : exists t, type q = Some t /\ isKnownType t = true;
  building_true : linesWithin n (trueOption q);
  building_false : linesWithin n (falseOption q);
  building_differ : linesDiffer (trueOption q) (falseOption q)
}.

(** What holds of every question appended to the quiz. *)
Definition included (q : PartialQuestion) : Prop :=
  requiredPresent q = true /\ exists t, type q = Some t /\ isKnownType t = true.

(** The invariant of the loop of [parseQuizCsv]. *)
Record wellFormed (st : ParserState) : Prop := {
  wf_collected : Forall included (collected st);
  wf_current : forall q, currentQuestion st = Some q -> building (currentLineNumber st) q;
  wf_console : Forall (fun d => level d <> Error) (console st)
}.

(** Two states of the loop that differ by a shift of [k] records, on the
    questions appended after the [common] ones. *)
Record shifted (k : nat) (common : list PartialQuestion) (a b : ParserState) : Prop := {
  shifted_collected : exists later,
      collected b = (common ++ later)%list
      /\ collected a = (common ++ map (shiftLines k) later)%list;
  shifted_current : currentQuestion a = shiftLines k <$> currentQuestion b;
  shifted_line : currentLineNumber a = (currentLineNumber b + k)%nat
}.

(** ** Sample inputs and questions *)




Definition samplePlain : string :=
  lines ["NewQuestion,MC"; ""; "  Title , x "; "Option,100," ++ quoted "a, b"]%string.

Definition sampleNoOptions : string :=
  lines ["NewQuestion,MC"; "Title,T"; "QuestionText,Q"].

Definition sampleNoOptionsThenNext : string :=
  lines ["NewQuestion,MC"; "Title,T"; "QuestionText,Q";
         "NewQuestion,WR"; "Title,T2"; "QuestionText,Q2"].

Definition sampleUnbalanced : string :=
  lines ["NewQuestion,WR"; ("Title," ++ String DQUOTE "never closed")%string; "QuestionText,Q"].

Definition sampleEmptyTitle : string :=
  lines ["NewQuestion,WR"; "Title,"; "QuestionText,Q"; "NewQuestion,WR"; "Title,T"; "QuestionText,"].

Definition sampleTwoTitles : string :=
  lines ["NewQuestion,WR"; "Title,First"; "QuestionText,Q1"; "NewQuestion,SA"; "Title,Second";
         "QuestionText,Q2"; "Answer,1,yes"].

Definition sampleCapitals : list string :=
  ["NewQuestion,MC"; "Title,Capitals"; "QuestionText,Capital of France?";
   "Option,100,Paris"; "Option,0,Berlin"].

Definition sampleMatchOnly : PartialQuestion :=
  set_questionText (Some "Match the capitals") (set_title (Some "Capitals") (newQuestion "M")).

Definition capitalsRows : list string :=
  ["Choice,1,Ottawa"; "Match,1,Canada"; "Choice,2,Canberra"; "Match,2,Australia"].

Definition capitalsPairs : list MatchingPair :=
  [{| choiceNo := 1; choiceText := "Ottawa"; matchText := "Canada" |};
   {| choiceNo := 2; choiceText := "Canberra"; matchText := "Australia" |}].

Definition sampleMatching : string :=
  lines (["NewQuestion,M"; "Title,Capitals"; "QuestionText,Match the capitals"] ++ capitalsRows)%list.

Definition samplePeru : PartialQuestion :=
  set_pairs (Some [{| choiceNo := 1; choiceText := "Lima"; matchText := "Peru" |}])
    (newQuestion "M").

Definition sampleItemRow : list string := ["Item"; "First step"; "HTML"; "Good"; "html"; "Html"].

Definition sampleOptionRow : list string := ["Option"; "100"; "Paris"; "html"; "Right"; "HTML"].

(** An ordering question written as records. *)
Definition sampleOrdering : string :=
  lines ["NewQuestion,O"; "Title,Steps"; "QuestionText,Order the steps";
         "Item,First step,HTML,Good,html,Html"; "Item,Second step,,,html"].

Definition sampleAfterBlock : list string :=
  ["NewQuestion,TF"; "Title,T"; "QuestionText,Q"; "True,100"; "False,0"].

Definition sampleWithBlock : string :=
  lines (["NewQuestion,ZZ"; "Title,left out"] ++ sampleAfterBlock)%list.

Definition sampleWithoutBlock : string := lines sampleAfterBlock.

(** ** Reference notions for further properties *)

(** The number of occurrences of a character. *)
Fixpoint countChar (s : string) (c : ascii) : nat :=
  match s with
  | String c0 r => ((if Ascii.eqb c0 c then 1 else 0) + countChar r c)%nat
  | EmptyString => 0%nat
  end.









(** [row.split(',')], with the cell being read in [current]. *)
Fixpoint splitCommas_from (rest current : string) : list string :=
  match rest with
  | EmptyString => [current]
  | String c r =>
      if Ascii.eqb c COMMA then current :: splitCommas_from r ""
      else splitCommas_from r (current ++ String c "")
  end.

(** The text without its last character. *)
Fixpoint dropLast (s : string) : string :=
  match s with
  | String c EmptyString => EmptyString
  | String c r => String c (dropLast r)
  | EmptyString => EmptyString
  end.

(** The replacement of the superseded tokenizer, which deletes a double
    quote at the start of the cell and one at its end:
    [cell.replace(/^<dq>|<dq>$/g, '')]. *)
Definition stripEdgeQuotes (cell : string) : string :=
  let afterFirst := match cell with
                    | String c r => if Ascii.eqb c DQUOTE then r else cell
                    | EmptyString => cell
                    end in
  if endsWith afterFirst DQUOTE then dropLast afterFirst else afterFirst.

(** The tokenizer of the superseded parser:
    [row.split(',').map(cell => cell.trim().replace(/^<dq>|<dq>$/g, ''))]. *)
Definition oldSplitCells (row : string) : list string :=
  map (fun cell => stripEdgeQuotes (trim cell)) (splitCommas_from row "").

(** The text of a file with the given physical lines, each ended by the
    line ending [eol]. *)
Fixpoint fileOf (eol : string) (physicalLines : list string) : string :=
  match physicalLines with
  | [] => ""
  | x :: r => x ++ eol ++ fileOf eol r
  end.

Definition CR : ascii := "013"%char.

(** A [NewQuestion] record with one of the seven type codes. *)
Definition opensQuestion (rawRecord : string) : bool :=
  (keyOf rawRecord =? "newquestion") && isKnownType (typeCodeOf rawRecord).

(** The choice numbers of the pairs of a question are positive and differ. *)
Definition pairsKeyed (q : PartialQuestion) : Prop :=
  NoDup (map choiceNo (default [] (pairs q)))
  /\ Forall (fun p => (0 < choiceNo p)%Z) (default [] (pairs q)).

Definition isMC (o : AnyOption) : bool := match o with MC _ => true | MS _ => false end.
Definition isMS (o : AnyOption) : bool := match o with MC _ => false | MS _ => true end.

(** The eight properties that the assembler writes under a test of the type
    are absent from the questions of the other types, and the options of a
    question are of its own kind.  [initialText], [answerKey] and [inputBox]
    are written without such a test and are not listed. *)
Record variantFields (q : PartialQuestion) : Prop := {
  vf_pairs : pairs q <> None -> type q = Some "M";
  vf_options : forall os, options q = Some os ->
      (type q = Some "MC" /\ forallb isMC os = true)
      \/ (type q = Some "MS" /\ forallb isMS os = true);
  vf_true : trueOption q <> None -> type q = Some "TF";
  vf_false : falseOption q <> None -> type q = Some "TF";
  vf_items : items q <> None -> type q = Some "O";
  vf_bestAnswer : bestAnswer q <> None -> type q = Some "SA";
  vf_evaluation : evaluation q <> None -> type q = Some "SA";
  vf_scoring : scoring q <> None ->
      type q = Some "M" \/ type q = Some "MS" \/ type q = Some "O"
}.

(** The keys that belong to some question types, with the name written in
    the warning and the types that accept them. *)
Definition typedKeys : list (string * (string * list string)) :=
  [("answer", ("Answer", ["SA"]));
   ("scoring", ("Scoring", ["M"; "MS"; "O"]));
   ("choice", ("Choice", ["M"]));
   ("match", ("Match", ["M"]));
   ("option", ("Option", ["MC"; "MS"]));
   ("true", ("True", ["TF"]));
   ("false", ("False", ["TF"]));
   ("item", ("Item", ["O"]))].

(** What the last check asks of a question, type by type. *)
Definition complete (q : PartialQuestion) : Prop :=
  requiredPresent q = true
  /\ (type q = Some "M" ->
      exists ps, pairs q = Some ps /\ ps <> []
                 /\ Forall (fun p => choiceText p <> "" /\ matchText p <> "") ps)
  /\ (type q = Some "MC" \/ type q = Some "MS" -> exists os, options q = Some os /\ os <> [])
  /\ (type q = Some "TF" -> is_Some (trueOption q) /\ is_Some (falseOption q))
  /\ (type q = Some "O" -> exists its, items q = Some its /\ its <> [])
  /\ (type q = Some "SA" -> is_Some (bestAnswer q)).

(** A property of questions, indexed by the record number, holds of the
    questions appended so far and of the question being built. *)
Definition holdsThroughout (P : nat -> PartialQuestion -> Prop) (st : ParserState) : Prop :=
  Forall (P (currentLineNumber st)) (collected st)
  /\ forall q, currentQuestion st = Some q -> P (currentLineNumber st) q.


(** The evaluation mode of a question is one of the three modes, and goes
    with a best answer. *)
Definition evaluated (q : PartialQuestion) : Prop :=
  (forall e, evaluation q = Some e -> In e ["regexp"; "sensitive"; "insensitive"])
  /\ (is_Some (bestAnswer q) <-> is_Some (evaluation q)).

(** The question being built counts for one. *)
Definition pending (st : ParserState) : nat :=
  match currentQuestion st with Some _ => 1%nat | None => 0%nat end.

(** A multiple-choice question with the records of the written-response and
    short-answer variants that are read without a test of the type. *)
Definition sampleUnguarded : string :=
  lines ["NewQuestion,MC"; "Title,T"; "QuestionText,Q"; "InitialText,start here";
         "AnswerKey,the key"; "InputBox,3"; "Option,100,Paris"].

Definition sampleTrueFalse : string :=
  lines ["NewQuestion,TF"; "Title,T"; "QuestionText,Q"; "True,100"; "False,0"; "True,50"].

(** * Properties *)

(** ** Strings *)

Lemma append_empty_r (s : string) : s ++ "" = s.
Proof. induction s as [|c s IH]; simpl; [reflexivity | now rewrite IH]. Qed.

Lemma append_assoc (s t u : string) : (s ++ t) ++ u = s ++ t ++ u.
Proof. induction s as [|c s IH]; simpl; [reflexivity | now rewrite IH]. Qed.

Lemma length_append (s t : string) :
  String.length (s ++ t) = (String.length s + String.length t)%nat.
Proof. induction s as [|c s IH]; simpl; [reflexivity | now rewrite IH]. Qed.

Lemma length_zero_empty (s : string) : String.length s = 0%nat -> s = "".
Proof. destruct s; [reflexivity | discriminate]. Qed.

Lemma append_eq_empty (s t : string) : s ++ t = "" -> s = "" /\ t = "".
Proof. destruct s; simpl; [auto | discriminate]. Qed.

Lemma substring_middle (p cur rest : string) :
  String.substring (String.length p) (String.length cur) (p ++ cur ++ rest) = cur.
Proof.
  induction p as [|c p IH]; simpl; [|exact IH].
  induction cur as [|c cur IH]; simpl.
  - destruct rest; reflexivity.
  - now rewrite IH.
Qed.

Lemma js_substring_middle (p cur rest : string) :
  Js.substring (p ++ cur ++ rest) (String.length p) (String.length p + String.length cur) = cur.
Proof.
  unfold Js.substring. rewrite !length_append.
  set (a := String.length p). set (b := String.length cur). set (c := String.length rest).
  replace (Nat.min (Nat.min a (a + (b + c))) (Nat.min (a + b) (a + (b + c)))) with a by lia.
  replace (Nat.max (Nat.min a (a + (b + c))) (Nat.min (a + b) (a + (b + c))) - a)%nat with b by lia.
  apply substring_middle.
Qed.

Lemma js_substringFrom_suffix (p cur : string) :
  substringFrom (p ++ cur) (String.length p) = cur.
Proof.
  unfold substringFrom.
  pose proof (js_substring_middle p cur "") as H.
  rewrite append_empty_r in H. rewrite length_append. exact H.
Qed.

Lemma trimStart_shape (s : string) :
  trimStart s = "" \/ exists c r, trimStart s = String c r /\ isWhite c = false.
Proof.
  induction s as [|c s IH]; simpl; [now left|].
  destruct (isWhite c) eqn:E; [exact IH|]. right. now exists c, s.
Qed.

Lemma trim_shape (s : string) :
  trim s = "" \/ exists c r, trim s = String c r /\ isWhite c = false.
Proof.
  unfold trim. destruct (trimStart_shape s) as [-> | (c & r & -> & Hc)]; [now left|].
  right. simpl. rewrite Hc. simpl. now exists c, (trimEnd r).
Qed.

(** After trimming, the test of the new filter is the test of the old one. *)
Lemma keepRecord_trim (s : string) :
  keepRecord (trim s) = (0 <? String.length (trim s))%nat.
Proof.
  unfold keepRecord. destruct (trim_shape s) as [-> | (c & r & -> & Hc)]; [reflexivity|].
  simpl. now rewrite Hc.
Qed.

(** ** The record splitter *)

Lemma quoteOpenAfter_cons (inQuotes : bool) (c : ascii) (r : string) :
  quoteOpenAfter inQuotes (String c r)
  = quoteOpenAfter (if Ascii.eqb c DQUOTE then negb inQuotes else inQuotes) r.
Proof.
  simpl. destruct (Ascii.eqb c DQUOTE); [|reflexivity].
  destruct inQuotes; [|reflexivity].
  destruct r as [|c2 r']; [reflexivity|].
  simpl. destruct (Ascii.eqb c2 DQUOTE); reflexivity.
Qed.

Lemma lineFeedInQuotes_cons (inQuotes : bool) (c : ascii) (r : string) :
  lineFeedInQuotes inQuotes (String c r)
  = (Ascii.eqb c LF && inQuotes)
    || lineFeedInQuotes (if Ascii.eqb c DQUOTE then negb inQuotes else inQuotes) r.
Proof.
  simpl. destruct (Ascii.eqb c DQUOTE) eqn:Eq.
  - apply Ascii.eqb_eq in Eq. subst c. simpl.
    destruct inQuotes; [|reflexivity].
    destruct r as [|c2 r']; [reflexivity|].
    simpl. destruct (Ascii.eqb c2 DQUOTE); reflexivity.
  - destruct (Ascii.eqb c LF); reflexivity.
Qed.

Lemma splitCsvToRecords_loop_end (p current : string) (inQuotes : bool) (records : list string) :
  splitCsvToRecords_loop (p ++ current) "" (String.length p + String.length current)
    (String.length p) inQuotes records
  = (records ++ scanRecords "" current inQuotes)%list.
Proof.
  simpl. rewrite length_append.
  destruct current as [|c cur]; simpl.
  - replace (String.length p <? String.length p + 0)%nat with false
      by (symmetry; apply Nat.ltb_ge; lia).
    now rewrite app_nil_r.
  - replace (String.length p <? String.length p + S (String.length cur))%nat with true
      by (symmetry; apply Nat.ltb_lt; lia).
    now rewrite js_substringFrom_suffix.
Qed.

Local Ltac loop_side :=
  repeat rewrite append_assoc; repeat rewrite length_append; simpl;
  try reflexivity; try lia.

(** The loop of the source computes [scanRecords]. *)
Lemma splitCsvToRecords_loop_scan :
  forall n rest, (String.length rest <= n)%nat ->
  forall csvString p current i start inQuotes records,
    csvString = p ++ current ++ rest ->
    start = String.length p ->
    i = (String.length p + String.length current)%nat ->
    splitCsvToRecords_loop csvString rest i start inQuotes records
    = (records ++ scanRecords rest current inQuotes)%list.
Proof.
  induction n as [|n IH]; intros rest Hn s p cur i start inQ records Hs Hstart Hi.
  - assert (rest = "") by (apply length_zero_empty; lia). subst.
    rewrite append_empty_r. apply splitCsvToRecords_loop_end.
  - destruct rest as [|c rest1].
    { subst. rewrite append_empty_r. apply splitCsvToRecords_loop_end. }
    simpl in Hn. simpl.
    destruct (Ascii.eqb c DQUOTE) eqn:Ec.
    + destruct rest1 as [|c2 rest2].
      * apply (IH "" ltac:(simpl; lia) s p); subst; loop_side.
      * destruct (Ascii.eqb c2 DQUOTE) eqn:Ec2.
        -- simpl in Hn. simpl. rewrite Ec2, negb_involutive.
           apply (IH rest2 ltac:(lia) s p); subst; loop_side.
        -- apply (IH (String c2 rest2) ltac:(lia) s p); subst; loop_side.
    + destruct (Ascii.eqb c LF && negb inQ) eqn:Elf.
      * rewrite (IH rest1 ltac:(lia) s (p ++ cur ++ String c "") "" (i + 1)%nat (i + 1)%nat inQ);
          [| subst; loop_side ..].
        subst. rewrite js_substring_middle. now rewrite <- app_assoc.
      * apply (IH rest1 ltac:(lia) s p); subst; loop_side.
Qed.

Lemma rawRecords_scan (csvString : string) :
  rawRecords csvString = scanRecords csvString "" false.
Proof.
  unfold rawRecords.
  now rewrite (splitCsvToRecords_loop_scan (String.length csvString) csvString (le_n _)
                 csvString "" "" 0%nat 0%nat false []).
Qed.

(** Without a line feed in quotes the scan cuts where [split] cuts. *)
Lemma scanRecords_plain (s : string) :
  forall current inQuotes,
    lineFeedInQuotes inQuotes s = false ->
    List.filter keepRecord (map trim (scanRecords s current inQuotes))
    = List.filter (fun row => (0 <? String.length row)%nat) (map trim (splitLines_from s current)).
Proof.
  induction s as [|c s IH]; intros cur inQ H.
  - simpl. destruct (cur =? "") eqn:E.
    + apply String.eqb_eq in E. subst. reflexivity.
    + simpl. now rewrite keepRecord_trim.
  - rewrite lineFeedInQuotes_cons in H. apply orb_false_iff in H as [Hlf H].
    simpl. destruct (Ascii.eqb c DQUOTE) eqn:Ec.
    + apply Ascii.eqb_eq in Ec. subst c. simpl. now apply IH.
    + destruct (Ascii.eqb c LF) eqn:El.
      * simpl in Hlf. subst inQ. simpl. rewrite keepRecord_trim.
        now rewrite (IH "" false H).
      * simpl. now apply IH.
Qed.













(** ** The assembler: dispatch on the key *)

Local Open Scope list_scope.

(** A write to one property leaves the values read under the other names. *)
Local Ltac same_except :=
  let name := fresh "name" in
  let Hname := fresh "Hname" in
  intros name Hname; destruct name; try reflexivity;
  exfalso; apply Hname; now left.

Section Dispatch.

Variables (n : nat) (row : list string) (q : PartialQuestion).

Lemma processRow_feedback :
  toLowerCase (getValue row 0 "") = "feedback" ->
  processRow n row q = onFeedback (getValue row 1 "") q.
Proof. intros H. unfold processRow. rewrite H. reflexivity. Qed.

Lemma processRow_choice :
  toLowerCase (getValue row 0 "") = "choice" ->
  processRow n row q = onChoice n (getValue row 1 "") (getValue row 2 "") q.
Proof. intros H. unfold processRow. rewrite H. reflexivity. Qed.

Lemma processRow_match :
  toLowerCase (getValue row 0 "") = "match" ->
  processRow n row q = onMatch n (getValue row 1 "") (getValue row 2 "") q.
Proof. intros H. unfold processRow. rewrite H. reflexivity. Qed.

Lemma processRow_option :
  toLowerCase (getValue row 0 "") = "option" ->
  processRow n row q
  = onOption n (getValue row 1 "") (getValue row 2 "") (getValue row 3 "")
      (getValue row 4 "") (getValue row 5 "") q.
Proof. intros H. unfold processRow. rewrite H. reflexivity. Qed.

Lemma processRow_item :
  toLowerCase (getValue row 0 "") = "item" ->
  processRow n row q
  = onItem n (getValue row 1 "") (getValue row 2 "") (getValue row 3 "") (getValue row 5 "") q.
Proof. intros H. unfold processRow. rewrite H. reflexivity. Qed.

End Dispatch.

Lemma typeIs_true (q : PartialQuestion) (code : string) :
  typeIs q code = true <-> type q = Some code.
Proof.
  unfold typeIs. destruct (type q) as [t|]; [|split; discriminate].
  rewrite String.eqb_eq. split; congruence.
Qed.

Lemma typeIs_code (q : PartialQuestion) (t code : string) :
  type q = Some t -> typeIs q code = (t =? code).
Proof. intros H. unfold typeIs. now rewrite H. Qed.

(** ** Arrays *)

Lemma assignLast_snoc {A} (f : A -> A) (init : list A) (x : A) :
  assignLast f (init ++ [x]) = Some (init ++ [f x]).
Proof.
  unfold assignLast. rewrite length_app. simpl.
  replace (length init + 1 - 1)%nat with (length init + 0)%nat by lia.
  rewrite lookup_app_r by lia. replace (length init + 0 - length init)%nat with 0%nat by lia.
  simpl. f_equal. rewrite insert_app_r. reflexivity.
Qed.

Lemma nonempty_snoc {A} (l : list A) : l <> [] -> exists init x, l = init ++ [x].
Proof.
  intros H. destruct (exists_last H) as (init & x & ->). now exists init, x.
Qed.

Lemma hasElements_true {A} (arr : option (list A)) :
  hasElements arr = true <-> exists l, arr = Some l /\ l <> [].
Proof.
  unfold hasElements. destruct arr as [l|].
  - rewrite Nat.ltb_lt. split.
    + intros H. exists l. split; [reflexivity|]. intros ->. simpl in H. lia.
    + intros (l' & [= <-] & Hne). destruct l; [contradiction | simpl; lia].
  - split; [discriminate | intros (l & [=] & _)].
Qed.

Lemma findPair_middle (number : Z) (l1 l2 : list MatchingPair) (p : MatchingPair) :
  Forall (fun x => choiceNo x <> number) l1 ->
  choiceNo p = number ->
  findPair number (l1 ++ p :: l2) = Some (length l1, p).
Proof.
  intros Hl1 Hp. unfold findPair. induction Hl1 as [|x l1 Hx _ IH]; simpl.
  - now rewrite decide_True.
  - rewrite decide_False by exact Hx. now rewrite IH.
Qed.

Lemma findPair_none (number : Z) (l : list MatchingPair) :
  Forall (fun x => choiceNo x <> number) l -> findPair number l = None.
Proof.
  intros H. unfold findPair. induction H as [|x l Hx _ IH]; simpl; [reflexivity|].
  rewrite decide_False by exact Hx. now rewrite IH.
Qed.

Lemma insert_middle {A} (l1 l2 : list A) (x y : A) :
  <[length l1 := y]> (l1 ++ x :: l2) = l1 ++ y :: l2.
Proof. induction l1 as [|a l1 IH]; simpl; [reflexivity | now rewrite IH]. Qed.

(** ** The assembler: no exception, and the invariant of the loop *)

Lemma assignLast_hasElements {A} (f : A -> A) (l : list A) :
  hasElements (Some l) = true -> exists l', assignLast f l = Some l'.
Proof.
  intros H. apply hasElements_true in H as (l0 & [= <-] & Hne).
  destruct (nonempty_snoc l Hne) as (init & x & ->).
  rewrite assignLast_snoc. eauto.
Qed.

Lemma linesWithin_mono (n0 n : nat) (o : option TFOption) :
  (n0 <= n)%nat -> linesWithin n0 o -> linesWithin n o.
Proof. destruct o; simpl; [lia | auto]. Qed.

(** A question that keeps its type and the record indices of its true/false
    options keeps the invariant. *)
Lemma building_same (n0 n : nat) (q q' : PartialQuestion) :
  (n0 <= n)%nat ->
  type q' = type q ->
  definedLine <$> trueOption q' = definedLine <$> trueOption q ->
  definedLine <$> falseOption q' = definedLine <$> falseOption q ->
  building n0 q -> building n q'.
Proof.
  intros Hn Ht Htrue Hfalse [H1 H2 H3 H4].
  constructor.
  - now rewrite Ht.
  - apply (linesWithin_mono n0); [exact Hn|].
    destruct (trueOption q') as [a|], (trueOption q) as [b|]; simpl in *;
      try discriminate; [congruence | exact I].
  - apply (linesWithin_mono n0); [exact Hn|].
    destruct (falseOption q') as [a|], (falseOption q) as [b|]; simpl in *;
      try discriminate; [congruence | exact I].
  - destruct (trueOption q') as [a|], (trueOption q) as [b|],
             (falseOption q') as [c|], (falseOption q) as [d|];
      simpl in *; try discriminate; try exact I; congruence.
Qed.

Lemma onFeedback_building (n0 n : nat) (v : string) (q : PartialQuestion) :
  (n0 <= n)%nat -> building n0 q ->
  exists q', onFeedback v q = Completed q' [] /\ building n q'.
Proof.
  intros Hn Hb. unfold onFeedback.
  destruct (typeIs q "MC" && hasElements (options q)) eqn:E1.
  { apply andb_true_iff in E1 as [_ E1].
    destruct (options q) as [os|] eqn:Eo; [|discriminate].
    destruct (assignLast_hasElements (withOptionFeedback v) os E1) as (os' & ->).
    eexists. split; [reflexivity|]. now apply (building_same n0 n q). }
  destruct (typeIs q "MS" && hasElements (options q)) eqn:E2.
  { apply andb_true_iff in E2 as [_ E2].
    destruct (options q) as [os|] eqn:Eo; [|discriminate].
    destruct (assignLast_hasElements (withOptionFeedback v) os E2) as (os' & ->).
    eexists. split; [reflexivity|]. now apply (building_same n0 n q). }
  destruct (typeIs q "TF") eqn:E3.
  { destruct (falseOptionTakesFeedback q) eqn:Ef.
    - eexists. split; [reflexivity|]. apply (building_same n0 n q); auto.
      simpl. now destruct (falseOption q).
    - destruct (trueOption q) as [t|] eqn:Et.
      + eexists. split; [reflexivity|]. apply (building_same n0 n q); auto.
        simpl. now rewrite Et.
      + eexists. split; [reflexivity|]. now apply (building_same n0 n q). }
  destruct (typeIs q "O" && hasElements (items q)) eqn:E4.
  { apply andb_true_iff in E4 as [_ E4].
    destruct (items q) as [its|] eqn:Ei; [|discriminate].
    destruct (assignLast_hasElements (withItemFeedback v) its E4) as (its' & ->).
    eexists. split; [reflexivity|]. now apply (building_same n0 n q). }
  eexists. split; [reflexivity|]. now apply (building_same n0 n q).
Qed.

Lemma ensurePairs_fields (q : PartialQuestion) :
  type (ensurePairs q) = type q
  /\ trueOption (ensurePairs q) = trueOption q
  /\ falseOption (ensurePairs q) = falseOption q.
Proof. unfold ensurePairs. now destruct (pairs q). Qed.

Local Ltac no_error :=
  repeat constructor; simpl; discriminate.

Lemma onChoice_building (n0 n : nat) (v v2 : string) (q : PartialQuestion) :
  (n0 <= n)%nat -> building n0 q ->
  exists q' out, onChoice n v v2 q = Completed q' out /\ building n q'
                 /\ Forall (fun d => level d <> Error) out.
Proof.
  intros Hn Hb. destruct (ensurePairs_fields q) as (Ht & Htr & Hfa).
  unfold onChoice. destruct (typeIs q "M"); [|eexists _, _; split; [reflexivity|]; split;
    [now apply (building_same n0 n q) | no_error]].
  cbv zeta. destruct (safeParseInt v 0 <=? 0)%Z.
  { eexists _, _; split; [reflexivity|]. split; [|no_error].
    apply (building_same n0 n q); auto; congruence. }
  destruct (findPair _ _) as [[i found]|];
    (eexists _, _; split; [reflexivity|]; split; [|constructor]);
    apply (building_same n0 n q); simpl; auto; congruence.
Qed.

Lemma onMatch_building (n0 n : nat) (v v2 : string) (q : PartialQuestion) :
  (n0 <= n)%nat -> building n0 q ->
  exists q' out, onMatch n v v2 q = Completed q' out /\ building n q'
                 /\ Forall (fun d => level d <> Error) out.
Proof.
  intros Hn Hb. destruct (ensurePairs_fields q) as (Ht & Htr & Hfa).
  unfold onMatch. destruct (typeIs q "M"); [|eexists _, _; split; [reflexivity|]; split;
    [now apply (building_same n0 n q) | no_error]].
  cbv zeta. destruct (safeParseInt v 0 <=? 0)%Z.
  { eexists _, _; split; [reflexivity|]. split; [|no_error].
    apply (building_same n0 n q); auto; congruence. }
  destruct (findPair _ _) as [[i found]|];
    (eexists _, _; split; [reflexivity|]; split; [|try constructor; try no_error]);
    apply (building_same n0 n q); simpl; auto; congruence.
Qed.

(** The body of the [try] block runs to its end, without an error message,
    and keeps the invariant of the question being built. *)
Lemma processRow_building (n0 : nat) (row : list string) (q : PartialQuestion) :
  building n0 q ->
  exists q' out, processRow (S n0) row q = Completed q' out /\ building (S n0) q'
                 /\ Forall (fun d => level d <> Error) out.
Proof.
  intros Hb. assert (Hn : (n0 <= S n0)%nat) by lia.
  assert (Hsame : forall q', type q' = type q ->
            definedLine <$> trueOption q' = definedLine <$> trueOption q ->
            definedLine <$> falseOption q' = definedLine <$> falseOption q ->
            building (S n0) q') by (intros; now apply (building_same n0 (S n0) q)).
  unfold processRow. cbv zeta.
  repeat match goal with
  | |- context [if toLowerCase (getValue row 0 "") =? ?k then _ else _] =>
      destruct (toLowerCase (getValue row 0 "") =? k) eqn:?
  end;
  try (eexists _, _; split; [reflexivity|]; split; [now apply Hsame | constructor]).
  - destruct (onFeedback_building n0 (S n0) (getValue row 1 "") q Hn Hb) as (q' & -> & Hq').
    eexists _, _; split; [reflexivity|]. split; [exact Hq' | constructor].
  - destruct (typeIs q "SA");
      eexists _, _; (split; [reflexivity|]); (split; [now apply Hsame | try constructor; try no_error]).
  - destruct (typeIs q "M" || typeIs q "MS" || typeIs q "O");
      eexists _, _; (split; [reflexivity|]); (split; [now apply Hsame | try constructor; try no_error]).
  - apply (onChoice_building n0); assumption.
  - apply (onMatch_building n0); assumption.
  - unfold onOption. destruct (typeIs q "MC"); [|destruct (typeIs q "MS")];
      eexists _, _; (split; [reflexivity|]); (split; [now apply Hsame | try constructor; try no_error]).
  - destruct (typeIs q "TF") eqn:Et.
    + eexists _, _; split; [reflexivity|]. split; [|constructor].
      destruct Hb as [H1 H2 H3 H4]. constructor; simpl.
      * exact H1.
      * lia.
      * now apply (linesWithin_mono n0).
      * destruct (falseOption q) as [f|]; simpl in *; [lia | exact I].
    + eexists _, _; split; [reflexivity|]. split; [now apply Hsame | no_error].
  - destruct (typeIs q "TF") eqn:Et.
    + eexists _, _; split; [reflexivity|]. split; [|constructor].
      destruct Hb as [H1 H2 H3 H4]. constructor; simpl.
      * exact H1.
      * now apply (linesWithin_mono n0).
      * lia.
      * destruct (trueOption q) as [t|]; simpl in *; [lia | exact I].
    + eexists _, _; split; [reflexivity|]. split; [now apply Hsame | no_error].
  - unfold onItem. destruct (typeIs q "O");
      eexists _, _; (split; [reflexivity|]); (split; [now apply Hsame | try constructor; try no_error]).
  - destruct (negb _ && negb _);
      eexists _, _; (split; [reflexivity|]); (split; [now apply Hsame | try constructor; try no_error]).
Qed.

Lemma building_newQuestion (n : nat) (code : string) :
  isKnownType code = true -> building n (newQuestion code).
Proof.
  intros H. constructor; simpl; auto. now exists code.
Qed.

Lemma stepRow_wellFormed (st : ParserState) (rawRecord : string) (row : list string) :
  wellFormed st -> wellFormed (stepRow st rawRecord row).
Proof.
  intros [Hc Hq Hl]. unfold stepRow. cbv zeta.
  destruct (toLowerCase (getValue row 0 "") =? "newquestion").
  - assert (Hpush : forall qs out,
        (qs, out) = closeCurrent (S (currentLineNumber st)) st ->
        Forall included qs /\ Forall (fun d => level d <> Error) out).
    { intros qs out E. unfold closeCurrent in E. destruct (currentQuestion st) as [q|] eqn:Eq.
      - destruct (requiredPresent q) eqn:Er; injection E as -> ->.
        + split; [|constructor]. apply Forall_app. split; [exact Hc|].
          constructor; [|constructor]. split; [exact Er|].
          exact (building_type _ _ (Hq q eq_refl)).
        + split; [exact Hc|]. repeat constructor. simpl. discriminate.
      - injection E as -> ->. split; [exact Hc | constructor]. }
    destruct (closeCurrent _ st) as [qs out].
    destruct (Hpush qs out eq_refl) as [Hqs Hout].
    destruct (isKnownType (getValue row 1 "")) eqn:Ek; simpl.
    + constructor; simpl.
      * exact Hqs.
      * intros q [= <-]. now apply building_newQuestion.
      * apply Forall_app. now split.
    + constructor; simpl.
      * exact Hqs.
      * discriminate.
      * apply Forall_app. split; [exact Hl|]. apply Forall_app. split; [exact Hout|].
        repeat constructor. simpl. discriminate.
  - destruct (currentQuestion st) as [q|] eqn:Eq.
    + destruct (processRow_building (currentLineNumber st) row q (Hq q eq_refl))
        as (q' & out & -> & Hq' & Hout).
      constructor; simpl.
      * exact Hc.
      * now intros ? [= <-].
      * apply Forall_app. now split.
    + constructor; simpl; [exact Hc | discriminate | exact Hl].
Qed.

Lemma runRecords_wellFormed (records : list string) :
  forall st, wellFormed st -> wellFormed (runRecords records st).
Proof.
  induction records as [|r records IH]; intros st H; [exact H|].
  simpl. apply IH. now apply stepRow_wellFormed.
Qed.

Lemma initialState_wellFormed : wellFormed initialState.
Proof. constructor; simpl; [constructor | discriminate | constructor]. Qed.

Lemma lastQuestionSkipReason_required (q : PartialQuestion) :
  lastQuestionSkipReason q = None -> requiredPresent q = true.
Proof.
  unfold lastQuestionSkipReason. destruct (requiredPresent q); [reflexivity | discriminate].
Qed.

Lemma finish_wellFormed (st : ParserState) : wellFormed st -> wellFormed (finish st).
Proof.
  intros [Hc Hq Hl]. unfold finish.
  destruct (currentQuestion st) as [q|] eqn:Eq;
    [|constructor; [exact Hc | rewrite Eq; exact Hq | exact Hl]].
  destruct (lastQuestionSkipReason q) eqn:Er; constructor; simpl.
  - exact Hc.
  - exact Hq.
  - apply Forall_app. split; [exact Hl|]. repeat constructor. simpl. discriminate.
  - apply Forall_app. split; [exact Hc|]. constructor; [|constructor].
    split; [now apply lastQuestionSkipReason_required|].
    exact (building_type _ _ (Hq q eq_refl)).
  - exact Hq.
  - exact Hl.
Qed.

Lemma parseRecords_wellFormed (records : list string) : wellFormed (parseRecords records).
Proof.
  apply finish_wellFormed, runRecords_wellFormed, initialState_wellFormed.
Qed.

(** ** The assembler: records outside a question *)

Lemma step_idle (st : ParserState) (rawRecord : string) :
  currentQuestion st = None ->
  keyOf rawRecord <> "newquestion" ->
  step st rawRecord
  = {| collected := collected st; currentQuestion := None;
       currentLineNumber := S (currentLineNumber st); console := console st |}.
Proof.
  intros Hq Hk. unfold step, stepRow. cbv zeta. fold (keyOf rawRecord).
  apply String.eqb_neq in Hk. rewrite Hk, Hq. reflexivity.
Qed.

Lemma runRecords_idle (records : list string) :
  forall st,
    currentQuestion st = None ->
    Forall (fun r => keyOf r <> "newquestion") records ->
    runRecords records st
    = {| collected := collected st; currentQuestion := None;
         currentLineNumber := (currentLineNumber st + length records)%nat;
         console := console st |}.
Proof.
  induction records as [|r records IH]; intros st Hq Hk.
  - simpl. destruct st; simpl in *. subst. f_equal. lia.
  - inversion Hk as [|? ? Hr Hrest]; subst. simpl.
    rewrite (step_idle st r Hq Hr). rewrite IH; simpl; auto. f_equal. lia.
Qed.

Lemma runRecords_app (r1 r2 : list string) (st : ParserState) :
  runRecords (r1 ++ r2) st = runRecords r2 (runRecords r1 st).
Proof. unfold runRecords. apply fold_left_app. Qed.

(** ** The assembler: the same records at later record numbers

    Reading the same records [k] record numbers later changes nothing but
    the record indices kept in the true/false options and in the messages. *)

Section Shift.

Variable k : nat.

Lemma typeIs_shift (q : PartialQuestion) (code : string) :
  typeIs (shiftLines k q) code = typeIs q code.
Proof. reflexivity. Qed.

Lemma requiredPresent_shift (q : PartialQuestion) :
  requiredPresent (shiftLines k q) = requiredPresent q.
Proof. reflexivity. Qed.

Lemma falseOptionTakesFeedback_shift (n : nat) (q : PartialQuestion) :
  building n q ->
  falseOptionTakesFeedback (shiftLines k q) = falseOptionTakesFeedback q.
Proof.
  intros [_ Ht Hf _]. unfold falseOptionTakesFeedback. simpl.
  destruct (falseOption q) as [f|]; [|reflexivity].
  destruct (trueOption q) as [t|]; [|reflexivity].
  simpl in *.
  replace (0 <? definedLine f + k)%nat with true by (symmetry; apply Nat.ltb_lt; lia).
  replace (0 <? definedLine t + k)%nat with true by (symmetry; apply Nat.ltb_lt; lia).
  replace (0 <? definedLine f)%nat with true by (symmetry; apply Nat.ltb_lt; lia).
  replace (0 <? definedLine t)%nat with true by (symmetry; apply Nat.ltb_lt; lia).
  simpl. destruct (definedLine t <? definedLine f)%nat eqn:E.
  - apply Nat.ltb_lt in E. apply Nat.ltb_lt. lia.
  - apply Nat.ltb_ge in E. apply Nat.ltb_ge. lia.
Qed.

Lemma onFeedback_shift (n : nat) (v : string) (q : PartialQuestion) :
  building n q ->
  onFeedback v (shiftLines k q) = shiftOutcome k (onFeedback v q).
Proof.
  intros Hb. unfold onFeedback.
  rewrite !typeIs_shift, (falseOptionTakesFeedback_shift n q Hb).
  change (options (shiftLines k q)) with (options q).
  change (items (shiftLines k q)) with (items q).
  destruct (typeIs q "MC" && hasElements (options q)).
  { destruct (options q) as [os|]; [|reflexivity].
    destruct (assignLast _ os); reflexivity. }
  destruct (typeIs q "MS" && hasElements (options q)).
  { destruct (options q) as [os|]; [|reflexivity].
    destruct (assignLast _ os); reflexivity. }
  destruct (typeIs q "TF").
  { destruct (falseOptionTakesFeedback q).
    - simpl. destruct (falseOption q); reflexivity.
    - simpl. destruct (trueOption q); reflexivity. }
  destruct (typeIs q "O" && hasElements (items q)); [|reflexivity].
  destruct (items q) as [its|]; [|reflexivity].
  destruct (assignLast _ its); reflexivity.
Qed.

Lemma ensurePairs_shift (q : PartialQuestion) :
  ensurePairs (shiftLines k q) = shiftLines k (ensurePairs q).
Proof. unfold ensurePairs. simpl. destruct (pairs q); reflexivity. Qed.

Lemma onChoice_shift (n : nat) (v v2 : string) (q : PartialQuestion) :
  onChoice (n + k) v v2 (shiftLines k q) = shiftOutcome k (onChoice n v v2 q).
Proof.
  unfold onChoice. rewrite typeIs_shift, ensurePairs_shift.
  destruct (typeIs q "M"); [|reflexivity]. cbv zeta.
  change (pairs (shiftLines k (ensurePairs q))) with (pairs (ensurePairs q)).
  destruct (safeParseInt v 0 <=? 0)%Z; [reflexivity|].
  destruct (findPair _ _) as [[i found]|]; reflexivity.
Qed.

Lemma onMatch_shift (n : nat) (v v2 : string) (q : PartialQuestion) :
  onMatch (n + k) v v2 (shiftLines k q) = shiftOutcome k (onMatch n v v2 q).
Proof.
  unfold onMatch. rewrite typeIs_shift, ensurePairs_shift.
  destruct (typeIs q "M"); [|reflexivity]. cbv zeta.
  change (pairs (shiftLines k (ensurePairs q))) with (pairs (ensurePairs q)).
  destruct (safeParseInt v 0 <=? 0)%Z; [reflexivity|].
  destruct (findPair _ _) as [[i found]|]; reflexivity.
Qed.

Lemma processRow_shift (n0 n : nat) (row : list string) (q : PartialQuestion) :
  building n0 q ->
  processRow (n + k) row (shiftLines k q) = shiftOutcome k (processRow n row q).
Proof.
  intros Hb. unfold processRow. cbv zeta.
  repeat match goal with
  | |- context [if toLowerCase (getValue row 0 "") =? ?key then _ else _] =>
      destruct (toLowerCase (getValue row 0 "") =? key) eqn:?
  end;
  try reflexivity.
  - apply (onFeedback_shift n0). exact Hb.
  - rewrite typeIs_shift. destruct (typeIs q "SA"); reflexivity.
  - rewrite !typeIs_shift. destruct (typeIs q "M" || typeIs q "MS" || typeIs q "O"); reflexivity.
  - apply onChoice_shift.
  - apply onMatch_shift.
  - unfold onOption. rewrite !typeIs_shift.
    destruct (typeIs q "MC"); [reflexivity|]. destruct (typeIs q "MS"); reflexivity.
  - rewrite typeIs_shift. destruct (typeIs q "TF"); reflexivity.
  - rewrite typeIs_shift. destruct (typeIs q "TF"); reflexivity.
  - unfold onItem. rewrite typeIs_shift. destruct (typeIs q "O"); reflexivity.
  - destruct (negb _ && negb _); reflexivity.
Qed.

Lemma lastQuestionSkipReason_shift (q : PartialQuestion) :
  lastQuestionSkipReason (shiftLines k q) = lastQuestionSkipReason q.
Proof.
  unfold lastQuestionSkipReason.
  rewrite requiredPresent_shift, !typeIs_shift.
  change (pairs (shiftLines k q)) with (pairs q).
  change (options (shiftLines k q)) with (options q).
  change (items (shiftLines k q)) with (items q).
  change (bestAnswer (shiftLines k q)) with (bestAnswer q).
  change (trueOption (shiftLines k q)) with (shiftTF k <$> trueOption q).
  change (falseOption (shiftLines k q)) with (shiftTF k <$> falseOption q).
  destruct (trueOption q), (falseOption q); reflexivity.
Qed.

Lemma stepRow_shifted (common : list PartialQuestion) (a b : ParserState)
    (rawRecord : string) (row : list string) :
  wellFormed b -> shifted k common a b ->
  shifted k common (stepRow a rawRecord row) (stepRow b rawRecord row).
Proof.
  intros Hwf [(later & Hb & Ha) Hcur Hline]. unfold stepRow. cbv zeta.
  destruct (toLowerCase (getValue row 0 "") =? "newquestion").
  - assert (Hclose : exists later',
        fst (closeCurrent (S (currentLineNumber b)) b) = common ++ later'
        /\ fst (closeCurrent (S (currentLineNumber a)) a) = common ++ map (shiftLines k) later').
    { unfold closeCurrent. rewrite Hcur. destruct (currentQuestion b) as [q|]; simpl.
      - rewrite requiredPresent_shift. destruct (requiredPresent q); simpl.
        + exists (later ++ [q]). rewrite Ha, Hb, map_app, !app_assoc. now split.
        + exists later. now split.
      - exists later. now split. }
    destruct (closeCurrent _ a) as [qa outa], (closeCurrent _ b) as [qb outb].
    simpl in Hclose.
    destruct (isKnownType (getValue row 1 "")); simpl;
      (constructor; simpl; [exact Hclose | reflexivity | lia]).
  - rewrite Hcur. destruct (currentQuestion b) as [q|] eqn:Eq; simpl.
    + rewrite Hline.
      change (S (currentLineNumber b + k)) with (S (currentLineNumber b) + k)%nat.
      rewrite (processRow_shift (currentLineNumber b) _ row q (wf_current b Hwf q Eq)).
      destruct (processRow (S (currentLineNumber b)) row q) as [q' out|]; simpl;
        (constructor; simpl; [now exists later | reflexivity | lia]).
    + constructor; simpl; [now exists later | reflexivity | lia].
Qed.

Lemma runRecords_shifted (common : list PartialQuestion) (records : list string) :
  forall a b, wellFormed b -> shifted k common a b ->
              shifted k common (runRecords records a) (runRecords records b).
Proof.
  induction records as [|r records IH]; intros a b Hwf H; [exact H|].
  simpl. apply IH; [now apply stepRow_wellFormed | now apply stepRow_shifted].
Qed.

Lemma finish_shifted (common : list PartialQuestion) (a b : ParserState) :
  shifted k common a b -> shifted k common (finish a) (finish b).
Proof.
  intros [(later & Hb & Ha) Hcur Hline]. unfold finish. rewrite Hcur.
  destruct (currentQuestion b) as [q|] eqn:Eq; simpl.
  - rewrite lastQuestionSkipReason_shift.
    destruct (lastQuestionSkipReason q); constructor; simpl.
    + now exists later.
    + reflexivity.
    + exact Hline.
    + exists (later ++ [q]). rewrite Ha, Hb, map_app, !app_assoc. now split.
    + reflexivity.
    + exact Hline.
  - constructor; [now exists later | rewrite Eq; exact Hcur | exact Hline].
Qed.

End Shift.

(** ** The tokenizer on a quoted cell *)




Lemma stripCellQuotes_plain (t : string) :
  includesChar t DQUOTE = false -> stripCellQuotes t = t.
Proof.
  intros H. unfold stripCellQuotes. destruct t as [|c t]; [reflexivity|].
  simpl in *. apply orb_false_iff in H as [-> _]. reflexivity.
Qed.

(** ** Checks on sample inputs *)

Example feedback_goes_to_last_option :
  map (fun q => (feedback q, options q))
      (collected (parseRecords (sampleCapitals ++ [("Feedback," ++ quoted "Great job")%string])))
  = [(None,
      Some [MC {| mc_percent := 100; mc_text := "Paris"; mc_htmlFlag := false;
                  mc_feedback := None; mc_feedbackHtmlFlag := false |};
            MC {| mc_percent := 0; mc_text := "Berlin"; mc_htmlFlag := false;
                  mc_feedback := Some "Great job"; mc_feedbackHtmlFlag := false |}])].
Proof. vm_compute. reflexivity. Qed.

Example feedback_goes_to_later_true_false_option :
  map (fun q => (feedback q, tf_feedback <$> trueOption q, tf_feedback <$> falseOption q))
      (collected (parseRecords ["NewQuestion,TF"; "Title,T"; "QuestionText,Q"; "False,0";
                                "True,100"; "Feedback,well done"]))
  = [(None, Some (Some "well done"), Some None)].
Proof. vm_compute. reflexivity. Qed.

Example feedback_is_general_without_options :
  map (fun q => (feedback q, options q))
      (collected (parseRecords ["NewQuestion,MC"; "Title,T"; "QuestionText,Q";
                                "Feedback,early"; "Option,100,Paris"]))
  = [(Some "early",
      Some [MC {| mc_percent := 100; mc_text := "Paris"; mc_htmlFlag := false;
                  mc_feedback := None; mc_feedbackHtmlFlag := false |}])].
Proof. vm_compute. reflexivity. Qed.

Example feedback_goes_to_last_item :
  map (fun q => (feedback q, map it_feedback <$> items q))
      (collected (parseRecords ["NewQuestion,O"; "Title,T"; "QuestionText,Q"; "Item,first";
                                "Item,second"; "Feedback,last one"]))
  = [(None, Some [None; Some "last one"])].
Proof. vm_compute. reflexivity. Qed.

Example feedback_goes_to_last_multi_select_option :
  map (fun q => (feedback q, map optionFeedback <$> options q))
      (collected (parseRecords ["NewQuestion,MS"; "Title,T"; "QuestionText,Q"; "Option,1,a";
                                "Option,0,b"; "Feedback,not this one"]))
  = [(None, Some [None; Some "not this one"])].
Proof. vm_compute. reflexivity. Qed.

Example feedback_is_general_in_written_response :
  map feedback
      (collected (parseRecords ["NewQuestion,WR"; "Title,T"; "QuestionText,Q"; "Feedback,thanks"]))
  = [Some "thanks"].
Proof. vm_compute. reflexivity. Qed.

Example safeParseInt_samples :
  (safeParseInt " 12abc" 0, safeParseInt "-3" 0, safeParseInt "abc" 7, safeParseInt "  " 1)
  = (12, -3, 7, 1)%Z.
Proof. vm_compute. reflexivity. Qed.

Example splitCsvRow_escaped_quotes :
  splitCsvRow ("Option,100," ++ String DQUOTE ("say " ++ String DQUOTE (String DQUOTE
                 ("hi" ++ String DQUOTE (String DQUOTE (", ok" ++ String DQUOTE ""))))))%string
  = ["Option"; "100"; ("say " ++ String DQUOTE ("hi" ++ String DQUOTE ", ok"))%string].
Proof. vm_compute. reflexivity. Qed.

(** ** Claims about the record splitter and the tokenizer *)





(** C5. On every input in which no line feed lies inside a quoted span, the
    quote-aware record splitter returns the records of the plain split of the
    superseded parser: split on line feeds, trim every line, drop the empty
    ones. *)
Theorem splitCsvToRecords_plain (csvContent : string) :
  lineFeedInQuotes false csvContent = false ->
  splitCsvToRecords csvContent = plainSplit csvContent.
Proof.
  intros H. unfold splitCsvToRecords, plainSplit, splitLines.
  rewrite rawRecords_scan. now apply scanRecords_plain.
Qed.

Lemma splitCsvToRecords_plain_witness :
  splitCsvToRecords samplePlain = plainSplit samplePlain.
Proof.
  apply splitCsvToRecords_plain. vm_compute. reflexivity.
Defined.

(** ** Claims about the assembler *)

(** C1 (the code departs from the claim).  A multiple-choice question without
    any option is dropped when it is the last question of the input, and the
    same question is appended to the quiz when a [NewQuestion] record follows
    it: the check made in the loop looks at type, title, body and points
    only. *)
Theorem midstream_question_skips_type_checks :
  questions (parseQuizCsv sampleNoOptions) = []
  /\ exists q rest,
       questions (parseQuizCsv sampleNoOptionsThenNext) = q :: rest
       /\ type q = Some "MC" /\ options q = None
       /\ lastQuestionSkipReason q = Some "MultipleChoice question has no options.".
Proof.
  split; [vm_compute; reflexivity|].
  eexists _, _. split; [vm_compute; reflexivity|].
  repeat split.
Qed.

(** C9. [parseQuizCsv] returns a quiz on every input: no record makes the
    body of the [try] block throw, so the console never receives an error
    message; when no record is a [NewQuestion] record the quiz has no
    question; the empty input and an input with an unclosed quote are
    parsed to a quiz as well. *)
Theorem parseQuizCsv_never_fails (csvContent : string) :
  Forall (fun d => level d <> Error) (console (parseQuizCsv_run csvContent))
  /\ (Forall (fun r => keyOf r <> "newquestion") (splitCsvToRecords csvContent) ->
      parseQuizCsv csvContent = {| questions := [] |})
  /\ parseQuizCsv "" = {| questions := [] |}
  /\ parseQuizCsv sampleUnbalanced = {| questions := [] |}.
Proof.
  split; [|split; [|split]].
  - exact (wf_console _ (parseRecords_wellFormed (splitCsvToRecords csvContent))).
  - intros H. unfold parseQuizCsv, parseQuizCsv_run.
    rewrite (runRecords_idle _ initialState eq_refl H). reflexivity.
  - reflexivity.
  - vm_compute. reflexivity.
Qed.

Lemma parseQuizCsv_never_fails_witness :
  parseQuizCsv (lines ["Title,T"; "QuestionText,Q"; "Option,100,a"]) = {| questions := [] |}.
Proof.
  apply (proj1 (proj2 (parseQuizCsv_never_fails
                         (lines ["Title,T"; "QuestionText,Q"; "Option,100,a"])))).
  vm_compute. repeat constructor; discriminate.
Defined.

Lemma truthy_nonempty (v : option string) :
  truthy v = true -> exists s, v = Some s /\ s <> "".
Proof.
  destruct v as [s|]; [|discriminate]. simpl. intros H.
  exists s. split; [reflexivity|]. intros ->. discriminate.
Qed.

Lemma isKnownType_In (t : string) : isKnownType t = true -> In t knownTypes.
Proof.
  unfold isKnownType. rewrite existsb_exists. intros (x & Hx & E).
  apply String.eqb_eq in E. now subst.
Qed.

(** C10. Every question of the returned quiz has a title and a body that are
    not empty, a type among the seven known codes and defined points; a
    question whose title or body is the empty string fails the check of the
    required fields, wherever it stands in the input. *)
Theorem included_questions_have_required_fields (csvContent : string) (q : PartialQuestion) :
  In q (questions (parseQuizCsv csvContent)) ->
  (exists t, type q = Some t /\ In t knownTypes)
  /\ (exists s, title q = Some s /\ s <> "")
  /\ (exists s, questionText q = Some s /\ s <> "")
  /\ (exists p, points q = Some p)
  /\ (forall q0, title q0 = Some "" \/ questionText q0 = Some "" -> requiredPresent q0 = false)
  /\ questions (parseQuizCsv sampleEmptyTitle) = [].
Proof.
  intros Hin.
  pose proof (wf_collected _ (parseRecords_wellFormed (splitCsvToRecords csvContent))) as Hall.
  rewrite Forall_forall in Hall.
  destruct (Hall q Hin) as (Hreq & t & Ht & Hk).
  unfold requiredPresent in Hreq.
  apply andb_true_iff in Hreq as [Hreq Hp]. apply andb_true_iff in Hreq as [Hreq Hx].
  apply andb_true_iff in Hreq as [_ Hti].
  split; [exists t; split; [exact Ht | now apply isKnownType_In]|].
  split; [now apply truthy_nonempty|].
  split; [now apply truthy_nonempty|].
  split; [apply bool_decide_eq_true in Hp; destruct Hp as [p Hp]; now exists p|].
  split; [|vm_compute; reflexivity].
  intros q0 [H|H]; unfold requiredPresent; rewrite H; simpl.
  - now rewrite andb_false_r.
  - now rewrite andb_false_r.
Qed.

Lemma included_questions_have_required_fields_witness :
  exists q, In q (questions (parseQuizCsv sampleTwoTitles))
            /\ (exists s, title q = Some s /\ s <> "").
Proof.
  eexists. split.
  - vm_compute. right. left. reflexivity.
  - refine (proj1 (proj2 (included_questions_have_required_fields sampleTwoTitles _ _))).
    vm_compute. right. left. reflexivity.
Defined.

(** ** Matching pairs *)

Lemma set_pairs_ensurePairs (v : option (list MatchingPair)) (q : PartialQuestion) :
  set_pairs v (ensurePairs q) = set_pairs v q.
Proof. unfold ensurePairs. destruct (pairs q); reflexivity. Qed.

Lemma pairs_ensurePairs (q : PartialQuestion) :
  default [] (pairs (ensurePairs q)) = default [] (pairs q).
Proof. unfold ensurePairs. destruct (pairs q) eqn:E; simpl; [now rewrite E | reflexivity]. Qed.

Lemma title_ensurePairs (q : PartialQuestion) : title (ensurePairs q) = title q.
Proof. unfold ensurePairs. destruct (pairs q); reflexivity. Qed.

Section MatchingRows.

Variables (n : nat) (value value2 : string) (q : PartialQuestion).

Hypothesis Htype : type q = Some "M".
Hypothesis Hpositive : (0 < safeParseInt value 0)%Z.

Lemma onChoice_unseen :
  Forall (fun p => choiceNo p <> safeParseInt value 0) (default [] (pairs q)) ->
  onChoice n value value2 q
  = Completed (set_pairs (Some (default [] (pairs q) ++
        [{| choiceNo := safeParseInt value 0; choiceText := value2; matchText := "" |}])) q) [].
Proof.
  intros H. unfold onChoice. rewrite (typeIs_code q "M" "M" Htype). simpl.
  replace (safeParseInt value 0 <=? 0)%Z with false by (symmetry; apply Z.leb_gt; exact Hpositive).
  rewrite pairs_ensurePairs, (findPair_none _ _ H), set_pairs_ensurePairs. reflexivity.
Qed.

Lemma onChoice_seen (l1 l2 : list MatchingPair) (p : MatchingPair) :
  pairs q = Some (l1 ++ p :: l2) ->
  Forall (fun x => choiceNo x <> safeParseInt value 0) l1 ->
  choiceNo p = safeParseInt value 0 ->
  onChoice n value value2 q
  = Completed (set_pairs (Some (l1 ++ withChoiceText value2 p :: l2)) q) [].
Proof.
  intros Hp Hl1 Hn. unfold onChoice. rewrite (typeIs_code q "M" "M" Htype). simpl.
  replace (safeParseInt value 0 <=? 0)%Z with false by (symmetry; apply Z.leb_gt; exact Hpositive).
  rewrite pairs_ensurePairs, Hp. simpl.
  rewrite (findPair_middle _ _ _ _ Hl1 Hn), insert_middle, set_pairs_ensurePairs. reflexivity.
Qed.

Lemma onMatch_unseen :
  Forall (fun p => choiceNo p <> safeParseInt value 0) (default [] (pairs q)) ->
  onMatch n value value2 q
  = Completed (set_pairs (Some (default [] (pairs q) ++
        [{| choiceNo := safeParseInt value 0; choiceText := placeholderChoice (safeParseInt value 0);
            matchText := value2 |}])) q)
      [warn n (MatchWithoutChoice (title q) (safeParseInt value 0))].
Proof.
  intros H. unfold onMatch. rewrite (typeIs_code q "M" "M" Htype). simpl.
  replace (safeParseInt value 0 <=? 0)%Z with false by (symmetry; apply Z.leb_gt; exact Hpositive).
  rewrite pairs_ensurePairs, (findPair_none _ _ H), set_pairs_ensurePairs, title_ensurePairs.
  reflexivity.
Qed.

Lemma onMatch_seen (l1 l2 : list MatchingPair) (p : MatchingPair) :
  pairs q = Some (l1 ++ p :: l2) ->
  Forall (fun x => choiceNo x <> safeParseInt value 0) l1 ->
  choiceNo p = safeParseInt value 0 ->
  onMatch n value value2 q
  = Completed (set_pairs (Some (l1 ++ withMatchText value2 p :: l2)) q) [].
Proof.
  intros Hp Hl1 Hn. unfold onMatch. rewrite (typeIs_code q "M" "M" Htype). simpl.
  replace (safeParseInt value 0 <=? 0)%Z with false by (symmetry; apply Z.leb_gt; exact Hpositive).
  rewrite pairs_ensurePairs, Hp. simpl.
  rewrite (findPair_middle _ _ _ _ Hl1 Hn), insert_middle, set_pairs_ensurePairs. reflexivity.
Qed.

End MatchingRows.

(** ** Feedback records *)

Lemma withOptionFeedback_reads (v : string) (o : AnyOption) :
  optionFeedback (withOptionFeedback v o) = Some v
  /\ sameOptionButFeedback o (withOptionFeedback v o).
Proof. destruct o; simpl; repeat split. Qed.

Lemma onFeedback_cases (n : nat) (v : string) (q : PartialQuestion) :
  building n q ->
  exists q', onFeedback v q = Completed q' []
    /\ ((eligibleElement q /\ AttachesToElement v q q' /\ feedback q' = feedback q)
        \/ (~ eligibleElement q /\ SetsGeneralFeedback v q q')).
Proof.
  intros [_ Ht Hf Hd]. unfold onFeedback.
  destruct (typeIs q "MC" && hasElements (options q)) eqn:E1.
  { apply andb_true_iff in E1 as [Ety E1]. apply typeIs_true in Ety.
    pose proof E1 as E1'. apply hasElements_true in E1' as (os & Eo & Hne).
    destruct (nonempty_snoc os Hne) as (init & o & ->).
    rewrite Eo, assignLast_snoc. eexists. split; [reflexivity|]. left.
    split; [left; split; [now left | now exists (init ++ [o])]|].
    split; [|reflexivity].
    destruct (withOptionFeedback_reads v o) as [Hv Hsame].
    apply (attach_last_option v q _ init o (withOptionFeedback v o));
      [now left | exact Eo | reflexivity | exact Hv | exact Hsame | same_except]. }
  destruct (typeIs q "MS" && hasElements (options q)) eqn:E2.
  { apply andb_true_iff in E2 as [Ety E2]. apply typeIs_true in Ety.
    pose proof E2 as E2'. apply hasElements_true in E2' as (os & Eo & Hne).
    destruct (nonempty_snoc os Hne) as (init & o & ->).
    rewrite Eo, assignLast_snoc. eexists. split; [reflexivity|]. left.
    split; [left; split; [now right | now exists (init ++ [o])]|].
    split; [|reflexivity].
    destruct (withOptionFeedback_reads v o) as [Hv Hsame].
    apply (attach_last_option v q _ init o (withOptionFeedback v o));
      [now right | exact Eo | reflexivity | exact Hv | exact Hsame | same_except]. }
  destruct (typeIs q "TF") eqn:E3.
  { pose proof E3 as Ety. apply typeIs_true in Ety.
    unfold falseOptionTakesFeedback.
    destruct (falseOption q) as [f|] eqn:Ef, (trueOption q) as [t|] eqn:Et; simpl in *.
    - destruct ((0 <? definedLine f)%nat && (0 <? definedLine t)%nat
                && (definedLine t <? definedLine f)%nat) eqn:Ec.
      + apply andb_true_iff in Ec as [_ Ec]. apply Nat.ltb_lt in Ec.
        eexists. split; [reflexivity|]. left.
        split; [right; right; split; [exact Ety | right; now rewrite Ef]|].
        split; [|reflexivity].
        apply (attach_false_option v q _ f (withTFFeedback v f));
          [exact Ety | exact Ef | rewrite Et; exact Ec | reflexivity | reflexivity
          | repeat split | same_except].
      + assert (Hlt : (definedLine f < definedLine t)%nat).
        { destruct (0 <? definedLine f)%nat eqn:E0; [|apply Nat.ltb_ge in E0; lia].
          destruct (0 <? definedLine t)%nat eqn:E0'; [|apply Nat.ltb_ge in E0'; lia].
          simpl in Ec. apply Nat.ltb_ge in Ec. lia. }
        eexists. split; [reflexivity|]. left.
        split; [right; right; split; [exact Ety | left; now rewrite Et]|].
        split; [|reflexivity].
        apply (attach_true_option v q _ t (withTFFeedback v t));
          [exact Ety | exact Et | rewrite Ef; exact Hlt | reflexivity | reflexivity
          | repeat split | same_except].
    - eexists. split; [reflexivity|]. left.
      split; [right; right; split; [exact Ety | right; now rewrite Ef]|].
      split; [|reflexivity].
      apply (attach_false_option v q _ f (withTFFeedback v f));
        [exact Ety | exact Ef | now rewrite Et | reflexivity | reflexivity
        | repeat split | same_except].
    - eexists. split; [reflexivity|]. left.
      split; [right; right; split; [exact Ety | left; now rewrite Et]|].
      split; [|reflexivity].
      apply (attach_true_option v q _ t (withTFFeedback v t));
        [exact Ety | exact Et | now rewrite Ef | reflexivity | reflexivity
        | repeat split | same_except].
    - eexists. split; [reflexivity|]. right. split; [|split; [reflexivity | same_except]].
      intros [[[H|H] _] | [[H _] | [_ [[x H] | [x H]]]]]; congruence. }
  destruct (typeIs q "O" && hasElements (items q)) eqn:E4.
  { apply andb_true_iff in E4 as [Ety E4]. apply typeIs_true in Ety.
    pose proof E4 as E4'. apply hasElements_true in E4' as (its & Ei & Hne).
    destruct (nonempty_snoc its Hne) as (init & o & ->).
    rewrite Ei, assignLast_snoc. eexists. split; [reflexivity|]. left.
    split; [right; left; split; [exact Ety | now exists (init ++ [o])]|].
    split; [|reflexivity].
    apply (attach_last_item v q _ init o (withItemFeedback v o));
      [exact Ety | exact Ei | reflexivity | reflexivity | repeat split | same_except]. }
  eexists. split; [reflexivity|]. right. split; [|split; [reflexivity | same_except]].
  intros [[Hty Hel] | [[Hty Hel] | [Hty _]]].
  - apply hasElements_true in Hel. destruct Hty as [Hty|Hty]; apply typeIs_true in Hty.
    + rewrite Hty, Hel in E1. discriminate.
    + rewrite Hty, Hel in E2. discriminate.
  - apply hasElements_true in Hel. apply typeIs_true in Hty.
    rewrite Hty, Hel in E4. discriminate.
  - apply typeIs_true in Hty. congruence.
Qed.

Lemma stepRow_in_question (st : ParserState) (rawRecord : string) (row : list string)
    (q q' : PartialQuestion) (out : list Diagnostic) :
  currentQuestion st = Some q ->
  toLowerCase (getValue row 0 "") <> "newquestion" ->
  processRow (S (currentLineNumber st)) row q = Completed q' out ->
  stepRow st rawRecord row
  = {| collected := collected st; currentQuestion := Some q';
       currentLineNumber := S (currentLineNumber st); console := console st ++ out |}.
Proof.
  intros Hq Hk Hp. unfold stepRow. cbv zeta.
  apply String.eqb_neq in Hk. rewrite Hk, Hq, Hp. reflexivity.
Qed.

(** C2. While a question is being built, a [feedback] record writes its
    value on the last option of a multiple-choice or multi-select question,
    on the last item of an ordering question, or on the true/false option
    defined at the later record, and leaves the general feedback alone; it
    sets the general feedback of the question exactly when there is no such
    element.  The result is described by what is read from it: the feedback
    of the element (or of the question) is the value of the record, the
    other values of the element, the elements before it and every other
    property of the question are unchanged.  No message is written. *)
Theorem feedback_row_attaches (records : list string) (rawRecord : string)
    (row : list string) (q : PartialQuestion) :
  let st := runRecords records initialState in
  let value := getValue row 1 "" in
  currentQuestion st = Some q ->
  toLowerCase (getValue row 0 "") = "feedback" ->
  exists q',
    stepRow st rawRecord row
    = {| collected := collected st; currentQuestion := Some q';
         currentLineNumber := S (currentLineNumber st); console := console st |}
    /\ ((eligibleElement q /\ AttachesToElement value q q' /\ feedback q' = feedback q)
        \/ (~ eligibleElement q /\ SetsGeneralFeedback value q q')).
Proof.
  intros st value Hq Hk.
  pose proof (runRecords_wellFormed records _ initialState_wellFormed) as Hwf.
  destruct (onFeedback_cases _ value q (wf_current _ Hwf q Hq)) as (q' & Hf & Hcases).
  exists q'. split; [|exact Hcases].
  rewrite (stepRow_in_question st rawRecord row q q' []); auto.
  - now rewrite app_nil_r.
  - rewrite Hk. discriminate.
  - now rewrite processRow_feedback.
Qed.

Lemma feedback_row_attaches_witness :
  let st := runRecords sampleCapitals initialState in
  let row := ["Feedback"; "Great job"] in
  exists q, currentQuestion st = Some q /\
  exists q',
    stepRow st "Feedback,Great job" row
    = {| collected := collected st; currentQuestion := Some q';
         currentLineNumber := S (currentLineNumber st); console := console st |}
    /\ ((eligibleElement q /\ AttachesToElement (getValue row 1 "") q q' /\ feedback q' = feedback q)
        \/ (~ eligibleElement q /\ SetsGeneralFeedback (getValue row 1 "") q q')).
Proof.
  intros st row. eexists. split; [vm_compute; reflexivity|].
  apply (feedback_row_attaches sampleCapitals "Feedback,Great job" row); vm_compute; reflexivity.
Defined.

(** ** Matching records *)

(** C6. In a matching question, a [match] record whose choice number is
    positive and is the number of no pair so far does not throw: it appends
    a pair with that number, the placeholder choice text and the match text
    of the record, and writes one warning.  The placeholder is not empty, so
    the new pair is incomplete only when the match text is empty, and a
    question whose other pairs are complete stays valid. *)
Theorem match_row_unseen_choice (n : nat) (row : list string) (q : PartialQuestion) :
  let number := safeParseInt (getValue row 1 "") 0 in
  let newPair := {| choiceNo := number; choiceText := placeholderChoice number;
                    matchText := getValue row 2 "" |} in
  let q' := set_pairs (Some (default [] (pairs q) ++ [newPair])) q in
  toLowerCase (getValue row 0 "") = "match" ->
  type q = Some "M" ->
  (0 < number)%Z ->
  Forall (fun p => choiceNo p <> number) (default [] (pairs q)) ->
  processRow n row q = Completed q' [warn n (MatchWithoutChoice (title q) number)]
  /\ incompletePair newPair = (getValue row 2 "" =? "")
  /\ (getValue row 2 "" <> "" ->
      requiredPresent q = true ->
      Forall (fun p => incompletePair p = false) (default [] (pairs q)) ->
      lastQuestionSkipReason q' = None).
Proof.
  intros number newPair q' Hk Hty Hpos Hnew.
  split; [|split].
  - rewrite processRow_match by exact Hk. now apply onMatch_unseen.
  - reflexivity.
  - intros Hv Hreq Hold. unfold lastQuestionSkipReason.
    change (requiredPresent q') with (requiredPresent q). rewrite Hreq. simpl.
    assert (Hty' : type q' = Some "M") by exact Hty.
    rewrite (typeIs_code q' "M" "M" Hty'), (typeIs_code q' "M" "MC" Hty'),
      (typeIs_code q' "M" "TF" Hty'), (typeIs_code q' "M" "MS" Hty'),
      (typeIs_code q' "M" "O" Hty'), (typeIs_code q' "M" "SA" Hty').
    simpl.
    replace (length (default [] (pairs q) ++ [newPair]) =? 0)%nat with false
      by (symmetry; apply Nat.eqb_neq; rewrite length_app; simpl; lia).
    rewrite existsb_app. simpl.
    replace (existsb incompletePair (default [] (pairs q))) with false.
    + apply String.eqb_neq in Hv. unfold incompletePair. simpl. rewrite Hv. reflexivity.
    + symmetry. apply not_true_is_false. rewrite existsb_exists. intros (p & Hin & Hp).
      rewrite Forall_forall in Hold. rewrite (Hold p Hin) in Hp. discriminate.
Qed.

Lemma match_row_unseen_choice_witness :
  let row := ["Match"; "3"; "Peru"] in
  let newPair := {| choiceNo := 3; choiceText := "[Choice 3 Placeholder]"; matchText := "Peru" |} in
  processRow 4 row sampleMatchOnly
  = Completed (set_pairs (Some [newPair]) sampleMatchOnly)
      [warn 4 (MatchWithoutChoice (Some "Capitals") 3)]
  /\ lastQuestionSkipReason (set_pairs (Some [newPair]) sampleMatchOnly) = None.
Proof.
  intros row newPair.
  assert (Hk : toLowerCase (getValue row 0 "") = "match") by reflexivity.
  assert (Hty : type sampleMatchOnly = Some "M") by reflexivity.
  assert (Hpos : (0 < safeParseInt (getValue row 1 "") 0)%Z) by (vm_compute; reflexivity).
  assert (Hnew : Forall (fun p => choiceNo p <> safeParseInt (getValue row 1 "") 0)
                   (default [] (pairs sampleMatchOnly))) by constructor.
  destruct (match_row_unseen_choice 4 row sampleMatchOnly Hk Hty Hpos Hnew) as (H1 & _ & H3).
  split; [exact H1|].
  apply H3; [discriminate | reflexivity | constructor].
Defined.

Lemma step_in_question (st : ParserState) (rawRecord : string) (row : list string)
    (q q' : PartialQuestion) :
  splitCsvRow rawRecord = row ->
  currentQuestion st = Some q ->
  toLowerCase (getValue row 0 "") <> "newquestion" ->
  processRow (S (currentLineNumber st)) row q = Completed q' [] ->
  step st rawRecord
  = {| collected := collected st; currentQuestion := Some q';
       currentLineNumber := S (currentLineNumber st); console := console st |}.
Proof.
  intros Hrow Hq Hk Hp. unfold step. rewrite Hrow.
  rewrite (stepRow_in_question st rawRecord row q q' [] Hq Hk Hp).
  now rewrite app_nil_r.
Qed.

Lemma capitalsRows_run (st : ParserState) (q : PartialQuestion) :
  currentQuestion st = Some q ->
  type q = Some "M" ->
  default [] (pairs q) = [] ->
  runRecords capitalsRows st
  = {| collected := collected st; currentQuestion := Some (set_pairs (Some capitalsPairs) q);
       currentLineNumber := (currentLineNumber st + 4)%nat; console := console st |}.
Proof.
  intros Hq Hty Hps. unfold runRecords, capitalsRows. simpl fold_left.
  set (q1 := set_pairs (Some [{| choiceNo := 1; choiceText := "Ottawa"; matchText := "" |}]) q).
  set (q2 := set_pairs (Some [{| choiceNo := 1; choiceText := "Ottawa"; matchText := "Canada" |}]) q).
  set (q3 := set_pairs (Some [{| choiceNo := 1; choiceText := "Ottawa"; matchText := "Canada" |};
                              {| choiceNo := 2; choiceText := "Canberra"; matchText := "" |}]) q).
  rewrite (step_in_question st "Choice,1,Ottawa" ["Choice"; "1"; "Ottawa"] q q1 eq_refl Hq);
    [| discriminate |].
  2:{ rewrite processRow_choice by reflexivity.
      rewrite onChoice_unseen; [| exact Hty | reflexivity | rewrite Hps; constructor].
      rewrite Hps. reflexivity. }
  rewrite (step_in_question _ "Match,1,Canada" ["Match"; "1"; "Canada"] q1 q2 eq_refl);
    [| reflexivity | discriminate |].
  2:{ rewrite processRow_match by reflexivity.
      rewrite (onMatch_seen _ "1" "Canada" q1 Hty eq_refl [] []
                 {| choiceNo := 1; choiceText := "Ottawa"; matchText := "" |});
        [reflexivity | reflexivity | constructor | reflexivity]. }
  rewrite (step_in_question _ "Choice,2,Canberra" ["Choice"; "2"; "Canberra"] q2 q3 eq_refl);
    [| reflexivity | discriminate |].
  2:{ rewrite processRow_choice by reflexivity.
      rewrite onChoice_unseen; [reflexivity | exact Hty | reflexivity |].
      repeat constructor. simpl. discriminate. }
  rewrite (step_in_question _ "Match,2,Australia" ["Match"; "2"; "Australia"] q3
             (set_pairs (Some capitalsPairs) q) eq_refl);
    [| reflexivity | discriminate |].
  2:{ rewrite processRow_match by reflexivity.
      rewrite (onMatch_seen _ "2" "Australia" q3 Hty eq_refl
                 [{| choiceNo := 1; choiceText := "Ottawa"; matchText := "Canada" |}] []
                 {| choiceNo := 2; choiceText := "Canberra"; matchText := "" |});
        [reflexivity | reflexivity | | reflexivity].
      repeat constructor. simpl. discriminate. }
  simpl. f_equal. lia.
Qed.

(** C7. In a matching question without pairs, the records [Choice,1,Ottawa],
    [Match,1,Canada], [Choice,2,Canberra], [Match,2,Australia] leave exactly
    the pairs (1, Ottawa, Canada) and (2, Canberra, Australia), in this
    order.  A [choice] record with a positive number updates the choice text
    of the first pair with that number, or appends a pair with an empty match
    text when there is none; a [match] record with the number of a pair
    updates the match text of that pair and nothing else. *)
Theorem matching_rows_build_pairs :
  (forall st q,
      currentQuestion st = Some q -> type q = Some "M" -> default [] (pairs q) = [] ->
      let st' := runRecords capitalsRows st in
      currentQuestion st' = Some (set_pairs (Some capitalsPairs) q)
      /\ collected st' = collected st /\ console st' = console st)
  /\ map pairs (questions (parseQuizCsv sampleMatching)) = [Some capitalsPairs]
  /\ (forall n row q,
        let number := safeParseInt (getValue row 1 "") 0 in
        toLowerCase (getValue row 0 "") = "choice" -> type q = Some "M" -> (0 < number)%Z ->
        (forall l1 p l2,
            pairs q = Some (l1 ++ p :: l2) ->
            Forall (fun x => choiceNo x <> number) l1 -> choiceNo p = number ->
            processRow n row q
            = Completed (set_pairs (Some (l1 ++ withChoiceText (getValue row 2 "") p :: l2)) q) [])
        /\ (Forall (fun x => choiceNo x <> number) (default [] (pairs q)) ->
            processRow n row q
            = Completed (set_pairs (Some (default [] (pairs q) ++
                  [{| choiceNo := number; choiceText := getValue row 2 ""; matchText := "" |}])) q) []))
  /\ (forall n row q l1 p l2,
        let number := safeParseInt (getValue row 1 "") 0 in
        toLowerCase (getValue row 0 "") = "match" -> type q = Some "M" -> (0 < number)%Z ->
        pairs q = Some (l1 ++ p :: l2) ->
        Forall (fun x => choiceNo x <> number) l1 -> choiceNo p = number ->
        processRow n row q
        = Completed (set_pairs (Some (l1 ++ withMatchText (getValue row 2 "") p :: l2)) q) []).
Proof.
  split; [|split; [|split]].
  - intros st q Hq Hty Hps st'. subst st'.
    rewrite (capitalsRows_run st q Hq Hty Hps). simpl. auto.
  - vm_compute. reflexivity.
  - intros n row q number Hk Hty Hpos. split.
    + intros l1 p l2 Hp Hl1 Hn. rewrite processRow_choice by exact Hk.
      now apply onChoice_seen.
    + intros Hnew. rewrite processRow_choice by exact Hk. now apply onChoice_unseen.
  - intros n row q l1 p l2 number Hk Hty Hpos Hp Hl1 Hn.
    rewrite processRow_match by exact Hk. now apply onMatch_seen.
Qed.

Lemma matching_rows_build_pairs_witness :
  let st := runRecords ["NewQuestion,M"; "Title,Capitals"] initialState in
  (exists q, currentQuestion (runRecords capitalsRows st) = Some q /\ pairs q = Some capitalsPairs)
  /\ processRow 3 ["Choice"; "1"; "Quito"] samplePeru
     = Completed
         (set_pairs (Some [{| choiceNo := 1; choiceText := "Quito"; matchText := "Peru" |}])
            samplePeru) []
  /\ processRow 3 ["Match"; "1"; "Ecuador"] samplePeru
     = Completed
         (set_pairs (Some [{| choiceNo := 1; choiceText := "Lima"; matchText := "Ecuador" |}])
            samplePeru) [].
Proof.
  intros st. destruct matching_rows_build_pairs as (H1 & _ & H3 & H4).
  split; [|split].
  - destruct (H1 st (set_title (Some "Capitals") (newQuestion "M")) eq_refl eq_refl eq_refl)
      as (Hc & _ & _).
    eexists. split; [exact Hc | reflexivity].
  - assert (Hpos : (0 < safeParseInt (getValue ["Choice"; "1"; "Quito"] 1 "") 0)%Z)
      by (vm_compute; reflexivity).
    destruct (H3 3%nat ["Choice"; "1"; "Quito"] samplePeru eq_refl eq_refl Hpos) as (Hseen & _).
    apply (Hseen [] {| choiceNo := 1; choiceText := "Lima"; matchText := "Peru" |} []);
      [reflexivity | constructor | reflexivity].
  - assert (Hpos : (0 < safeParseInt (getValue ["Match"; "1"; "Ecuador"] 1 "") 0)%Z)
      by (vm_compute; reflexivity).
    apply (H4 3%nat ["Match"; "1"; "Ecuador"] samplePeru []
             {| choiceNo := 1; choiceText := "Lima"; matchText := "Peru" |} []
             eq_refl eq_refl Hpos); [reflexivity | constructor | reflexivity].
Defined.

(** ** Item and option records *)

(** C8 (amended).  In an ordering question, an [item] record appends an item
    whose text is cell 2, whose html flag tells whether cell 3 is [html] up
    to case, whose feedback is cell 4 (absent when the cell is empty or
    missing) and whose feedback-html flag tells whether cell 6 is [html] up
    to case; cell 5 is not read.  The options of multiple-choice and
    multi-select questions read their feedback-html flag from cell 6 as
    well: their feedback is cell 5.  The result is described by what is
    read from it: the array of the question is the former array followed by
    the new element, whose properties are the cells above, and every other
    property of the question is unchanged.  The items of the sample ordering
    question are read from the quiz that the parser returns. *)
Theorem item_row_cells (n : nat) (row : list string) (q : PartialQuestion) :
  (toLowerCase (getValue row 0 "") = "item" -> type q = Some "O" ->
   exists q' item,
     processRow n row q = Completed q' []
     /\ items q' = Some (default [] (items q) ++ [item])
     /\ it_text item = getValue row 1 ""
     /\ it_htmlFlag item = (toLowerCase (getValue row 2 "") =? "html")
     /\ it_feedback item = (if getValue row 3 "" =? "" then None else Some (getValue row 3 ""))
     /\ it_feedbackHtmlFlag item = (toLowerCase (getValue row 5 "") =? "html")
     /\ sameExcept [p_items] q q')
  /\ (toLowerCase (getValue row 0 "") = "option" -> type q = Some "MC" ->
      exists q' o,
        processRow n row q = Completed q' []
        /\ options q' = Some (default [] (options q) ++ [MC o])
        /\ mc_percent o = safeParseInt (getValue row 1 "") 0
        /\ mc_text o = getValue row 2 ""
        /\ mc_htmlFlag o = (toLowerCase (getValue row 3 "") =? "html")
        /\ mc_feedback o = (if getValue row 4 "" =? "" then None else Some (getValue row 4 ""))
        /\ mc_feedbackHtmlFlag o = (toLowerCase (getValue row 5 "") =? "html")
        /\ sameExcept [p_options] q q')
  /\ (toLowerCase (getValue row 0 "") = "option" -> type q = Some "MS" ->
      exists q' o,
        processRow n row q = Completed q' []
        /\ options q' = Some (default [] (options q) ++ [MS o])
        /\ ms_weight o = safeParseInt (getValue row 1 "") 0
        /\ ms_text o = getValue row 2 ""
        /\ ms_htmlFlag o = (toLowerCase (getValue row 3 "") =? "html")
        /\ ms_feedback o = (if getValue row 4 "" =? "" then None else Some (getValue row 4 ""))
        /\ ms_feedbackHtmlFlag o = (toLowerCase (getValue row 5 "") =? "html")
        /\ sameExcept [p_options] q q')
  /\ map (fun q' => (type q', items q')) (questions (parseQuizCsv sampleOrdering))
     = [(Some "O",
         Some [{| it_text := "First step"; it_htmlFlag := true; it_feedback := Some "Good";
                  it_feedbackHtmlFlag := true |};
               {| it_text := "Second step"; it_htmlFlag := false; it_feedback := None;
                  it_feedbackHtmlFlag := false |}])].
Proof.
  split; [|split; [|split]]; [intros Hk Hty .. |].
  - rewrite processRow_item by exact Hk. unfold onItem.
    rewrite (typeIs_code q "O" "O" Hty). simpl.
    eexists _, _. split; [reflexivity|].
    split; [reflexivity|]. repeat (split; [reflexivity|]). same_except.
  - rewrite processRow_option by exact Hk. unfold onOption.
    rewrite (typeIs_code q "MC" "MC" Hty). simpl.
    eexists _, _. split; [reflexivity|].
    split; [reflexivity|]. repeat (split; [reflexivity|]). same_except.
  - rewrite processRow_option by exact Hk. unfold onOption.
    rewrite (typeIs_code q "MS" "MC" Hty), (typeIs_code q "MS" "MS" Hty). simpl.
    eexists _, _. split; [reflexivity|].
    split; [reflexivity|]. repeat (split; [reflexivity|]). same_except.
  - vm_compute. reflexivity.
Qed.

Lemma item_row_cells_witness :
  (exists q' item,
      processRow 4 sampleItemRow (newQuestion "O") = Completed q' []
      /\ items q' = Some (default [] (items (newQuestion "O")) ++ [item])
      /\ it_text item = getValue sampleItemRow 1 ""
      /\ it_htmlFlag item = (toLowerCase (getValue sampleItemRow 2 "") =? "html")
      /\ it_feedback item
         = (if getValue sampleItemRow 3 "" =? "" then None else Some (getValue sampleItemRow 3 ""))
      /\ it_feedbackHtmlFlag item = (toLowerCase (getValue sampleItemRow 5 "") =? "html")
      /\ sameExcept [p_items] (newQuestion "O") q')
  /\ (exists q' o,
        processRow 4 sampleOptionRow (newQuestion "MC") = Completed q' []
        /\ options q' = Some (default [] (options (newQuestion "MC")) ++ [MC o])
        /\ mc_percent o = safeParseInt (getValue sampleOptionRow 1 "") 0
        /\ mc_text o = getValue sampleOptionRow 2 ""
        /\ mc_htmlFlag o = (toLowerCase (getValue sampleOptionRow 3 "") =? "html")
        /\ mc_feedback o
           = (if getValue sampleOptionRow 4 "" =? "" then None
              else Some (getValue sampleOptionRow 4 ""))
        /\ mc_feedbackHtmlFlag o = (toLowerCase (getValue sampleOptionRow 5 "") =? "html")
        /\ sameExcept [p_options] (newQuestion "MC") q')
  /\ (exists q' o,
        processRow 4 sampleOptionRow (newQuestion "MS") = Completed q' []
        /\ options q' = Some (default [] (options (newQuestion "MS")) ++ [MS o])
        /\ ms_weight o = safeParseInt (getValue sampleOptionRow 1 "") 0
        /\ ms_text o = getValue sampleOptionRow 2 ""
        /\ ms_htmlFlag o = (toLowerCase (getValue sampleOptionRow 3 "") =? "html")
        /\ ms_feedback o
           = (if getValue sampleOptionRow 4 "" =? "" then None
              else Some (getValue sampleOptionRow 4 ""))
        /\ ms_feedbackHtmlFlag o = (toLowerCase (getValue sampleOptionRow 5 "") =? "html")
        /\ sameExcept [p_options] (newQuestion "MS") q').
Proof.
  split; [|split].
  - exact (proj1 (item_row_cells 4 sampleItemRow (newQuestion "O")) eq_refl eq_refl).
  - exact (proj1 (proj2 (item_row_cells 4 sampleOptionRow (newQuestion "MC"))) eq_refl eq_refl).
  - exact (proj1 (proj2 (proj2 (item_row_cells 4 sampleOptionRow (newQuestion "MS"))))
             eq_refl eq_refl).
Defined.

(** C8, as stated, fails on the options: an [option] record of a
    multiple-choice question whose cell 5 is [html] and whose cell 6 is empty
    gets the feedback [html] and a feedback-html flag that is off, so the
    flag of an option is not read from cell 5. *)
Lemma option_flag_not_read_from_cell_5 :
  let row := ["Option"; "100"; "Paris"; ""; "html"; ""] in
  exists q' o,
    processRow 4 row (newQuestion "MC") = Completed q' []
    /\ options q' = Some [MC o]
    /\ (toLowerCase (nth 4 row "") =? "html") = true
    /\ mc_feedbackHtmlFlag o = false
    /\ mc_feedback o = Some "html".
Proof.
  intros row. eexists _, _. split; [vm_compute; reflexivity|].
  split; [reflexivity|]. repeat split.
Qed.

(** ** [NewQuestion] records *)

Lemma currentLineNumber_step (st : ParserState) (rawRecord : string) :
  currentLineNumber (step st rawRecord) = S (currentLineNumber st).
Proof.
  unfold step, stepRow. cbv zeta.
  destruct (_ =? "newquestion").
  - destruct (closeCurrent _ st) as [qs out]. now destruct (isKnownType _).
  - destruct (currentQuestion st) as [q|]; [|reflexivity].
    now destruct (processRow _ _ q).
Qed.

Lemma currentLineNumber_run (records : list string) :
  forall st, currentLineNumber (runRecords records st)
             = (currentLineNumber st + length records)%nat.
Proof.
  induction records as [|r records IH]; intros st; simpl; [lia|].
  rewrite IH, currentLineNumber_step. lia.
Qed.

Lemma step_unknown_type (st : ParserState) (rawRecord : string) :
  keyOf rawRecord = "newquestion" ->
  isKnownType (typeCodeOf rawRecord) = false ->
  step st rawRecord
  = {| collected := fst (closeCurrent (S (currentLineNumber st)) st);
       currentQuestion := None;
       currentLineNumber := S (currentLineNumber st);
       console := console st ++ snd (closeCurrent (S (currentLineNumber st)) st)
                  ++ [warn (S (currentLineNumber st)) (UnknownQuestionType (typeCodeOf rawRecord))] |}.
Proof.
  intros Hk Ht. unfold step, stepRow. cbv zeta.
  fold (keyOf rawRecord). fold (typeCodeOf rawRecord). rewrite Hk, Ht. simpl.
  now destruct (closeCurrent _ st).
Qed.

Lemma step_known_type (st : ParserState) (rawRecord : string) :
  keyOf rawRecord = "newquestion" ->
  isKnownType (typeCodeOf rawRecord) = true ->
  step st rawRecord
  = {| collected := fst (closeCurrent (S (currentLineNumber st)) st);
       currentQuestion := Some (newQuestion (typeCodeOf rawRecord));
       currentLineNumber := S (currentLineNumber st);
       console := console st ++ snd (closeCurrent (S (currentLineNumber st)) st) |}.
Proof.
  intros Hk Ht. unfold step, stepRow. cbv zeta.
  fold (keyOf rawRecord). fold (typeCodeOf rawRecord). rewrite Hk, Ht. simpl.
  now destruct (closeCurrent _ st).
Qed.

(** A block opened by a [NewQuestion] record with an unknown type code:
    the state after the block. *)
Lemma unknown_type_block_run (st : ParserState) (bad : string) (ignored : list string) :
  keyOf bad = "newquestion" ->
  isKnownType (typeCodeOf bad) = false ->
  Forall (fun r => keyOf r <> "newquestion") ignored ->
  runRecords (bad :: ignored) st
  = {| collected := fst (closeCurrent (S (currentLineNumber st)) st);
       currentQuestion := None;
       currentLineNumber := (S (currentLineNumber st) + length ignored)%nat;
       console := console st ++ snd (closeCurrent (S (currentLineNumber st)) st)
                  ++ [warn (S (currentLineNumber st)) (UnknownQuestionType (typeCodeOf bad))] |}.
Proof.
  intros Hk Ht Hig. change (runRecords (bad :: ignored) st) with (runRecords ignored (step st bad)).
  rewrite (step_unknown_type st bad Hk Ht).
  now rewrite runRecords_idle.
Qed.

(** The questions of the quiz with and without such a block. *)
Lemma unknown_type_block_questions (before : list string) (bad : string)
    (ignored : list string) (next : string) (after : list string) :
  keyOf bad = "newquestion" ->
  isKnownType (typeCodeOf bad) = false ->
  Forall (fun r => keyOf r <> "newquestion") ignored ->
  keyOf next = "newquestion" ->
  isKnownType (typeCodeOf next) = true ->
  let st := runRecords before initialState in
  exists later,
    collected (parseRecords (before ++ next :: after))
    = fst (closeCurrent (S (length before)) st) ++ later
    /\ collected (parseRecords (before ++ bad :: ignored ++ next :: after))
       = fst (closeCurrent (S (length before)) st) ++ map (shiftLines (S (length ignored))) later.
Proof.
  intros Hkb Htb Hig Hkn Htn st.
  assert (Hline : currentLineNumber st = length before)
    by (unfold st; now rewrite currentLineNumber_run).
  assert (Hwf : wellFormed st)
    by (apply runRecords_wellFormed, initialState_wellFormed).
  set (common := fst (closeCurrent (S (length before)) st)).
  set (k := S (length ignored)).
  set (a := step (runRecords (bad :: ignored) st) next).
  set (b := step st next).
  assert (Hsh : shifted k common a b).
  { unfold a, b. rewrite (unknown_type_block_run st bad ignored Hkb Htb Hig).
    rewrite !(step_known_type _ next Hkn Htn). rewrite Hline.
    constructor; simpl.
    - exists []. unfold common. simpl. rewrite !app_nil_r. split; [reflexivity|].
      unfold closeCurrent. reflexivity.
    - reflexivity.
    - unfold k. lia. }
  assert (Hwfb : wellFormed b) by (apply stepRow_wellFormed; exact Hwf).
  pose proof (finish_shifted k common _ _ (runRecords_shifted k common after a b Hwfb Hsh))
    as [(later & Hb & Ha) _ _].
  exists later. unfold parseRecords.
  rewrite !runRecords_app.
  change (runRecords (next :: after) (runRecords before initialState))
    with (runRecords after b).
  replace (runRecords (bad :: ignored ++ next :: after) (runRecords before initialState))
    with (runRecords after a).
  - split; [exact Hb | exact Ha].
  - unfold a. change (bad :: ignored ++ next :: after) with ((bad :: ignored) ++ next :: after).
    now rewrite runRecords_app.
Qed.

(** C3 (amended).  A [NewQuestion] record whose second cell is not one of
    the seven codes adds no question: it closes the question before it as
    every [NewQuestion] record does, writes a warning, and leaves the parser
    without a current question, so that the records up to the next
    [NewQuestion] record change nothing but the record count.  When the input
    ends there, the quiz holds the questions closed so far.  When a
    [NewQuestion] record with a known code follows, the questions read from
    there on are those read from the input without the block, with the
    record indices kept in their true/false options larger by the number of
    records of the block. *)
Theorem unknown_type_block_skipped (csvContent : string)
    (before : list string) (bad : string) (ignored rest : list string) :
  splitCsvToRecords csvContent = before ++ bad :: ignored ++ rest ->
  keyOf bad = "newquestion" ->
  isKnownType (typeCodeOf bad) = false ->
  Forall (fun r => keyOf r <> "newquestion") ignored ->
  let st := runRecords before initialState in
  let n := S (length before) in
  runRecords (bad :: ignored) st
  = {| collected := fst (closeCurrent n st);
       currentQuestion := None;
       currentLineNumber := (n + length ignored)%nat;
       console := console st ++ snd (closeCurrent n st)
                  ++ [warn n (UnknownQuestionType (typeCodeOf bad))] |}
  /\ (rest = [] -> questions (parseQuizCsv csvContent) = fst (closeCurrent n st))
  /\ (forall (csvWithout next : string) (after : list string),
         rest = next :: after ->
         splitCsvToRecords csvWithout = before ++ next :: after ->
         keyOf next = "newquestion" ->
         isKnownType (typeCodeOf next) = true ->
         exists later,
           questions (parseQuizCsv csvWithout) = fst (closeCurrent n st) ++ later
           /\ questions (parseQuizCsv csvContent)
              = fst (closeCurrent n st) ++ map (shiftLines (S (length ignored))) later).
Proof.
  intros Hcsv Hkb Htb Hig st n.
  assert (Hline : currentLineNumber st = length before)
    by (unfold st; now rewrite currentLineNumber_run).
  assert (Hrun : runRecords (bad :: ignored) st
                 = {| collected := fst (closeCurrent n st);
                      currentQuestion := None;
                      currentLineNumber := (n + length ignored)%nat;
                      console := console st ++ snd (closeCurrent n st)
                                 ++ [warn n (UnknownQuestionType (typeCodeOf bad))] |}).
  { rewrite (unknown_type_block_run st bad ignored Hkb Htb Hig), Hline. reflexivity. }
  split; [exact Hrun|]. split.
  - intros ->. unfold parseQuizCsv, parseQuizCsv_run. simpl. rewrite Hcsv, app_nil_r.
    rewrite runRecords_app. fold st. rewrite Hrun. reflexivity.
  - intros csvWithout next after -> Hwithout Hkn Htn.
    unfold parseQuizCsv, parseQuizCsv_run. simpl. rewrite Hcsv, Hwithout.
    exact (unknown_type_block_questions before bad ignored next after Hkb Htb Hig Hkn Htn).
Qed.

Lemma unknown_type_block_skipped_witness :
  exists later,
    questions (parseQuizCsv sampleWithoutBlock) = later
    /\ questions (parseQuizCsv sampleWithBlock) = map (shiftLines 2) later.
Proof.
  assert (Hcsv : splitCsvToRecords sampleWithBlock
                 = [] ++ "NewQuestion,ZZ" :: ["Title,left out"] ++ sampleAfterBlock)
    by (vm_compute; reflexivity).
  assert (Hig : Forall (fun r => keyOf r <> "newquestion") ["Title,left out"])
    by (repeat constructor; discriminate).
  destruct (unknown_type_block_skipped sampleWithBlock [] "NewQuestion,ZZ" ["Title,left out"]
              sampleAfterBlock Hcsv eq_refl eq_refl Hig) as (_ & _ & H).
  destruct (H sampleWithoutBlock "NewQuestion,TF"
              ["Title,T"; "QuestionText,Q"; "True,100"; "False,0"] eq_refl)
    as (later & H1 & H2).
  - vm_compute. reflexivity.
  - reflexivity.
  - reflexivity.
  - exists later. split; [exact H1 | exact H2].
Defined.

(** C3, as stated, fails: the true/false question read after a block with
    an unknown type code is not the question read without the block; its
    options record the numbers 6 and 7 instead of 4 and 5. *)
Lemma later_block_keeps_other_record_indices :
  parseQuizCsv sampleWithBlock <> parseQuizCsv sampleWithoutBlock
  /\ map (fun q => definedLine <$> trueOption q) (questions (parseQuizCsv sampleWithBlock))
     = [Some 6%nat]
  /\ map (fun q => definedLine <$> trueOption q) (questions (parseQuizCsv sampleWithoutBlock))
     = [Some 4%nat].
Proof.
  split; [|split]; [|vm_compute; reflexivity ..].
  intros H. apply (f_equal (fun z => map (fun q => definedLine <$> trueOption q) (questions z))) in H.
  vm_compute in H. discriminate.
Qed.

(** * Further properties *)

(** ** Trimming *)

Local Open Scope string_scope.

Lemma trimEnd_idempotent (s : string) : trimEnd (trimEnd s) = trimEnd s.
Proof.
  induction s as [|c s IH]; [reflexivity|]. simpl.
  destruct (isWhite c && (trimEnd s =? "")) eqn:E; [reflexivity|].
  simpl. now rewrite IH, E.
Qed.

Lemma trim_idempotent (s : string) : trim (trim s) = trim s.
Proof.
  unfold trim at 1. destruct (trim_shape s) as [E | (c & r & E & Hc)]; rewrite E.
  - reflexivity.
  - simpl trimStart. rewrite Hc, <- E. unfold trim. apply trimEnd_idempotent.
Qed.

Lemma trimStart_allWhite (s : string) : allWhite s = true -> trimStart s = "".
Proof.
  induction s as [|c s IH]; [reflexivity|]. simpl. intros H.
  apply andb_true_iff in H as [-> H]. now apply IH.
Qed.

Lemma trim_allWhite (s : string) : allWhite s = true -> trim s = "".
Proof. intros H. unfold trim. now rewrite trimStart_allWhite. Qed.

Lemma allWhite_append (s t : string) : allWhite (s ++ t) = allWhite s && allWhite t.
Proof.
  induction s as [|c s IH]; [reflexivity|]. simpl. now rewrite IH, andb_assoc.
Qed.

Lemma trimEnd_allWhite (s : string) : allWhite s = true -> trimEnd s = "".
Proof.
  induction s as [|c s IH]; [reflexivity|]. simpl. intros H.
  apply andb_true_iff in H as [-> H]. now rewrite (IH H).
Qed.

(** White space at the end of a text is trimmed away. *)
Lemma trimEnd_append_white (s w : string) :
  allWhite w = true -> trimEnd (s ++ w) = trimEnd s.
Proof.
  intros Hw. induction s as [|c s IH]; simpl.
  - now apply trimEnd_allWhite.
  - now rewrite IH.
Qed.

Lemma trimStart_append (s w : string) :
  allWhite s = false -> trimStart (s ++ w) = trimStart s ++ w.
Proof.
  induction s as [|c s IH]; [discriminate|]. simpl. intros H.
  destruct (isWhite c); [now apply IH | reflexivity].
Qed.

Lemma trim_append_white (s w : string) : allWhite w = true -> trim (s ++ w) = trim s.
Proof.
  intros Hw. unfold trim. destruct (allWhite s) eqn:Hs.
  - rewrite trimStart_allWhite by (rewrite allWhite_append, Hs, Hw; reflexivity).
    now rewrite (trimStart_allWhite s Hs).
  - rewrite (trimStart_append s w Hs). now apply trimEnd_append_white.
Qed.

(** ** More on the record splitter *)

(** X1. Every record returned by the splitter is trimmed and holds a
    character that is not white space; in particular it is not empty. *)
Theorem splitCsvToRecords_records_trimmed (csvString record : string) :
  In record (splitCsvToRecords csvString) ->
  record <> "" /\ trim record = record /\ allWhite record = false.
Proof.
  unfold splitCsvToRecords. intros H. apply filter_In in H as [H Hk].
  apply in_map_iff in H as (x & <- & _).
  unfold keepRecord in Hk. apply andb_true_iff in Hk as [Hlen Hw].
  split; [|split].
  - intros E. rewrite E in Hlen. discriminate.
  - apply trim_idempotent.
  - now apply negb_true_iff.
Qed.

Lemma splitCsvToRecords_records_trimmed_witness :
  "Title , x" <> "" /\ trim "Title , x" = "Title , x" /\ allWhite "Title , x" = false.
Proof.
  apply (splitCsvToRecords_records_trimmed samplePlain).
  vm_compute. right. left. reflexivity.
Defined.

Lemma scanRecords_lines (s : string) :
  forall current inQuotes,
    lines (scanRecords s current inQuotes) = current ++ s
    \/ lines (scanRecords s current inQuotes) = current ++ s ++ String LF "".
Proof.
  induction s as [|c s IH]; intros cur inQ.
  - simpl. destruct (cur =? "") eqn:E.
    + apply String.eqb_eq in E. subst. now left.
    + right. reflexivity.
  - simpl. destruct (Ascii.eqb c DQUOTE).
    + destruct (IH (cur ++ String c "") (negb inQ)) as [-> | ->];
        [left | right]; now rewrite append_assoc.
    + destruct (Ascii.eqb c LF && negb inQ) eqn:El.
      * apply andb_true_iff in El as [El _]. apply Ascii.eqb_eq in El. subst c.
        simpl. destruct (IH "" inQ) as [-> | ->]; [left | right]; reflexivity.
      * destruct (IH (cur ++ String c "") inQ) as [-> | ->];
          [left | right]; now rewrite append_assoc.
Qed.

(** X2. The loop of the splitter loses no character and adds none: the
    records it cuts, each followed by a line feed, spell the input again, up
    to the line feed that ends a last record without one. *)
Theorem rawRecords_spell_input (csvString : string) :
  lines (rawRecords csvString) = csvString
  \/ lines (rawRecords csvString) = csvString ++ String LF "".
Proof. rewrite rawRecords_scan. apply (scanRecords_lines csvString "" false). Qed.

Lemma scanRecords_open_to_end (b : string) :
  forall current,
    includesChar b DQUOTE = false -> current <> "" ->
    scanRecords b current true = [current ++ b].
Proof.
  induction b as [|c b IH]; intros cur Hq Hcur.
  - simpl. destruct (cur =? "") eqn:E; [apply String.eqb_eq in E; contradiction|].
    now rewrite append_empty_r.
  - simpl in Hq. apply orb_false_iff in Hq as [Hc Hq].
    simpl. rewrite Hc, andb_false_r. rewrite IH; [now rewrite append_assoc | exact Hq |].
    intros Habs. apply append_eq_empty in Habs as [_ Habs]. discriminate.
Qed.

Lemma scanRecords_unclosed (a b : string) :
  forall current inQuotes,
    (inQuotes = true -> current <> "") ->
    quoteOpenAfter inQuotes a = true ->
    includesChar b DQUOTE = false ->
    exists pre x,
      scanRecords (a ++ b) current inQuotes = (pre ++ [(x ++ b)%string])%list
      /\ current ++ a = lines pre ++ x.
Proof.
  induction a as [|c a IH]; intros cur inQ Hinv H Hb.
  - simpl in H. subst inQ. simpl. exists [], cur.
    rewrite (scanRecords_open_to_end b cur Hb (Hinv eq_refl)).
    now rewrite append_empty_r.
  - rewrite quoteOpenAfter_cons in H. simpl.
    assert (Hne : cur ++ String c "" <> "").
    { intros Habs. apply append_eq_empty in Habs as [_ Habs]. discriminate. }
    destruct (Ascii.eqb c DQUOTE) eqn:Ec.
    + destruct (IH (cur ++ String c "") (negb inQ) (fun _ => Hne) H Hb) as (pre & x & E & Hx).
      exists pre, x. split; [exact E|]. rewrite <- Hx. now rewrite append_assoc.
    + destruct (Ascii.eqb c LF && negb inQ) eqn:El.
      * apply andb_true_iff in El as [El Hq]. apply Ascii.eqb_eq in El. subst c.
        apply negb_true_iff in Hq. subst inQ.
        destruct (IH "" false ltac:(discriminate) H Hb) as (pre & x & E & Hx).
        exists (cur :: pre), x. rewrite E. split; [reflexivity|].
        simpl in *. rewrite append_assoc. simpl. now rewrite Hx.
      * destruct (IH (cur ++ String c "") inQ (fun _ => Hne) H Hb) as (pre & x & E & Hx).
        exists pre, x. split; [exact E|]. rewrite <- Hx. now rewrite append_assoc.
Qed.

(** X3. A double quote that is never closed takes the rest of the input
    into one record: when the quotes are open after the prefix [a] and no
    double quote follows, everything from the last boundary to the end of
    the input, line feeds included, is the last record cut by the loop. *)
Theorem unclosed_quote_takes_rest (a b : string) :
  quoteOpenAfter false a = true ->
  includesChar b DQUOTE = false ->
  exists pre x,
    rawRecords (a ++ b) = (pre ++ [(x ++ b)%string])%list /\ a = lines pre ++ x.
Proof.
  intros H Hb. rewrite rawRecords_scan.
  destruct (scanRecords_unclosed a b "" false ltac:(discriminate) H Hb) as (pre & x & E & Hx).
  now exists pre, x.
Qed.

Lemma unclosed_quote_takes_rest_witness :
  exists pre x,
    rawRecords (lines ["NewQuestion,WR"; "Title," ++ String DQUOTE "never"]
                ++ lines ["closed"; "NewQuestion,MC"])
    = (pre ++ [(x ++ lines ["closed"; "NewQuestion,MC"])%string])%list
    /\ lines ["NewQuestion,WR"; "Title," ++ String DQUOTE "never"] = lines pre ++ x.
Proof.
  apply unclosed_quote_takes_rest; vm_compute; reflexivity.
Defined.

Lemma isWhite_not_quote (c : ascii) : isWhite c = true -> Ascii.eqb c DQUOTE = false.
Proof.
  intros H. destruct (Ascii.eqb c DQUOTE) eqn:E; [|reflexivity].
  apply Ascii.eqb_eq in E. subst c. discriminate.
Qed.

Lemma scanRecords_allWhite (s : string) :
  forall current inQuotes,
    allWhite s = true -> allWhite current = true ->
    Forall (fun r => allWhite r = true) (scanRecords s current inQuotes).
Proof.
  induction s as [|c s IH]; intros cur inQ Hs Hcur.
  - simpl. destruct (cur =? ""); repeat constructor. exact Hcur.
  - simpl in Hs. apply andb_true_iff in Hs as [Hc Hs].
    assert (Hcur' : allWhite (cur ++ String c "") = true)
      by (rewrite allWhite_append, Hcur; simpl; now rewrite Hc).
    simpl. rewrite (isWhite_not_quote c Hc).
    destruct (Ascii.eqb c LF && negb inQ).
    + constructor; [exact Hcur | now apply IH].
    + now apply IH.
Qed.

Lemma filter_trim_allWhite (l : list string) :
  Forall (fun r => allWhite r = true) l -> List.filter keepRecord (map trim l) = [].
Proof.
  induction 1 as [|x l Hx _ IH]; [reflexivity|].
  simpl. rewrite (trim_allWhite x Hx). simpl. exact IH.
Qed.

(** X4. An input made of white space only, line feeds included, has no
    record, and its quiz has no question. *)
Theorem blank_input_gives_empty_quiz (csvContent : string) :
  allWhite csvContent = true ->
  splitCsvToRecords csvContent = [] /\ parseQuizCsv csvContent = {| questions := [] |}.
Proof.
  intros H.
  assert (E : splitCsvToRecords csvContent = []).
  { unfold splitCsvToRecords. rewrite rawRecords_scan.
    apply filter_trim_allWhite. now apply scanRecords_allWhite. }
  split; [exact E|]. unfold parseQuizCsv, parseQuizCsv_run. now rewrite E.
Qed.

Lemma blank_input_gives_empty_quiz_witness :
  parseQuizCsv (String LF (String " " (String CR (String LF "  ")))) = {| questions := [] |}.
Proof.
  apply (proj2 (blank_input_gives_empty_quiz
                 (String LF (String " " (String CR (String LF "  ")))) eq_refl)).
Defined.

Lemma scanRecords_segment (x : string) :
  forall rest current,
    includesChar x LF = false -> includesChar x DQUOTE = false ->
    scanRecords (x ++ rest) current false = scanRecords rest (current ++ x) false.
Proof.
  induction x as [|c x IH]; intros rest cur Hlf Hq.
  - simpl. now rewrite append_empty_r.
  - simpl in Hlf, Hq. apply orb_false_iff in Hlf as [Hc1 Hlf].
    apply orb_false_iff in Hq as [Hc2 Hq].
    simpl. rewrite Hc2, Hc1. simpl. rewrite (IH rest _ Hlf Hq). now rewrite append_assoc.
Qed.

Lemma scanRecords_fileOf (w : string) (physicalLines : list string) :
  includesChar w LF = false -> includesChar w DQUOTE = false ->
  Forall (fun x => includesChar x LF = false /\ includesChar x DQUOTE = false) physicalLines ->
  List.filter keepRecord (map trim (scanRecords (fileOf (w ++ String LF "") physicalLines) "" false))
  = List.filter keepRecord (map trim (map (fun x => x ++ w) physicalLines)).
Proof.
  intros Hw1 Hw2. induction 1 as [|x l [Hx1 Hx2] _ IH]; [reflexivity|].
  simpl fileOf. rewrite (scanRecords_segment x _ "" Hx1 Hx2).
  rewrite append_assoc. rewrite (scanRecords_segment w _ ("" ++ x) Hw1 Hw2).
  simpl. now rewrite IH.
Qed.

(** X5. For physical lines that hold neither a double quote nor a line
    feed, the records are the trimmed lines that are not blank, whether the
    lines end with a line feed or with a carriage return and a line feed:
    a file with Windows line endings is split, and so parsed, like the same
    file with Unix line endings. *)
Theorem splitCsvToRecords_line_endings (physicalLines : list string) :
  Forall (fun x => includesChar x LF = false /\ includesChar x DQUOTE = false) physicalLines ->
  splitCsvToRecords (fileOf (String LF "") physicalLines)
  = List.filter keepRecord (map trim physicalLines)
  /\ splitCsvToRecords (fileOf (String CR (String LF "")) physicalLines)
     = List.filter keepRecord (map trim physicalLines)
  /\ parseQuizCsv (fileOf (String CR (String LF "")) physicalLines)
     = parseQuizCsv (fileOf (String LF "") physicalLines).
Proof.
  intros H.
  assert (E : splitCsvToRecords (fileOf (String LF "") physicalLines)
              = List.filter keepRecord (map trim physicalLines)
              /\ splitCsvToRecords (fileOf (String CR (String LF "")) physicalLines)
                 = List.filter keepRecord (map trim physicalLines));
    [|destruct E as [E1 E2]; split; [exact E1|]; split; [exact E2|];
      unfold parseQuizCsv, parseQuizCsv_run; now rewrite E1, E2].
  unfold splitCsvToRecords. rewrite !rawRecords_scan. split.
  - pose proof (scanRecords_fileOf "" physicalLines eq_refl eq_refl H) as E.
    change ("" ++ String LF "") with (String LF "") in E. rewrite E.
    rewrite map_map. f_equal. apply map_ext. intros x. now rewrite append_empty_r.
  - pose proof (scanRecords_fileOf (String CR "") physicalLines eq_refl eq_refl H) as E.
    change (String CR "" ++ String LF "") with (String CR (String LF "")) in E. rewrite E.
    rewrite map_map. f_equal. apply map_ext. intros x. now apply trim_append_white.
Qed.

Lemma splitCsvToRecords_line_endings_witness :
  splitCsvToRecords (fileOf (String CR (String LF "")) ["NewQuestion,WR"; ""; " Title,T "])
  = ["NewQuestion,WR"; "Title,T"].
Proof.
  refine (proj1 (proj2 (splitCsvToRecords_line_endings ["NewQuestion,WR"; ""; " Title,T "] _))).
  repeat constructor.
Defined.

(** ** More on the tokenizer *)




Lemma includesChar_append (s t : string) (c : ascii) :
  includesChar (s ++ t) c = includesChar s c || includesChar t c.
Proof.
  induction s as [|x s IH]; [reflexivity|]. simpl. now rewrite IH, orb_assoc.
Qed.

Lemma includesChar_trimStart (s : string) (c : ascii) :
  includesChar s c = false -> includesChar (trimStart s) c = false.
Proof.
  induction s as [|x s IH]; [reflexivity|]. simpl. intros H.
  destruct (isWhite x); [|exact H]. apply orb_false_iff in H as [_ H]. now apply IH.
Qed.

Lemma includesChar_trimEnd (s : string) (c : ascii) :
  includesChar s c = false -> includesChar (trimEnd s) c = false.
Proof.
  induction s as [|x s IH]; [reflexivity|]. simpl. intros H.
  apply orb_false_iff in H as [Hx H].
  destruct (isWhite x && (trimEnd s =? "")); [reflexivity|].
  simpl. now rewrite Hx, (IH H).
Qed.

Lemma includesChar_trim (s : string) (c : ascii) :
  includesChar s c = false -> includesChar (trim s) c = false.
Proof. intros H. unfold trim. now apply includesChar_trimEnd, includesChar_trimStart. Qed.

Lemma endsWith_includesChar (s : string) (c : ascii) :
  includesChar s c = false -> endsWith s c = false.
Proof.
  induction s as [|x s IH]; [reflexivity|]. simpl. intros H.
  apply orb_false_iff in H as [Hx H]. destruct s; [exact Hx | now apply IH].
Qed.

Lemma stripEdgeQuotes_plain (t : string) :
  includesChar t DQUOTE = false -> stripEdgeQuotes t = t.
Proof.
  intros H. unfold stripEdgeQuotes. destruct t as [|c t]; [reflexivity|].
  pose proof (endsWith_includesChar _ _ H) as He.
  simpl in H. apply orb_false_iff in H as [Hc _]. now rewrite Hc, He.
Qed.

Lemma splitCommas_from_plain (row : string) :
  forall current,
    includesChar row DQUOTE = false -> includesChar current DQUOTE = false ->
    Forall (fun c => includesChar c DQUOTE = false) (splitCommas_from row current).
Proof.
  induction row as [|x row IH]; intros cur Hrow Hcur.
  - repeat constructor. exact Hcur.
  - simpl in Hrow. apply orb_false_iff in Hrow as [Hx Hrow]. simpl.
    destruct (Ascii.eqb x COMMA).
    + constructor; [exact Hcur | now apply IH].
    + apply IH; [exact Hrow|]. rewrite includesChar_append, Hcur. simpl. now rewrite Hx.
Qed.

Lemma splitCsvRow_loop_plain (row : string) :
  forall result cell,
    includesChar row DQUOTE = false ->
    splitCsvRow_loop row result cell false
    = (result ++ map trim (splitCommas_from row cell))%list.
Proof.
  induction row as [|x row IH]; intros result cell H; [reflexivity|].
  simpl in H. apply orb_false_iff in H as [Hx H]. simpl. rewrite Hx.
  destruct (Ascii.eqb x COMMA); simpl.
  - rewrite (IH _ _ H). now rewrite <- app_assoc.
  - now apply IH.
Qed.

(** X7. On a row without double quotes the tokenizer returns the pieces
    between the commas, trimmed, which is also what the tokenizer of the
    superseded parser returns. *)
Theorem splitCsvRow_without_quotes (row : string) :
  includesChar row DQUOTE = false ->
  splitCsvRow row = map trim (splitCommas_from row "")
  /\ splitCsvRow row = oldSplitCells row.
Proof.
  intros H.
  pose proof (splitCommas_from_plain row "" H eq_refl) as Hcells.
  unfold splitCsvRow, oldSplitCells. rewrite (splitCsvRow_loop_plain row [] "" H). simpl.
  rewrite map_map. split.
  - apply map_ext_Forall. eapply Forall_impl; [|exact Hcells].
    intros c Hc. apply stripCellQuotes_plain. now apply includesChar_trim.
  - apply map_ext_Forall. eapply Forall_impl; [|exact Hcells].
    intros c Hc. simpl.
    rewrite stripCellQuotes_plain, stripEdgeQuotes_plain; auto using includesChar_trim.
Qed.

Lemma splitCsvRow_without_quotes_witness :
  splitCsvRow " Option , 100,, Paris " = ["Option"; "100"; ""; "Paris"]
  /\ splitCsvRow " Option , 100,, Paris " = oldSplitCells " Option , 100,, Paris ".
Proof.
  exact (splitCsvRow_without_quotes " Option , 100,, Paris " eq_refl).
Defined.

Lemma splitCsvRow_loop_length :
  forall n row, (String.length row <= n)%nat ->
  forall result cell inQuotes,
    (length result + 1 <= length (splitCsvRow_loop row result cell inQuotes)
     <= length result + 1 + countChar row COMMA)%nat.
Proof.
  induction n as [|n IH]; intros row Hn result cell inQ.
  - destruct row; [|simpl in Hn; lia]. simpl. rewrite length_app. simpl. lia.
  - destruct row as [|c row]; [simpl; rewrite length_app; simpl; lia|].
    simpl in Hn. simpl.
    destruct (Ascii.eqb c DQUOTE) eqn:Ec.
    + assert (Hc : Ascii.eqb c COMMA = false).
      { apply Ascii.eqb_eq in Ec. subst c. reflexivity. }
      rewrite Hc. destruct row as [|c2 row'].
      * specialize (IH "" ltac:(simpl; lia) result cell (negb inQ)). simpl in *. lia.
      * destruct (inQ && Ascii.eqb c2 DQUOTE) eqn:E2.
        -- apply andb_true_iff in E2 as [_ E2]. apply Ascii.eqb_eq in E2. subst c2.
           simpl in Hn.
           specialize (IH row' ltac:(lia) result (cell ++ String DQUOTE "")%string inQ).
           simpl. lia.
        -- specialize (IH (String c2 row') ltac:(simpl in *; lia) result cell (negb inQ)).
           simpl in *. lia.
    + destruct (Ascii.eqb c COMMA) eqn:Ecomma; simpl.
      * destruct (negb inQ).
        -- specialize (IH row ltac:(lia) (result ++ [trim cell])%list ""%string inQ).
           rewrite length_app in IH. simpl in IH. lia.
        -- specialize (IH row ltac:(lia) result (cell ++ String c "")%string inQ). lia.
      * specialize (IH row ltac:(lia) result (cell ++ String c "")%string inQ). lia.
Qed.

(** X8. A row is split into at least one cell and into no more cells than
    it has commas plus one, so that a cell asked for beyond the commas of a
    short row is read by [getValue] as the default value. *)
Theorem splitCsvRow_cells_bounded (row : string) (index : nat) (defaultValue : string) :
  (1 <= length (splitCsvRow row) <= 1 + countChar row COMMA)%nat
  /\ ((countChar row COMMA < index)%nat ->
      getValue (splitCsvRow row) index defaultValue = defaultValue).
Proof.
  assert (H : (1 <= length (splitCsvRow row) <= 1 + countChar row COMMA)%nat).
  { unfold splitCsvRow. rewrite length_map.
    pose proof (splitCsvRow_loop_length (String.length row) row (le_n _) [] "" false) as H.
    simpl in H. lia. }
  split; [exact H|]. intros Hi. unfold getValue.
  rewrite (lookup_ge_None_2 (splitCsvRow row) index) by lia. reflexivity.
Qed.

Lemma splitCsvRow_cells_bounded_witness :
  getValue (splitCsvRow "Option,100,Paris") 5 "none" = "none".
Proof.
  apply (proj2 (splitCsvRow_cells_bounded "Option,100,Paris" 5 "none")).
  vm_compute. lia.
Defined.

(** ** Properties kept by every question *)

Local Open Scope list_scope.

Section QuestionInvariant.

Variable P : nat -> PartialQuestion -> Prop.

Hypothesis P_mono : forall n m q, (n <= m)%nat -> P n q -> P m q.
Hypothesis P_new : forall n code, isKnownType code = true -> P n (newQuestion code).
Hypothesis P_row : forall n row q q' out,
    P n q -> processRow (S n) row q = Completed q' out -> P (S n) q'.

Lemma stepRow_holdsThroughout (st : ParserState) (rawRecord : string) (row : list string) :
  holdsThroughout P st -> holdsThroughout P (stepRow st rawRecord row).
Proof.
  intros [Hc Hq].
  assert (Hc' : Forall (P (S (currentLineNumber st))) (collected st)).
  { eapply Forall_impl; [|exact Hc]. intros q. apply P_mono. lia. }
  unfold stepRow. cbv zeta.
  destruct (toLowerCase (getValue row 0 "") =? "newquestion").
  - assert (Hclose : Forall (P (S (currentLineNumber st)))
                       (fst (closeCurrent (S (currentLineNumber st)) st))).
    { unfold closeCurrent. destruct (currentQuestion st) as [q|] eqn:Eq; [|exact Hc'].
      destruct (requiredPresent q); [|exact Hc']. simpl.
      apply Forall_app. split; [exact Hc'|]. constructor; [|constructor].
      apply (P_mono (currentLineNumber st)); [lia | now apply Hq]. }
    destruct (closeCurrent _ st) as [qs out]. simpl in Hclose.
    destruct (isKnownType (getValue row 1 "")) eqn:Ek; simpl; split; simpl;
      try exact Hclose; try discriminate.
    intros q [= <-]. now apply P_new.
  - destruct (currentQuestion st) as [q|] eqn:Eq.
    + destruct (processRow (S (currentLineNumber st)) row q) as [q' out|] eqn:Ep;
        split; simpl; try exact Hc'.
      * intros ? [= <-]. exact (P_row _ row q q' out (Hq q eq_refl) Ep).
      * intros ? [= <-]. apply (P_mono (currentLineNumber st)); [lia | now apply Hq].
    + split; simpl; [exact Hc' | discriminate].
Qed.

Lemma runRecords_holdsThroughout (records : list string) :
  forall st, holdsThroughout P st -> holdsThroughout P (runRecords records st).
Proof.
  induction records as [|r records IH]; intros st H; [exact H|].
  simpl. apply IH. now apply stepRow_holdsThroughout.
Qed.

Lemma finish_holdsThroughout (st : ParserState) :
  holdsThroughout P st -> holdsThroughout P (finish st).
Proof.
  intros [Hc Hq]. unfold finish.
  destruct (currentQuestion st) as [q|] eqn:Eq; [|split; [exact Hc | now rewrite Eq]].
  destruct (lastQuestionSkipReason q); split; simpl; try exact Hc; try exact Hq.
  apply Forall_app. split; [exact Hc|]. constructor; [|constructor]. now apply Hq.
Qed.

Lemma parseQuizCsv_holds (csvContent : string) (q : PartialQuestion) :
  In q (questions (parseQuizCsv csvContent)) ->
  P (length (splitCsvToRecords csvContent)) q.
Proof.
  intros Hin.
  assert (H0 : holdsThroughout P initialState) by (split; [constructor | discriminate]).
  pose proof (finish_holdsThroughout _
                (runRecords_holdsThroughout (splitCsvToRecords csvContent) _ H0)) as [Hc _].
  rewrite Forall_forall in Hc. specialize (Hc q Hin).
  replace (currentLineNumber (finish (runRecords (splitCsvToRecords csvContent) initialState)))
    with (length (splitCsvToRecords csvContent)) in Hc; [exact Hc|].
  unfold finish. destruct (currentQuestion _) as [q0|] eqn:E.
  - destruct (lastQuestionSkipReason q0); simpl; now rewrite currentLineNumber_run.
  - now rewrite currentLineNumber_run.
Qed.

End QuestionInvariant.

(** ** The choice numbers of matching pairs *)

Lemma map_choiceNo_insert (ps : list MatchingPair) (i : nat) (p p' : MatchingPair) :
  ps !! i = Some p -> choiceNo p' = choiceNo p ->
  map choiceNo (<[i := p']> ps) = map choiceNo ps.
Proof.
  revert i. induction ps as [|x ps IH]; intros [|i] H E; simpl in *; try discriminate.
  - injection H as ->. now rewrite E.
  - now rewrite (IH i H E).
Qed.

Lemma pairsKeyed_same (q q' : PartialQuestion) :
  default [] (pairs q') = default [] (pairs q) -> pairsKeyed q -> pairsKeyed q'.
Proof. unfold pairsKeyed. now intros ->. Qed.

Lemma pairsKeyed_update (q : PartialQuestion) (i : nat) (p p' : MatchingPair) :
  default [] (pairs (ensurePairs q)) !! i = Some p ->
  choiceNo p' = choiceNo p ->
  pairsKeyed q ->
  pairsKeyed (set_pairs (Some (<[i := p']> (default [] (pairs (ensurePairs q))))) (ensurePairs q)).
Proof.
  rewrite pairs_ensurePairs. intros Hi E [Hnd Hpos]. unfold pairsKeyed. simpl.
  rewrite (map_choiceNo_insert _ i p p' Hi E). split; [exact Hnd|].
  apply Forall_insert; [exact Hpos|]. rewrite E.
  rewrite Forall_forall in Hpos. apply Hpos.
  apply list_elem_of_In, list_elem_of_lookup. eauto.
Qed.

Lemma pairsKeyed_append (q : PartialQuestion) (p : MatchingPair) :
  Forall (fun x => choiceNo x <> choiceNo p) (default [] (pairs (ensurePairs q))) ->
  (0 < choiceNo p)%Z ->
  pairsKeyed q ->
  pairsKeyed (set_pairs (Some (default [] (pairs (ensurePairs q)) ++ [p])) (ensurePairs q)).
Proof.
  rewrite pairs_ensurePairs. intros Hnew Hp [Hnd Hpos]. unfold pairsKeyed. simpl.
  split.
  - rewrite map_app. apply list.NoDup_app. split; [exact Hnd|]. split.
    + intros x Hx Hx'. apply list_elem_of_In in Hx. apply in_map_iff in Hx as (y & <- & Hy).
      simpl in Hx'. apply list_elem_of_In in Hx'. destruct Hx' as [E|[]].
      rewrite Forall_forall in Hnew. exact (Hnew y Hy (eq_sym E)).
    + apply NoDup_singleton.
  - apply Forall_app. split; [exact Hpos|]. now constructor.
Qed.

Lemma onChoice_pairsKeyed (n : nat) (v v2 : string) (q q' : PartialQuestion)
    (out : list Diagnostic) :
  pairsKeyed q -> onChoice n v v2 q = Completed q' out -> pairsKeyed q'.
Proof.
  intros H. unfold onChoice. destruct (typeIs q "M"); [|now intros [= <- <-]].
  cbv zeta. destruct (safeParseInt v 0 <=? 0)%Z eqn:Epos.
  { intros [= <- <-]. apply (pairsKeyed_same q); [apply pairs_ensurePairs | exact H]. }
  apply Z.leb_gt in Epos. unfold findPair.
  destruct (list_find _ _) as [[i found]|] eqn:Ef; intros [= <- <-].
  - apply list_find_Some in Ef as (Hi & _ & _).
    now apply (pairsKeyed_update q i found).
  - apply list_find_None in Ef. now apply pairsKeyed_append.
Qed.

Lemma onMatch_pairsKeyed (n : nat) (v v2 : string) (q q' : PartialQuestion)
    (out : list Diagnostic) :
  pairsKeyed q -> onMatch n v v2 q = Completed q' out -> pairsKeyed q'.
Proof.
  intros H. unfold onMatch. destruct (typeIs q "M"); [|now intros [= <- <-]].
  cbv zeta. destruct (safeParseInt v 0 <=? 0)%Z eqn:Epos.
  { intros [= <- <-]. apply (pairsKeyed_same q); [apply pairs_ensurePairs | exact H]. }
  apply Z.leb_gt in Epos. unfold findPair.
  destruct (list_find _ _) as [[i found]|] eqn:Ef; intros [= <- <-].
  - apply list_find_Some in Ef as (Hi & _ & _).
    now apply (pairsKeyed_update q i found).
  - apply list_find_None in Ef. now apply pairsKeyed_append.
Qed.

Lemma onFeedback_pairs (v : string) (q q' : PartialQuestion) (out : list Diagnostic) :
  onFeedback v q = Completed q' out -> pairs q' = pairs q.
Proof.
  unfold onFeedback.
  repeat match goal with
         | |- context [if ?b then _ else _] => destruct b
         | |- context [match options q with _ => _ end] => destruct (options q)
         | |- context [match items q with _ => _ end] => destruct (items q)
         | |- context [match trueOption q with _ => _ end] => destruct (trueOption q)
         | |- context [match assignLast ?f ?l with _ => _ end] => destruct (assignLast f l)
         end;
    try discriminate; now intros [= <- <-].
Qed.

Lemma processRow_pairsKeyed (n : nat) (row : list string) (q q' : PartialQuestion)
    (out : list Diagnostic) :
  pairsKeyed q -> processRow n row q = Completed q' out -> pairsKeyed q'.
Proof.
  intros H. unfold processRow. cbv zeta.
  repeat match goal with
  | |- context [if toLowerCase (getValue row 0 "") =? ?k then _ else _] =>
      destruct (toLowerCase (getValue row 0 "") =? k) eqn:?
  end;
  try (intros [= <- <-]; exact H).
  - intros Hf. apply (pairsKeyed_same q); [|exact H]. now rewrite (onFeedback_pairs _ _ _ _ Hf).
  - destruct (typeIs q "SA"); intros [= <- <-]; exact H.
  - destruct (typeIs q "M" || typeIs q "MS" || typeIs q "O"); intros [= <- <-]; exact H.
  - now apply onChoice_pairsKeyed.
  - now apply onMatch_pairsKeyed.
  - unfold onOption. destruct (typeIs q "MC"); [|destruct (typeIs q "MS")];
      intros [= <- <-]; exact H.
  - destruct (typeIs q "TF"); intros [= <- <-]; exact H.
  - destruct (typeIs q "TF"); intros [= <- <-]; exact H.
  - unfold onItem. destruct (typeIs q "O"); intros [= <- <-]; exact H.
  - destruct (negb _ && negb _); intros [= <- <-]; exact H.
Qed.

(** X9. In every question of the returned quiz the choice numbers of the
    matching pairs are positive and no two pairs have the same number: a
    [choice] or [match] record with a number already there updates the pair,
    and one with a number that is not positive is left out. *)
Theorem pairs_have_distinct_positive_numbers (csvContent : string) (q : PartialQuestion) :
  In q (questions (parseQuizCsv csvContent)) ->
  NoDup (map choiceNo (default [] (pairs q)))
  /\ Forall (fun p => (0 < choiceNo p)%Z) (default [] (pairs q)).
Proof.
  intros Hin.
  apply (parseQuizCsv_holds (fun _ => pairsKeyed)) with (csvContent := csvContent).
  - auto.
  - intros _ code _. split; constructor.
  - intros n row q0 q' out. apply processRow_pairsKeyed.
  - exact Hin.
Qed.

Lemma pairs_have_distinct_positive_numbers_witness :
  exists q, In q (questions (parseQuizCsv sampleMatching))
            /\ NoDup (map choiceNo (default [] (pairs q))).
Proof.
  eexists. split.
  - vm_compute. left. reflexivity.
  - refine (proj1 (pairs_have_distinct_positive_numbers sampleMatching _ _)).
    vm_compute. left. reflexivity.
Defined.

(** ** The properties of each variant *)

Local Ltac keep_fields H :=
  destruct H as [? ? ? ? ? ? ? ?]; constructor; simpl;
  try assumption; try (intros; assumption).

Lemma forallb_insert {A} (f : A -> bool) (l : list A) (i : nat) (x : A) :
  forallb f l = true -> f x = true -> forallb f (<[i := x]> l) = true.
Proof.
  revert i. induction l as [|y l IH]; intros i Hl Hx; [reflexivity|].
  simpl in Hl. apply andb_true_iff in Hl as [Hy Hl].
  destruct i; simpl; [now rewrite Hx | now rewrite Hy, IH].
Qed.

Lemma forallb_lookup {A} (f : A -> bool) (l : list A) (i : nat) (x : A) :
  forallb f l = true -> l !! i = Some x -> f x = true.
Proof.
  revert i. induction l as [|y l IH]; intros i Hl Hi; [destruct i; discriminate|].
  simpl in Hl. apply andb_true_iff in Hl as [Hy Hl].
  destruct i; simpl in Hi; [now injection Hi as <- | now apply (IH i)].
Qed.

Lemma assignLast_forallb {A} (f : A -> A) (p : A -> bool) (l l' : list A) :
  (forall x, p (f x) = p x) ->
  assignLast f l = Some l' -> forallb p l = true -> forallb p l' = true.
Proof.
  intros Hf. unfold assignLast. destruct (l !! _) as [x|] eqn:E; [|discriminate].
  intros [= <-] Hl. apply forallb_insert; [exact Hl|].
  rewrite Hf. exact (forallb_lookup p l _ x Hl E).
Qed.

Lemma onFeedback_variantFields (v : string) (q q' : PartialQuestion) (out : list Diagnostic) :
  variantFields q -> onFeedback v q = Completed q' out -> variantFields q'.
Proof.
  intros H. unfold onFeedback.
  assert (Hopt : forall os os',
             options q = Some os -> assignLast (withOptionFeedback v) os = Some os' ->
             variantFields (set_options (Some os') q)).
  { intros os os' Eo Ea. keep_fields H. intros os0 [= <-].
    destruct (vf_options0 os Eo) as [[Ht Hf] | [Ht Hf]]; [left | right];
      (split; [exact Ht|]);
      (eapply assignLast_forallb; [| exact Ea | exact Hf]); now intros []. }
  destruct (typeIs q "MC" && hasElements (options q)).
  { destruct (options q) as [os|] eqn:Eo; [|now intros [= <- <-]].
    destruct (assignLast _ os) as [os'|] eqn:Ea; [|discriminate].
    intros [= <- <-]. now apply (Hopt os). }
  destruct (typeIs q "MS" && hasElements (options q)).
  { destruct (options q) as [os|] eqn:Eo; [|now intros [= <- <-]].
    destruct (assignLast _ os) as [os'|] eqn:Ea; [|discriminate].
    intros [= <- <-]. now apply (Hopt os). }
  destruct (typeIs q "TF") eqn:Et.
  { apply typeIs_true in Et.
    destruct (falseOptionTakesFeedback q); [|destruct (trueOption q)];
      intros [= <- <-]; keep_fields H. }
  destruct (typeIs q "O" && hasElements (items q)) eqn:Ei.
  { apply andb_true_iff in Ei as [Ei _]. apply typeIs_true in Ei.
    destruct (items q) as [its|]; [|now intros [= <- <-]].
    destruct (assignLast _ its); [|discriminate].
    intros [= <- <-]. keep_fields H. }
  intros [= <- <-]. keep_fields H.
Qed.

Lemma variantFields_ensurePairs (q : PartialQuestion) :
  type q = Some "M" -> variantFields q -> variantFields (ensurePairs q).
Proof.
  intros Ht H. unfold ensurePairs. destruct (pairs q); [exact H|]. keep_fields H.
Qed.

Lemma variantFields_set_pairs (v : option (list MatchingPair)) (q : PartialQuestion) :
  type q = Some "M" -> variantFields q -> variantFields (set_pairs v q).
Proof. intros Ht H. keep_fields H. Qed.

Lemma onChoice_variantFields (n : nat) (v v2 : string) (q q' : PartialQuestion)
    (out : list Diagnostic) :
  variantFields q -> onChoice n v v2 q = Completed q' out -> variantFields q'.
Proof.
  intros H. unfold onChoice. destruct (typeIs q "M") eqn:Et; [|now intros [= <- <-]].
  apply typeIs_true in Et. cbv zeta.
  assert (Ht' : type (ensurePairs q) = Some "M")
    by (now rewrite (proj1 (ensurePairs_fields q))).
  pose proof (variantFields_ensurePairs q Et H) as H'.
  destruct (safeParseInt v 0 <=? 0)%Z; [now intros [= <- <-]|].
  destruct (findPair _ _) as [[i found]|]; intros [= <- <-];
    now apply variantFields_set_pairs.
Qed.

Lemma onMatch_variantFields (n : nat) (v v2 : string) (q q' : PartialQuestion)
    (out : list Diagnostic) :
  variantFields q -> onMatch n v v2 q = Completed q' out -> variantFields q'.
Proof.
  intros H. unfold onMatch. destruct (typeIs q "M") eqn:Et; [|now intros [= <- <-]].
  apply typeIs_true in Et. cbv zeta.
  assert (Ht' : type (ensurePairs q) = Some "M")
    by (now rewrite (proj1 (ensurePairs_fields q))).
  pose proof (variantFields_ensurePairs q Et H) as H'.
  destruct (safeParseInt v 0 <=? 0)%Z; [now intros [= <- <-]|].
  destruct (findPair _ _) as [[i found]|]; intros [= <- <-];
    now apply variantFields_set_pairs.
Qed.

Lemma onOption_variantFields (n : nat) (v v2 v3 v4 v5 : string) (q q' : PartialQuestion)
    (out : list Diagnostic) :
  variantFields q -> onOption n v v2 v3 v4 v5 q = Completed q' out -> variantFields q'.
Proof.
  intros H. unfold onOption.
  destruct (typeIs q "MC") eqn:Emc.
  { apply typeIs_true in Emc. intros [= <- <-]. keep_fields H.
    intros os [= <-]. left. split; [exact Emc|].
    rewrite forallb_app. simpl. rewrite andb_true_r.
    destruct (options q) as [old|] eqn:Eo; [|reflexivity]. simpl.
    destruct (vf_options0 old eq_refl) as [[_ Hf] | [Ht _]]; [exact Hf | congruence]. }
  destruct (typeIs q "MS") eqn:Ems; [|now intros [= <- <-]].
  apply typeIs_true in Ems. intros [= <- <-]. keep_fields H.
  intros os [= <-]. right. split; [exact Ems|].
  rewrite forallb_app. simpl. rewrite andb_true_r.
  destruct (options q) as [old|] eqn:Eo; [|reflexivity]. simpl.
  destruct (vf_options0 old eq_refl) as [[Ht _] | [_ Hf]]; [congruence | exact Hf].
Qed.

Lemma processRow_variantFields (n : nat) (row : list string) (q q' : PartialQuestion)
    (out : list Diagnostic) :
  variantFields q -> processRow n row q = Completed q' out -> variantFields q'.
Proof.
  intros H. unfold processRow. cbv zeta.
  repeat match goal with
  | |- context [if toLowerCase (getValue row 0 "") =? ?k then _ else _] =>
      destruct (toLowerCase (getValue row 0 "") =? k) eqn:?
  end;
  try (intros [= <- <-]; keep_fields H; fail).
  - now apply onFeedback_variantFields.
  - destruct (typeIs q "SA") eqn:Et; [apply typeIs_true in Et|];
      intros [= <- <-]; [keep_fields H | exact H].
  - destruct (typeIs q "M" || typeIs q "MS" || typeIs q "O") eqn:Et;
      intros [= <- <-]; [|exact H].
    apply orb_true_iff in Et as [Et | Et]; [apply orb_true_iff in Et as [Et | Et]|];
      apply typeIs_true in Et; keep_fields H; auto.
  - now apply onChoice_variantFields.
  - now apply onMatch_variantFields.
  - now apply onOption_variantFields.
  - destruct (typeIs q "TF") eqn:Et; [apply typeIs_true in Et|];
      intros [= <- <-]; [keep_fields H | exact H].
  - destruct (typeIs q "TF") eqn:Et; [apply typeIs_true in Et|];
      intros [= <- <-]; [keep_fields H | exact H].
  - unfold onItem. destruct (typeIs q "O") eqn:Et; [apply typeIs_true in Et|];
      intros [= <- <-]; [keep_fields H | exact H].
  - destruct (negb _ && negb _); intros [= <- <-]; exact H.
Qed.

(** X10. Of the properties that belong to one variant, the eight that the
    assembler writes under a test of the type are found only in the returned
    questions of a type that owns them: pairs in a matching question,
    options in a multiple-choice or multi-select question, each of the kind
    of the question, true and false options in a true/false question, items
    in an ordering question, a best answer and an evaluation mode in a
    short-answer question, a scoring mode in a matching, multi-select or
    ordering question.  The other three are written without a test of the
    type, and a question of any type can carry them: the multiple-choice
    question of the sample is returned with an initial text, an answer key
    and an input box. *)
Theorem guarded_properties_follow_type :
  (forall (csvContent : string) (q : PartialQuestion),
      In q (questions (parseQuizCsv csvContent)) -> variantFields q)
  /\ map (fun q => (type q, initialText q, answerKey q, inputBox q))
         (questions (parseQuizCsv sampleUnguarded))
     = [(Some "MC"%string, Some "start here"%string, Some "the key"%string,
         Some {| rows := 3; cols := 40 |})].
Proof.
  split; [|vm_compute; reflexivity].
  intros csvContent q Hin.
  apply (parseQuizCsv_holds (fun _ => variantFields)) with (csvContent := csvContent).
  - auto.
  - intros _ code _. constructor; simpl; congruence.
  - intros n row q0 q' out. apply processRow_variantFields.
  - exact Hin.
Qed.

Lemma guarded_properties_follow_type_witness :
  exists q, In q (questions (parseQuizCsv sampleMatching)) /\ variantFields q.
Proof.
  eexists. split.
  - vm_compute. left. reflexivity.
  - apply (proj1 guarded_properties_follow_type sampleMatching).
    vm_compute. left. reflexivity.
Defined.

(** ** Record numbers and counts *)

(** X11. In every question of the returned quiz, the record indices kept in
    the true and false options are numbers of records of the input, from 1
    to the number of records, and the two options of a question never carry
    the same index. *)
Theorem true_false_options_record_indices (csvContent : string) (q : PartialQuestion) :
  In q (questions (parseQuizCsv csvContent)) ->
  (forall t, trueOption q = Some t ->
             (1 <= definedLine t <= length (splitCsvToRecords csvContent))%nat)
  /\ (forall f, falseOption q = Some f ->
                (1 <= definedLine f <= length (splitCsvToRecords csvContent))%nat)
  /\ (forall t f, trueOption q = Some t -> falseOption q = Some f ->
                  definedLine t <> definedLine f).
Proof.
  intros Hin.
  assert (H : building (length (splitCsvToRecords csvContent)) q).
  { apply (parseQuizCsv_holds building) with (csvContent := csvContent).
    - intros n m q0 Hnm. now apply building_same.
    - intros n code. apply building_newQuestion.
    - intros n row q0 q' out Hb Hp.
      destruct (processRow_building n row q0 Hb) as (q1 & out1 & E & Hq1 & _).
      rewrite E in Hp. now injection Hp as <- <-.
    - exact Hin. }
  destruct H as [_ Ht Hf Hd]. split; [|split].
  - intros t E. now rewrite E in Ht.
  - intros f E. now rewrite E in Hf.
  - intros t f Et Ef. now rewrite Et, Ef in Hd.
Qed.

Lemma true_false_options_record_indices_witness :
  exists q, In q (questions (parseQuizCsv sampleTrueFalse))
            /\ forall t f, trueOption q = Some t -> falseOption q = Some f ->
                           definedLine t <> definedLine f.
Proof.
  eexists. split.
  - vm_compute. left. reflexivity.
  - refine (proj2 (proj2 (true_false_options_record_indices sampleTrueFalse _ _))).
    vm_compute. left. reflexivity.
Defined.

Lemma step_count (st : ParserState) (rawRecord : string) :
  (length (collected (step st rawRecord)) + pending (step st rawRecord)
   <= length (collected st) + pending st
      + (if opensQuestion rawRecord then 1 else 0))%nat.
Proof.
  unfold step, stepRow, opensQuestion. cbv zeta.
  fold (keyOf rawRecord). fold (typeCodeOf rawRecord).
  destruct (keyOf rawRecord =? "newquestion").
  - assert (Hc : (length (fst (closeCurrent (S (currentLineNumber st)) st))
                  <= length (collected st) + pending st)%nat).
    { unfold closeCurrent, pending. destruct (currentQuestion st) as [q|]; [|simpl; lia].
      destruct (requiredPresent q); simpl; [rewrite length_app; simpl; lia | lia]. }
    destruct (closeCurrent _ st) as [qs out]. simpl in Hc.
    destruct (isKnownType (typeCodeOf rawRecord)); simpl; unfold pending in *; simpl; lia.
  - unfold pending. destruct (currentQuestion st) as [q|]; [|simpl; lia].
    destruct (processRow _ _ q); simpl; lia.
Qed.

Lemma runRecords_count (records : list string) :
  forall st,
    (length (collected (runRecords records st)) + pending (runRecords records st)
     <= length (collected st) + pending st + length (List.filter opensQuestion records))%nat.
Proof.
  induction records as [|r records IH]; intros st; [simpl; lia|].
  simpl. specialize (IH (step st r)). pose proof (step_count st r) as Hs.
  destruct (opensQuestion r); simpl; lia.
Qed.

(** X12. The quiz never has more questions than the input has
    [NewQuestion] records with one of the seven type codes. *)
Theorem questions_bounded_by_NewQuestion_records (csvContent : string) :
  (length (questions (parseQuizCsv csvContent))
   <= length (List.filter opensQuestion (splitCsvToRecords csvContent)))%nat.
Proof.
  unfold parseQuizCsv, parseQuizCsv_run. simpl.
  pose proof (runRecords_count (splitCsvToRecords csvContent) initialState) as H.
  simpl in H. unfold finish, pending in *.
  destruct (currentQuestion _) as [q|]; [|lia].
  destruct (lastQuestionSkipReason q); simpl; [lia|]. rewrite length_app. simpl. lia.
Qed.

(** X13. The records before the first [NewQuestion] record are left out:
    the questions are those of the input without these records, with the
    record indices of the true/false options larger by their number. *)
Theorem leading_records_left_out (csvContent csvRest : string) (leading rest : list string) :
  splitCsvToRecords csvContent = leading ++ rest ->
  splitCsvToRecords csvRest = rest ->
  Forall (fun r => keyOf r <> "newquestion") leading ->
  questions (parseQuizCsv csvContent)
  = map (shiftLines (length leading)) (questions (parseQuizCsv csvRest)).
Proof.
  intros Hcsv Hrest Hlead. unfold parseQuizCsv, parseQuizCsv_run. simpl.
  rewrite Hcsv, Hrest, runRecords_app.
  rewrite (runRecords_idle leading initialState eq_refl Hlead). simpl.
  assert (Hsh : shifted (length leading) []
                  {| collected := []; currentQuestion := None;
                     currentLineNumber := length leading; console := [] |} initialState).
  { constructor; simpl; [now exists [] | reflexivity | reflexivity]. }
  destruct (finish_shifted _ _ _ _
              (runRecords_shifted _ _ rest _ _ initialState_wellFormed Hsh))
    as [(later & Hb & Ha) _ _].
  simpl in Hb, Ha. now rewrite Ha, Hb.
Qed.

Lemma leading_records_left_out_witness :
  questions (parseQuizCsv (lines (["exported by a tool"; "Title,lost"] ++ sampleAfterBlock)))
  = map (shiftLines 2) (questions (parseQuizCsv sampleWithoutBlock)).
Proof.
  apply (leading_records_left_out _ sampleWithoutBlock
           ["exported by a tool"; "Title,lost"] sampleAfterBlock).
  - vm_compute. reflexivity.
  - vm_compute. reflexivity.
  - repeat constructor; discriminate.
Defined.

(** ** Keys *)

Lemma key_of_row (key : string) (cells : list string) :
  toLowerCase (getValue (key :: cells) 0 "") = toLowerCase key.
Proof.
  unfold getValue. simpl. destruct (key =? "")%string eqn:E; [|reflexivity].
  apply String.eqb_eq in E. now subst.
Qed.

(** X14. The key of a row is read without regard to case: two rows whose
    first cells differ by the case of their letters only, and whose other
    cells are the same, move the parser to the same state. *)
Theorem keys_are_case_insensitive (st : ParserState) (rawRecord key key' : string)
    (cells : list string) :
  toLowerCase key = toLowerCase key' ->
  stepRow st rawRecord (key :: cells) = stepRow st rawRecord (key' :: cells).
Proof.
  intros H. unfold stepRow, processRow. cbv zeta. rewrite !key_of_row, H. reflexivity.
Qed.

Lemma keys_are_case_insensitive_witness :
  stepRow initialState "r" ["NEWQUESTION"; "MC"] = stepRow initialState "r" ["NewQuestion"; "MC"].
Proof.
  apply keys_are_case_insensitive. reflexivity.
Defined.

Lemma typeIs_false (q : PartialQuestion) (code : string) :
  type q <> Some code -> typeIs q code = false.
Proof.
  intros H. destruct (typeIs q code) eqn:E; [|reflexivity].
  apply typeIs_true in E. contradiction.
Qed.

(** X15. A record whose key belongs to other question types than the one
    being built ([answer], [scoring], [choice], [match], [option], [true],
    [false], [item]) changes nothing in the question and writes one warning
    that names the key and the type of the question. *)
Theorem row_of_other_type_changes_nothing (n : nat) (row : list string) (q : PartialQuestion)
    (key name : string) (types : list string) :
  In (key, (name, types)) typedKeys ->
  toLowerCase (getValue row 0 "") = key ->
  (forall t, In t types -> type q <> Some t) ->
  processRow n row q = Completed q [warn n (RowForOtherType name (type q))].
Proof.
  intros Hin Hk Ht. unfold processRow. cbv zeta. rewrite Hk.
  unfold typedKeys in Hin. simpl in Hin.
  repeat (destruct Hin as [[= <- <- <-] | Hin]); try contradiction; simpl.
  - now rewrite (typeIs_false q "SA") by (apply Ht; simpl; auto).
  - rewrite (typeIs_false q "M"), (typeIs_false q "MS"), (typeIs_false q "O");
      try reflexivity; apply Ht; simpl; auto.
  - unfold onChoice. now rewrite (typeIs_false q "M") by (apply Ht; simpl; auto).
  - unfold onMatch. now rewrite (typeIs_false q "M") by (apply Ht; simpl; auto).
  - unfold onOption. rewrite (typeIs_false q "MC"), (typeIs_false q "MS");
      try reflexivity; apply Ht; simpl; auto.
  - now rewrite (typeIs_false q "TF") by (apply Ht; simpl; auto).
  - now rewrite (typeIs_false q "TF") by (apply Ht; simpl; auto).
  - unfold onItem. now rewrite (typeIs_false q "O") by (apply Ht; simpl; auto).
Qed.

Lemma row_of_other_type_changes_nothing_witness :
  processRow 3 ["Option"; "100"; "Paris"] (newQuestion "WR")
  = Completed (newQuestion "WR") [warn 3 (RowForOtherType "Option" (Some "WR"))].
Proof.
  apply (row_of_other_type_changes_nothing 3 ["Option"; "100"; "Paris"] (newQuestion "WR")
           "option" "Option" ["MC"; "MS"]).
  - simpl. auto 10.
  - reflexivity.
  - intros t [<- | [<- | []]]; discriminate.
Defined.

(** ** The end of the input *)

Lemma existsb_incompletePair_false (ps : list MatchingPair) :
  existsb incompletePair ps = false
  <-> Forall (fun p => choiceText p <> "" /\ matchText p <> "") ps.
Proof.
  induction ps as [|p ps IH]; simpl.
  - split; [constructor | reflexivity].
  - rewrite orb_false_iff, IH. unfold incompletePair. rewrite orb_false_iff, !String.eqb_neq.
    split.
    + intros [[H1 H2] H]. now constructor.
    + intros H. inversion H; subst. tauto.
Qed.

Lemma hasElements_false {A} (arr : option (list A)) :
  negb (hasElements arr) = false <-> exists l, arr = Some l /\ l <> [].
Proof. rewrite negb_false_iff. apply hasElements_true. Qed.

Lemma lastQuestionSkipReason_complete (q : PartialQuestion) :
  lastQuestionSkipReason q = None <-> complete q.
Proof.
  unfold lastQuestionSkipReason, complete.
  destruct (requiredPresent q); simpl; [|split; [discriminate | intros [[=] _]]].
  split.
  - intros H. split; [reflexivity|].
    destruct (typeIs q "M" && _) eqn:E1; [discriminate|].
    destruct (typeIs q "MC" && _) eqn:E2; [discriminate|].
    destruct (typeIs q "TF" && _) eqn:E3; [discriminate|].
    destruct (typeIs q "MS" && _) eqn:E4; [discriminate|].
    destruct (typeIs q "O" && _) eqn:E5; [discriminate|].
    destruct (typeIs q "SA" && _) eqn:E6; [discriminate|].
    split; [|split; [|split; [|split]]].
    + intros Ht. apply typeIs_true in Ht. rewrite Ht in E1. simpl in E1.
      destruct (pairs q) as [ps|]; [|discriminate].
      apply orb_false_iff in E1 as [Hlen Hex]. exists ps. split; [reflexivity|].
      split; [intros ->; discriminate | now apply existsb_incompletePair_false].
    + intros [Ht|Ht]; apply typeIs_true in Ht.
      * rewrite Ht in E2. now apply hasElements_false.
      * rewrite Ht in E4. now apply hasElements_false.
    + intros Ht. apply typeIs_true in Ht. rewrite Ht in E3. simpl in E3.
      apply orb_false_iff in E3 as [E3 E3']. apply negb_false_iff in E3, E3'.
      split; [exact (bool_decide_eq_true_1 _ E3) | exact (bool_decide_eq_true_1 _ E3')].
    + intros Ht. apply typeIs_true in Ht. rewrite Ht in E5. now apply hasElements_false.
    + intros Ht. apply typeIs_true in Ht. rewrite Ht in E6. simpl in E6.
      apply negb_false_iff in E6. exact (bool_decide_eq_true_1 _ E6).
  - intros (_ & HM & Hopt & HTF & HO & HSA).
    destruct (typeIs q "M") eqn:E1; simpl.
    { apply typeIs_true in E1. destruct (HM E1) as (ps & -> & Hne & Hall).
      apply existsb_incompletePair_false in Hall. rewrite Hall.
      destruct ps; [contradiction|]. simpl.
      rewrite (typeIs_code q "M" "MC" E1), (typeIs_code q "M" "TF" E1),
        (typeIs_code q "M" "MS" E1), (typeIs_code q "M" "O" E1), (typeIs_code q "M" "SA" E1).
      reflexivity. }
    destruct (typeIs q "MC") eqn:E2; simpl.
    { apply typeIs_true in E2. destruct (Hopt (or_introl E2)) as (os & Eo & Hne).
      rewrite (proj2 (hasElements_false (options q))) by eauto.
      rewrite (typeIs_code q "MC" "TF" E2), (typeIs_code q "MC" "MS" E2),
        (typeIs_code q "MC" "O" E2), (typeIs_code q "MC" "SA" E2).
      reflexivity. }
    destruct (typeIs q "TF") eqn:E3; simpl.
    { apply typeIs_true in E3. destruct (HTF E3) as [Ht Hf].
      rewrite (bool_decide_eq_true_2 _ Ht), (bool_decide_eq_true_2 _ Hf). simpl.
      rewrite (typeIs_code q "TF" "MS" E3), (typeIs_code q "TF" "O" E3),
        (typeIs_code q "TF" "SA" E3).
      reflexivity. }
    destruct (typeIs q "MS") eqn:E4; simpl.
    { apply typeIs_true in E4. destruct (Hopt (or_intror E4)) as (os & Eo & Hne).
      rewrite (proj2 (hasElements_false (options q))) by eauto.
      rewrite (typeIs_code q "MS" "O" E4), (typeIs_code q "MS" "SA" E4).
      reflexivity. }
    destruct (typeIs q "O") eqn:E5; simpl.
    { apply typeIs_true in E5. destruct (HO E5) as (its & Ei & Hne).
      rewrite (proj2 (hasElements_false (items q))) by eauto.
      rewrite (typeIs_code q "O" "SA" E5). reflexivity. }
    destruct (typeIs q "SA") eqn:E6; simpl; [|reflexivity].
    apply typeIs_true in E6. now rewrite (bool_decide_eq_true_2 _ (HSA E6)).
Qed.

(** X16. The question being built when the input ends is appended to the
    quiz exactly when it is complete: required fields present and, by type,
    at least one pair and every pair with both texts, at least one option,
    both the true and the false option, at least one item, a best answer.
    Otherwise the quiz is left as it is and the last message of the console
    is the warning that names the question and a reason. *)
Theorem last_question_kept_iff_complete (csvContent : string) (q : PartialQuestion) :
  let st := runRecords (splitCsvToRecords csvContent) initialState in
  currentQuestion st = Some q ->
  (complete q -> questions (parseQuizCsv csvContent) = collected st ++ [q])
  /\ (~ complete q ->
      questions (parseQuizCsv csvContent) = collected st
      /\ exists reason,
           list.last (console (parseQuizCsv_run csvContent))
           = Some {| level := Warn; recordNo := None;
                     message := SkippingLast (titleOrNA q) reason |}).
Proof.
  intros st Hq. unfold parseQuizCsv, parseQuizCsv_run. simpl. fold st.
  unfold finish. rewrite Hq.
  destruct (lastQuestionSkipReason q) as [reason|] eqn:E.
  - split.
    + intros Hc. apply lastQuestionSkipReason_complete in Hc. congruence.
    + intros _. split; [reflexivity|]. exists reason. simpl. apply last_snoc.
  - split; [reflexivity|]. intros Hn. exfalso. apply Hn.
    now apply lastQuestionSkipReason_complete.
Qed.

Lemma last_question_kept_iff_complete_witness :
  questions (parseQuizCsv sampleNoOptions) = []
  /\ exists reason,
       list.last (console (parseQuizCsv_run sampleNoOptions))
       = Some {| level := Warn; recordNo := None; message := SkippingLast "T" reason |}.
Proof.
  refine (proj2 (last_question_kept_iff_complete sampleNoOptions
                   (set_questionText (Some "Q") (set_title (Some "T") (newQuestion "MC")))
                   _) _).
  - vm_compute. reflexivity.
  - intros (_ & _ & H & _). destruct (H (or_introl eq_refl)) as (os & [=] & _).
Defined.

Lemma stepRow_grows (st : ParserState) (rawRecord : string) (row : list string) :
  exists more, collected (stepRow st rawRecord row) = collected st ++ more.
Proof.
  unfold stepRow. cbv zeta. destruct (_ =? "newquestion").
  - assert (H : exists more, fst (closeCurrent (S (currentLineNumber st)) st)
                             = collected st ++ more).
    { unfold closeCurrent. destruct (currentQuestion st) as [q|];
        [destruct (requiredPresent q)|]; simpl; eauto using app_nil_r. }
    destruct (closeCurrent _ st) as [qs out]. destruct (isKnownType _); exact H.
  - destruct (currentQuestion st) as [q|]; [destruct (processRow _ row q)|];
      exists []; simpl; now rewrite app_nil_r.
Qed.

Lemma runRecords_grows (records : list string) :
  forall st, exists more, collected (runRecords records st) = collected st ++ more.
Proof.
  induction records as [|r records IH]; intros st.
  - exists []. simpl. now rewrite app_nil_r.
  - simpl. destruct (IH (step st r)) as (m2 & ->).
    destruct (stepRow_grows st r (splitCsvRow r)) as (m1 & E). unfold step. rewrite E.
    exists (m1 ++ m2). now rewrite app_assoc.
Qed.

(** X17. A question appended to the quiz stays where it is: the questions
    appended while reading any first part of the records open the returned
    quiz, in the same order, whatever records follow. *)
Theorem appended_questions_stay (csvContent : string) (first rest : list string) :
  splitCsvToRecords csvContent = first ++ rest ->
  exists more,
    questions (parseQuizCsv csvContent) = collected (runRecords first initialState) ++ more.
Proof.
  intros H. unfold parseQuizCsv, parseQuizCsv_run. simpl. rewrite H, runRecords_app.
  destruct (runRecords_grows rest (runRecords first initialState)) as (m1 & E).
  unfold finish. destruct (currentQuestion _) as [q|]; [|now exists m1].
  destruct (lastQuestionSkipReason q); simpl; [now exists m1|].
  exists (m1 ++ [q]). now rewrite E, app_assoc.
Qed.

Lemma appended_questions_stay_witness :
  exists more,
    questions (parseQuizCsv sampleNoOptionsThenNext)
    = collected (runRecords ["NewQuestion,MC"; "Title,T"; "QuestionText,Q"; "NewQuestion,WR"]
                   initialState) ++ more.
Proof.
  apply (appended_questions_stay sampleNoOptionsThenNext
           ["NewQuestion,MC"; "Title,T"; "QuestionText,Q"; "NewQuestion,WR"]
           ["Title,T2"; "QuestionText,Q2"]).
  vm_compute. reflexivity.
Defined.

(** ** Numbers *)

Lemma readDigits_no_digit (c : ascii) (r : string) :
  isDigit c = false -> readDigits (String c r) None = None.
Proof. intros H. simpl. now rewrite H. Qed.

(** X18. [safeParseInt] returns the default value for a value that is
    white space only, and for a value whose first character after the white
    space is neither a digit nor a sign. *)
Theorem safeParseInt_default (value : string) (defaultValue : Z) :
  (allWhite value = true -> safeParseInt value defaultValue = defaultValue)
  /\ (forall c r, trimStart value = String c r ->
                  isDigit c = false -> c <> "-"%char -> c <> "+"%char ->
                  safeParseInt value defaultValue = defaultValue).
Proof.
  unfold safeParseInt. split.
  - intros H. now rewrite (trim_allWhite value H).
  - intros c r E Hd Hm Hp. destruct (trim value =? "")%string; [reflexivity|].
    unfold parseInt. rewrite E.
    assert (Hr : readDigits (String c r) None = None) by now apply readDigits_no_digit.
    destruct c as [[] [] [] [] [] [] [] []]; try (now rewrite Hr); try discriminate;
      contradiction.
Qed.

Lemma safeParseInt_default_witness :
  safeParseInt "   " 1 = 1%Z /\ safeParseInt " n/a" 40 = 40%Z.
Proof.
  split.
  - exact (proj1 (safeParseInt_default "   " 1) eq_refl).
  - apply (proj2 (safeParseInt_default " n/a" 40) "n"%char "/a"); try reflexivity; discriminate.
Defined.

(** ** The evaluation mode of short answers *)

Local Open Scope list_scope.

Lemma onFeedback_answer (v : string) (q q' : PartialQuestion) (out : list Diagnostic) :
  onFeedback v q = Completed q' out ->
  bestAnswer q' = bestAnswer q /\ evaluation q' = evaluation q.
Proof.
  unfold onFeedback.
  repeat match goal with
         | |- context [if ?b then _ else _] => destruct b
         | |- context [match options q with _ => _ end] => destruct (options q)
         | |- context [match items q with _ => _ end] => destruct (items q)
         | |- context [match trueOption q with _ => _ end] => destruct (trueOption q)
         | |- context [match assignLast ?f ?l with _ => _ end] => destruct (assignLast f l)
         end;
    try discriminate; now intros [= <- <-].
Qed.

Lemma ensurePairs_answer (q : PartialQuestion) :
  bestAnswer (ensurePairs q) = bestAnswer q /\ evaluation (ensurePairs q) = evaluation q.
Proof. unfold ensurePairs. now destruct (pairs q). Qed.

Lemma processRow_evaluated (n : nat) (row : list string) (q q' : PartialQuestion)
    (out : list Diagnostic) :
  evaluated q -> processRow n row q = Completed q' out -> evaluated q'.
Proof.
  intros H.
  assert (Hsame : forall q1, bestAnswer q1 = bestAnswer q -> evaluation q1 = evaluation q ->
                             evaluated q1).
  { intros q1 Hb He. unfold evaluated. now rewrite Hb, He. }
  destruct (ensurePairs_answer q) as [Hpb Hpe].
  unfold processRow. cbv zeta.
  repeat match goal with
  | |- context [if toLowerCase (getValue row 0 "") =? ?k then _ else _] =>
      destruct (toLowerCase (getValue row 0 "") =? k) eqn:?
  end;
  try (intros [= <- <-]; exact H).
  - intros Hf. destruct (onFeedback_answer _ _ _ _ Hf). now apply Hsame.
  - destruct (typeIs q "SA"); intros [= <- <-]; [|exact H].
    unfold evaluated. simpl. split; [|split; eauto].
    intros e [= <-]. destruct (toLowerCase _ =? "regexp")%string; [now left|].
    destruct (toLowerCase _ =? "sensitive")%string; [right; now left | right; right; now left].
  - destruct (typeIs q "M" || typeIs q "MS" || typeIs q "O"); intros [= <- <-]; exact H.
  - unfold onChoice. destruct (typeIs q "M"); [|intros [= <- <-]; exact H]. cbv zeta.
    destruct (safeParseInt _ 0 <=? 0)%Z; [intros [= <- <-]; now apply Hsame|].
    destruct (findPair _ _) as [[i found]|]; intros [= <- <-]; now apply Hsame.
  - unfold onMatch. destruct (typeIs q "M"); [|intros [= <- <-]; exact H]. cbv zeta.
    destruct (safeParseInt _ 0 <=? 0)%Z; [intros [= <- <-]; now apply Hsame|].
    destruct (findPair _ _) as [[i found]|]; intros [= <- <-]; now apply Hsame.
  - unfold onOption. destruct (typeIs q "MC"); [|destruct (typeIs q "MS")];
      intros [= <- <-]; exact H.
  - destruct (typeIs q "TF"); intros [= <- <-]; exact H.
  - destruct (typeIs q "TF"); intros [= <- <-]; exact H.
  - unfold onItem. destruct (typeIs q "O"); intros [= <- <-]; exact H.
  - destruct (negb _ && negb _); intros [= <- <-]; exact H.
Qed.

(** X19. In every question of the returned quiz the evaluation mode, when
    there is one, is [regexp], [sensitive] or [insensitive], and a question
    has an evaluation mode exactly when it has a best answer. *)
Theorem evaluation_is_one_of_three (csvContent : string) (q : PartialQuestion) :
  In q (questions (parseQuizCsv csvContent)) ->
  (forall e, evaluation q = Some e -> In e ["regexp"; "sensitive"; "insensitive"])
  /\ (is_Some (bestAnswer q) <-> is_Some (evaluation q)).
Proof.
  intros Hin.
  apply (parseQuizCsv_holds (fun _ => evaluated)) with (csvContent := csvContent).
  - auto.
  - intros _ code _. split; [discriminate|]. split; intros [x [=]].
  - intros n row q0 q' out. apply processRow_evaluated.
  - exact Hin.
Qed.

Lemma evaluation_is_one_of_three_witness :
  exists q, In q (questions (parseQuizCsv sampleTwoTitles))
            /\ (is_Some (bestAnswer q) <-> is_Some (evaluation q)).
Proof.
  eexists. split.
  - vm_compute. right. left. reflexivity.
  - refine (proj2 (evaluation_is_one_of_three sampleTwoTitles _ _)).
    vm_compute. right. left. reflexivity.
Defined.
